(** * The audio-recorder hook [useAudioRecorder] as a state machine

    A shallow embedding of the React hook [useAudioRecorder] (status record,
    the six refs, the four operations and the callbacks it registers) over an
    explicit model of the browser objects it drives: the media stream, the
    [AudioContext] and its analyser, the [MediaRecorder], interval timers,
    animation-frame requests and promises.

    Every call and callback of the hook is one event-loop task;
    [startRecording], the one function that awaits, is two: the call, and
    the rest when the device request settles.  React re-renders between
    tasks, so an operation invoked by the caller runs with the closure of the
    latest render, while a callback handed to the platform, and the rest of
    a suspended function, keep the closure they were created with.

    Time is the platform's: it keeps a clock in milliseconds and, of every
    interval, the delay and the time it was set at; the hook never reads the
    clock.  A task takes no time, and when time passes the live intervals
    fire on time.

    The file goes on to the code around the hook: the component
    [VoiceScamDetector], which calls the four operations from its buttons,
    waits for the payload and makes up a result three seconds later; its time
    display [formatTime]; and the bars of [AudioWaveform].  The numbers the
    display code computes with are doubles, modelled as rationals with the
    rounding written out. *)

From Stdlib Require Import ZArith QArith Qminmax Qround Qpower Lqa Ascii String.
From Stdlib.Strings Require Import Byte.
From stdpp Require Import base option list gmap strings pretty.

Local Open Scope nat_scope.

(** ** Data model *)

(** Timer ids, animation-frame ids and object identities.  The browser hands
    out timer and frame ids greater than zero, so the guards
    [if (intervalRef.current)] and [if (animationFrameRef.current)] test
    [null] only. *)
Abbreviation handle := positive (only parsing).

(** [interface AudioRecorderState]. [recordingTime] only ever holds whole
    seconds. *)
Record AudioRecorderState : Type := mkState {
  isRecording : bool;
  isPaused : bool;
  recordingTime : nat;
  audioLevel : Q
}.

(** The argument of [useState]. *)
Definition initialState : AudioRecorderState :=
  {| isRecording := false; isPaused := false;
     recordingTime := 0; audioLevel := 0%Q |}.

(** What a callback created during a render can see of the status: the
    dependency lists of the [useCallback]s mention [state.isRecording] and
    [state.isPaused] only. *)
Record Closure : Type := mkClosure {
  c_isRecording : bool;
  c_isPaused : bool
}.

Definition render (s : AudioRecorderState) : Closure :=
  {| c_isRecording := isRecording s; c_isPaused := isPaused s |}.

(** A [Blob]: its bytes and its MIME type. *)
Record Blob : Type := mkBlob {
  blob_bytes : list byte;
  blob_type : string
}.

(** [new Blob(parts, { type })]. *)
Definition newBlob (parts : list Blob) (ty : string) : Blob :=
  {| blob_bytes := concat (map blob_bytes parts); blob_type := ty |}.

(** [MediaRecorder.state]. *)
Inductive RecordingState : Type := inactive | recording | paused.

(** A [MediaRecorder]: the stream it records, its state, the promise whose
    [resolve] the current [onstop] handler holds, and whether the task that
    fires [stop] is queued. *)
Record MediaRecorder : Type := mkRecorder {
  mr_stream : handle;
  mr_state : RecordingState;
  mr_onstop : option handle;
  mr_stopQueued : bool
}.

Inductive PromiseState : Type :=
  | pending
  | fulfilled (v : option Blob)
  | rejected.

Inductive Exn : Type := NotAllowedError | InvalidStateError | TypeError.

(** The platform calls the hook can make, in the order they are logged.
    [TrackStop] is [MediaStreamTrack.stop()], the call that gives the input
    device back. *)
Inductive Call : Type :=
  | GetUserMedia
  | NewAudioContext (c : handle)
  | CreateMediaStreamSource (c s : handle)
  | CreateAnalyser (c a : handle)
  | Connect (a : handle)
  | NewMediaRecorder (r s : handle)
  | RecorderStart (r : handle)
  | RecorderStop (r : handle)
  | RecorderPause (r : handle)
  | RecorderResume (r : handle)
  | SetInterval (i : handle)
  | ClearInterval (i : handle)
  | RequestAnimationFrame (f : handle)
  | CancelAnimationFrame (f : handle)
  | ContextClose (c : handle)
  | TrackStop (s : handle)
  | ConsoleError.

(** The six [useRef] cells. *)
Record Refs : Type := mkRefs {
  mediaRecorderRef : option handle;
  audioContextRef : option handle;
  analyserRef : option handle;
  animationFrameRef : option handle;
  intervalRef : option handle;
  audioChunksRef : list Blob
}.

(** The browser side. *)
Record Platform : Type := mkPlatform {
  streams : gset positive;            (* streams whose tracks are live *)
  contexts : gmap positive bool;      (* true: running, false: closed *)
  analysers : gmap positive nat;      (* fftSize of each analyser *)
  recorders : gmap positive MediaRecorder;
  intervals : gset positive;          (* intervals that will fire *)
  frames : gmap positive Closure;     (* pending animation-frame callbacks *)
  promises : gmap positive PromiseState;
  requests : list Closure;            (* startRecording calls waiting for the
                                         device, each with its closure *)
  spectrum : list byte;               (* what the analyser reads right now *)
  nextHandle : positive;
  calls : list Call;                  (* platform calls, oldest first *)
  stopThrows : bool;                  (* MediaRecorder.stop() on an inactive
                                         recorder: throw, or do nothing *)
  timers : gmap positive (nat * nat); (* of every interval ever set: its
                                         delay and the time it was set at,
                                         in milliseconds *)
  clock : nat                         (* the time, in milliseconds *)
}.

Record World : Type := mkWorld {
  state : AudioRecorderState;
  refs : Refs;
  plat : Platform
}.

Definition initialRefs : Refs :=
  {| mediaRecorderRef := None; audioContextRef := None; analyserRef := None;
     animationFrameRef := None; intervalRef := None; audioChunksRef := [] |}.

Definition initialPlatform (throws : bool) : Platform :=
  {| streams := ∅; contexts := ∅; analysers := ∅; recorders := ∅;
     intervals := ∅; frames := ∅; promises := ∅; requests := [];
     spectrum := [];
     nextHandle := 1%positive; calls := []; stopThrows := throws;
     timers := ∅; clock := 0 |}.

(** The hook at its first render. *)
Definition initialWorld (throws : bool) : World :=
  {| state := initialState; refs := initialRefs;
     plat := initialPlatform throws |}.

(** ** Field updates *)

Definition with_state
    (f : AudioRecorderState → AudioRecorderState) (w : World) : World :=
  {| state := f (state w); refs := refs w; plat := plat w |}.
Definition with_refs (f : Refs → Refs) (w : World) : World :=
  {| state := state w; refs := f (refs w); plat := plat w |}.
Definition with_plat (f : Platform → Platform) (w : World) : World :=
  {| state := state w; refs := refs w; plat := f (plat w) |}.

Definition set_mediaRecorderRef (v : option handle) (r : Refs) : Refs :=
  mkRefs v (audioContextRef r) (analyserRef r) (animationFrameRef r)
         (intervalRef r) (audioChunksRef r).
Definition set_audioContextRef (v : option handle) (r : Refs) : Refs :=
  mkRefs (mediaRecorderRef r) v (analyserRef r) (animationFrameRef r)
         (intervalRef r) (audioChunksRef r).
Definition set_analyserRef (v : option handle) (r : Refs) : Refs :=
  mkRefs (mediaRecorderRef r) (audioContextRef r) v (animationFrameRef r)
         (intervalRef r) (audioChunksRef r).
Definition set_animationFrameRef (v : option handle) (r : Refs) : Refs :=
  mkRefs (mediaRecorderRef r) (audioContextRef r) (analyserRef r) v
         (intervalRef r) (audioChunksRef r).
Definition set_intervalRef (v : option handle) (r : Refs) : Refs :=
  mkRefs (mediaRecorderRef r) (audioContextRef r) (analyserRef r)
         (animationFrameRef r) v (audioChunksRef r).
Definition set_audioChunksRef (v : list Blob) (r : Refs) : Refs :=
  mkRefs (mediaRecorderRef r) (audioContextRef r) (analyserRef r)
         (animationFrameRef r) (intervalRef r) v.

Definition set_streams (v : gset positive) (p : Platform) : Platform :=
  mkPlatform v (contexts p) (analysers p) (recorders p) (intervals p)
             (frames p) (promises p) (requests p) (spectrum p)
             (nextHandle p) (calls p) (stopThrows p)
             (timers p) (clock p).
Definition set_contexts (v : gmap positive bool) (p : Platform) : Platform :=
  mkPlatform (streams p) v (analysers p) (recorders p) (intervals p)
             (frames p) (promises p) (requests p) (spectrum p)
             (nextHandle p) (calls p) (stopThrows p)
             (timers p) (clock p).
Definition set_analysers (v : gmap positive nat) (p : Platform) : Platform :=
  mkPlatform (streams p) (contexts p) v (recorders p) (intervals p)
             (frames p) (promises p) (requests p) (spectrum p)
             (nextHandle p) (calls p) (stopThrows p)
             (timers p) (clock p).
Definition set_recorders (v : gmap positive MediaRecorder) (p : Platform)
  : Platform :=
  mkPlatform (streams p) (contexts p) (analysers p) v (intervals p)
             (frames p) (promises p) (requests p) (spectrum p)
             (nextHandle p) (calls p) (stopThrows p)
             (timers p) (clock p).
Definition set_intervals (v : gset positive) (p : Platform) : Platform :=
  mkPlatform (streams p) (contexts p) (analysers p) (recorders p) v
             (frames p) (promises p) (requests p) (spectrum p)
             (nextHandle p) (calls p) (stopThrows p)
             (timers p) (clock p).
Definition set_frames (v : gmap positive Closure) (p : Platform) : Platform :=
  mkPlatform (streams p) (contexts p) (analysers p) (recorders p)
             (intervals p) v (promises p) (requests p) (spectrum p)
             (nextHandle p) (calls p) (stopThrows p)
             (timers p) (clock p).
Definition set_promises (v : gmap positive PromiseState) (p : Platform)
  : Platform :=
  mkPlatform (streams p) (contexts p) (analysers p) (recorders p)
             (intervals p) (frames p) v (requests p) (spectrum p)
             (nextHandle p) (calls p) (stopThrows p)
             (timers p) (clock p).
Definition set_requests (v : list Closure) (p : Platform) : Platform :=
  mkPlatform (streams p) (contexts p) (analysers p) (recorders p)
             (intervals p) (frames p) (promises p) v (spectrum p)
             (nextHandle p) (calls p) (stopThrows p)
             (timers p) (clock p).
Definition set_spectrum (v : list byte) (p : Platform) : Platform :=
  mkPlatform (streams p) (contexts p) (analysers p) (recorders p)
             (intervals p) (frames p) (promises p) (requests p) v
             (nextHandle p) (calls p) (stopThrows p)
             (timers p) (clock p).
Definition set_nextHandle (v : positive) (p : Platform) : Platform :=
  mkPlatform (streams p) (contexts p) (analysers p) (recorders p)
             (intervals p) (frames p) (promises p) (requests p) (spectrum p)
             v (calls p) (stopThrows p)
             (timers p) (clock p).
Definition set_calls (v : list Call) (p : Platform) : Platform :=
  mkPlatform (streams p) (contexts p) (analysers p) (recorders p)
             (intervals p) (frames p) (promises p) (requests p) (spectrum p)
             (nextHandle p) v (stopThrows p)
             (timers p) (clock p).
Definition set_timers (v : gmap positive (nat * nat)) (p : Platform)
  : Platform :=
  mkPlatform (streams p) (contexts p) (analysers p) (recorders p)
             (intervals p) (frames p) (promises p) (requests p) (spectrum p)
             (nextHandle p) (calls p) (stopThrows p) v (clock p).
Definition set_clock (v : nat) (p : Platform) : Platform :=
  mkPlatform (streams p) (contexts p) (analysers p) (recorders p)
             (intervals p) (frames p) (promises p) (requests p) (spectrum p)
             (nextHandle p) (calls p) (stopThrows p) (timers p) v.

(** ** Effects: state passing with exceptions *)

Inductive Res (A : Type) : Type :=
  | Ret (a : A)
  | Throw (e : Exn).
Arguments Ret {A} a.
Arguments Throw {A} e.

Definition M (A : Type) : Type := World → Res A * World.

#[export] Instance M_ret : MRet M := λ A a w, (Ret a, w).
#[export] Instance M_bind : MBind M := λ A B f m w,
  match m w with
  | (Ret a, w') => f a w'
  | (Throw e, w') => (Throw e, w')
  end.

Definition throw {A : Type} (e : Exn) : M A := λ w, (Throw e, w).

(** [try { m } catch (e) { h e }]: what [m] did before it threw stays done. *)
Definition try_catch {A : Type} (m : M A) (h : Exn → M A) : M A := λ w,
  match m w with
  | (Ret a, w') => (Ret a, w')
  | (Throw e, w') => h e w'
  end.

Definition get : M World := λ w, (Ret w, w).
Definition modify (f : World → World) : M unit := λ w, (Ret tt, f w).

Definition when_some {A : Type} (o : option A) (f : A → M unit) : M unit :=
  match o with
  | Some a => f a
  | None => mret tt
  end.

(** [setState(prev => f prev)]. *)
Definition setState (f : AudioRecorderState → AudioRecorderState) : M unit :=
  modify (with_state f).

Definition setRef (f : Refs → Refs) : M unit := modify (with_refs f).

Definition log (c : Call) : M unit :=
  modify (with_plat (λ p, set_calls (calls p ++ [c]) p)).

Definition fresh : M handle := λ w,
  (Ret (nextHandle (plat w)),
   with_plat (set_nextHandle (Pos.succ (nextHandle (plat w)))) w).

(** ** The platform *)

Inductive Outcome : Type := Granted | Denied.

(** [navigator.mediaDevices.getUserMedia({ audio: true })]: the request.
    Its answer comes in a later task. *)
Definition getUserMedia : M unit := log GetUserMedia.

(** The [await] at line 43 suspends [startRecording]: the rest of the
    function, which runs in closure [c], waits for the device. *)
Definition await (c : Closure) : M unit :=
  modify (with_plat (λ p, set_requests (requests p ++ [c]) p)).

(** What the [await] yields once the request has settled: the stream, or
    the rejection, thrown at the [await]. *)
Definition awaited (o : Outcome) : M handle :=
  match o with
  | Denied => throw NotAllowedError
  | Granted =>
      s ← fresh;
      modify (with_plat (λ p, set_streams ({[s]} ∪ streams p) p));;
      mret s
  end.

(** [new AudioContext()]. *)
Definition newAudioContext : M handle :=
  c ← fresh;
  modify (with_plat (λ p, set_contexts (<[c:=true]> (contexts p)) p));;
  log (NewAudioContext c);;
  mret c.

(** [ctx.createAnalyser()]; a new analyser has [fftSize] 2048. *)
Definition createAnalyser (c : handle) : M handle :=
  a ← fresh;
  modify (with_plat (λ p, set_analysers (<[a:=2048]> (analysers p)) p));;
  log (CreateAnalyser c a);;
  mret a.

(** [analyser.fftSize = n]. *)
Definition set_fftSize (a : handle) (n : nat) : M unit :=
  modify (with_plat (λ p, set_analysers (<[a:=n]> (analysers p)) p)).

(** [analyser.frequencyBinCount]: half the FFT size. *)
Definition frequencyBinCount (a : handle) (w : World) : nat :=
  default 0 (analysers (plat w) !! a) / 2.

(** [new Uint8Array(n)] filled by [analyser.getByteFrequencyData]: [n] bytes,
    those of the spectrum as far as it reaches, zero beyond. *)
Definition getByteFrequencyData (n : nat) (data : list byte) : list byte :=
  take n (data ++ replicate n x00).

(** [new MediaRecorder(stream)]. *)
Definition newMediaRecorder (s : handle) : M handle :=
  r ← fresh;
  modify (with_plat (λ p,
    set_recorders (<[r:=mkRecorder s inactive None false]> (recorders p)) p));;
  log (NewMediaRecorder r s);;
  mret r.

Definition set_mr_state
    (st : RecordingState) (q : bool) (m : MediaRecorder) : MediaRecorder :=
  mkRecorder (mr_stream m) st (mr_onstop m) q.
Definition set_mr_onstop
    (h : option handle) (m : MediaRecorder) : MediaRecorder :=
  mkRecorder (mr_stream m) (mr_state m) h (mr_stopQueued m).

Definition update_recorder
    (r : handle) (f : MediaRecorder → MediaRecorder) : M unit :=
  modify (with_plat (λ p, set_recorders (alter f r (recorders p)) p)).

Definition recorder_state (r : handle) (w : World) : RecordingState :=
  match recorders (plat w) !! r with
  | Some m => mr_state m
  | None => inactive
  end.

(** [recorder.start()]: throws unless the recorder is inactive. *)
Definition recorder_start (r : handle) : M unit :=
  log (RecorderStart r);;
  w ← get;
  match recorder_state r w with
  | inactive => update_recorder r (set_mr_state recording false)
  | _ => throw InvalidStateError
  end.

(** [recorder.stop()]: an active recorder becomes inactive and the task that
    fires [dataavailable] and [stop] is queued.  On an inactive recorder the
    call throws or does nothing, by the platform. *)
Definition recorder_stop (r : handle) : M unit :=
  log (RecorderStop r);;
  w ← get;
  match recorder_state r w with
  | inactive =>
      if stopThrows (plat w) then throw InvalidStateError else mret tt
  | _ => update_recorder r (set_mr_state inactive true)
  end.

(** [recorder.pause()]: throws when inactive, nothing when already paused. *)
Definition recorder_pause (r : handle) : M unit :=
  log (RecorderPause r);;
  w ← get;
  match recorder_state r w with
  | inactive => throw InvalidStateError
  | recording => update_recorder r (set_mr_state paused false)
  | paused => mret tt
  end.

(** [recorder.resume()]: throws when inactive, nothing when recording. *)
Definition recorder_resume (r : handle) : M unit :=
  log (RecorderResume r);;
  w ← get;
  match recorder_state r w with
  | inactive => throw InvalidStateError
  | paused => update_recorder r (set_mr_state recording false)
  | recording => mret tt
  end.

(** [setInterval(tick, ms)]: the platform notes the delay and the time of
    the call, from which the firings of the interval are counted. *)
Definition setInterval (ms : nat) : M handle :=
  i ← fresh;
  modify (with_plat (λ p,
    set_timers (<[i:=(ms, clock p)]> (timers p))
      (set_intervals ({[i]} ∪ intervals p) p)));;
  log (SetInterval i);;
  mret i.

Definition clearInterval (i : handle) : M unit :=
  modify (with_plat (λ p, set_intervals (intervals p ∖ {[i]}) p));;
  log (ClearInterval i).

(** [requestAnimationFrame(cb)], where [cb] is [updateAudioLevel] as created
    by the render with closure [c]. *)
Definition requestAnimationFrame (c : Closure) : M handle :=
  f ← fresh;
  modify (with_plat (λ p, set_frames (<[f:=c]> (frames p)) p));;
  log (RequestAnimationFrame f);;
  mret f.

Definition cancelAnimationFrame (f : handle) : M unit :=
  modify (with_plat (λ p, set_frames (delete f (frames p)) p));;
  log (CancelAnimationFrame f).

(** [ctx.close()]; closing a closed context rejects the promise it returns,
    which nobody awaits. *)
Definition closeContext (c : handle) : M unit :=
  modify (with_plat (λ p, set_contexts (alter (λ _, false) c (contexts p)) p));;
  log (ContextClose c).

Definition newPromise : M handle :=
  p ← fresh;
  modify (with_plat (λ q, set_promises (<[p:=pending]> (promises q)) q));;
  mret p.

Definition settle (s : PromiseState) (old : PromiseState) : PromiseState :=
  match old with
  | pending => s
  | _ => old
  end.

(** [resolve(v)]; a settled promise stays as it is. *)
Definition resolve (p : handle) (v : option Blob) : M unit :=
  modify (with_plat (λ q,
    set_promises (alter (settle (fulfilled v)) p (promises q)) q)).

Definition reject (p : handle) : M unit :=
  modify (with_plat (λ q, set_promises (alter (settle rejected) p (promises q)) q)).

(** ** The hook *)

(** [dataArray.reduce((a, b) => a + b)]: no initial value, so an empty array
    is a [TypeError]. *)
Definition reduce_add (l : list byte) : M N :=
  match l with
  | [] => throw TypeError
  | b :: bs => mret (fold_left (λ a x, a + Byte.to_N x)%N bs (Byte.to_N b))
  end.

(** [Math.min(sum / length / 128, 1)].  With at most 2^15 for the sum and
    powers of two for both divisors the JavaScript doubles are exact, see
    [normalizedLevel_dyadic]. *)
Definition normalizedLevel (sum : N) (len : nat) : Q :=
  Qmin ((inject_Z (Z.of_N sum) / inject_Z (Z.of_nat len)) / 128) 1.

(** [updateAudioLevel], lines 25-39, as created by a render with closure
    [c]. *)
Definition updateAudioLevel (c : Closure) : M unit :=
  w ← get;
  match analyserRef (refs w) with
  | None => mret tt
  | Some a =>
      let dataArray :=
        getByteFrequencyData (frequencyBinCount a w) (spectrum (plat w)) in
      sum ← reduce_add dataArray;
      setState (λ prev, mkState (isRecording prev) (isPaused prev)
                                (recordingTime prev)
                                (normalizedLevel sum (length dataArray)));;
      if c_isRecording c && negb (c_isPaused c) then
        f ← requestAnimationFrame c;
        setRef (set_animationFrameRef (Some f))
      else mret tt
  end.

(** The interval callback, lines 69-74. *)
Definition tick : M unit :=
  setState (λ prev, mkState (isRecording prev) (isPaused prev)
                            (recordingTime prev + 1) (audioLevel prev)).

(** [startRecording], lines 41-43, as created by a render with closure [c]:
    the call, up to the [await]. *)
Definition startRecording_call (c : Closure) : M unit :=
  getUserMedia;; await c.

(** [startRecording], lines 43-82, with closure [c]: the function from the
    moment the device request has settled with [o].  The promise the [async]
    function returns is fulfilled on both branches of the [try]. *)
Definition startRecording (c : Closure) (o : Outcome) : M unit :=
  try_catch
    (stream ← awaited o;
     ctx ← newAudioContext;
     setRef (set_audioContextRef (Some ctx));;
     log (CreateMediaStreamSource ctx stream);;
     a ← createAnalyser ctx;
     setRef (set_analyserRef (Some a));;
     set_fftSize a 256;;
     log (Connect a);;
     r ← newMediaRecorder stream;
     setRef (set_mediaRecorderRef (Some r));;
     setRef (set_audioChunksRef []);;
     recorder_start r;;
     setState (λ prev, mkState true (isPaused prev) 0 (audioLevel prev));;
     i ← setInterval 1000;
     setRef (set_intervalRef (Some i));;
     updateAudioLevel c)
    (λ _, log ConsoleError).

(** The [onstop] handler installed by [stopRecording], lines 91-94. *)
Definition onstop (p : handle) : M unit :=
  w ← get;
  resolve p (Some (newBlob (audioChunksRef (refs w)) "audio/wav")).

(** The [ondataavailable] handler, lines 56-58. *)
Definition ondataavailable (data : Blob) : M unit :=
  setRef (λ r, set_audioChunksRef (audioChunksRef r ++ [data]) r).

(** [stopRecording], lines 84-118.  The executor runs inside
    [new Promise]: if it throws, the promise is rejected.  The result is the
    promise. *)
Definition stopRecording : M handle :=
  p ← newPromise;
  try_catch
    (w ← get;
     match mediaRecorderRef (refs w) with
     | None => resolve p None
     | Some r =>
         update_recorder r (set_mr_onstop (Some p));;
         recorder_stop r;;
         w ← get;
         when_some (intervalRef (refs w)) clearInterval;;
         when_some (animationFrameRef (refs w)) cancelAnimationFrame;;
         when_some (audioContextRef (refs w)) closeContext;;
         setState (λ prev, mkState false false (recordingTime prev) 0%Q)
     end)
    (λ _, reject p);;
  mret p.

(** [pauseRecording], lines 120-129, with closure [c]. *)
Definition pauseRecording (c : Closure) : M unit :=
  w ← get;
  match mediaRecorderRef (refs w) with
  | Some r =>
      if c_isRecording c then
        recorder_pause r;;
        setState (λ prev, mkState (isRecording prev) true
                                  (recordingTime prev) (audioLevel prev));;
        w ← get;
        when_some (animationFrameRef (refs w)) cancelAnimationFrame
      else mret tt
  | None => mret tt
  end.

(** [resumeRecording], lines 131-137, with closure [c]. *)
Definition resumeRecording (c : Closure) : M unit :=
  w ← get;
  match mediaRecorderRef (refs w) with
  | Some r =>
      if c_isPaused c then
        recorder_resume r;;
        setState (λ prev, mkState (isRecording prev) false
                                  (recordingTime prev) (audioLevel prev));;
        updateAudioLevel c
      else mret tt
  | None => mret tt
  end.

(** ** The event loop *)

Inductive Event : Type :=
  | EStart                          (* the caller runs startRecording *)
  | EDevice (k : nat) (o : Outcome) (* the k-th pending device request
                                       settles *)
  | EStop                           (* the caller runs stopRecording *)
  | EPause
  | EResume
  | ETick (i : handle)              (* interval i fires *)
  | EFrame (f : handle)             (* animation-frame callback f runs *)
  | EDataAvailable (r : handle) (data : Blob)
  | EStopEvent (r : handle)         (* the stop event of recorder r *)
  | ETrackEnded (s : handle)        (* the tracks of stream s end, as when
                                       the device is unplugged *)
  | EAudio (data : list byte).      (* the input signal changes *)

Definition exec {A : Type} (m : M A) (w : World) : World := snd (m w).

(** A recorder whose stream has ended stops by itself: it becomes inactive
    and its stop event is queued. *)
Definition end_of_stream (s : handle) (m : MediaRecorder) : MediaRecorder :=
  match mr_state m with
  | inactive => m
  | _ => if decide (mr_stream m = s) then set_mr_state inactive true m else m
  end.

(** One task.  A timer, frame or recorder event that is not due does
    nothing. *)
Definition step (e : Event) (w : World) : World :=
  match e with
  | EStart => exec (startRecording_call (render (state w))) w
  | EDevice k o =>
      match requests (plat w) !! k with
      | Some c =>
          exec (startRecording c o)
               (with_plat (λ p, set_requests (delete k (requests p)) p) w)
      | None => w
      end
  | EStop => exec stopRecording w
  | EPause => exec (pauseRecording (render (state w))) w
  | EResume => exec (resumeRecording (render (state w))) w
  | ETick i =>
      if decide (i ∈ intervals (plat w)) then exec tick w else w
  | EFrame f =>
      match frames (plat w) !! f with
      | Some c =>
          exec (updateAudioLevel c)
               (with_plat (λ p, set_frames (delete f (frames p)) p) w)
      | None => w
      end
  | EDataAvailable r data =>
      match recorders (plat w) !! r with
      | Some _ => exec (ondataavailable data) w
      | None => w
      end
  | EStopEvent r =>
      match recorders (plat w) !! r with
      | Some m =>
          if mr_stopQueued m then
            exec (when_some (mr_onstop m) onstop)
                 (exec (update_recorder r (set_mr_state inactive false)) w)
          else w
      | None => w
      end
  | ETrackEnded s =>
      with_plat (λ p, set_recorders (end_of_stream s <$> recorders p)
                        (set_streams (streams p ∖ {[s]}) p)) w
  | EAudio data => with_plat (set_spectrum data) w
  end.

Definition run (es : list Event) (w : World) : World :=
  fold_left (λ w e, step e w) es w.

(** ** What each operation leaves behind

    The worlds below are the closed forms of the operations; the equations
    that tie them to the code are proved further down. *)

(** The sum of a frame. *)
Definition byte_sum (l : list byte) : N :=
  foldr (λ b a, Byte.to_N b + a)%N 0%N l.

(** Whether [updateAudioLevel] created with closure [c] asks for another
    frame. *)
Definition loops (c : Closure) : bool := c_isRecording c && negb (c_isPaused c).

Definition opt_set (o : option positive) : gset positive :=
  match o with Some i => {[i]} | None => ∅ end.
Definition opt_delete {A : Type}
    (o : option positive) (m : gmap positive A) : gmap positive A :=
  match o with Some f => delete f m | None => m end.
Definition opt_close
    (o : option positive) (m : gmap positive bool) : gmap positive bool :=
  match o with Some c => alter (λ _, false) c m | None => m end.
Definition opt_call (mk : positive → Call) (o : option positive) : list Call :=
  match o with Some x => [mk x] | None => [] end.

(** After lines 43-54: stream, context, analyser and recorder exist, the
    recorder has not started. *)
Definition acquired (w : World) : World :=
  let s := nextHandle (plat w) in
  let ctx := Pos.succ s in
  let a := Pos.succ ctx in
  let r := Pos.succ a in
  {| state := state w;
     refs := mkRefs (Some r) (Some ctx) (Some a) (animationFrameRef (refs w))
                    (intervalRef (refs w)) [];
     plat := mkPlatform
       ({[s]} ∪ streams (plat w))
       (<[ctx:=true]> (contexts (plat w)))
       (<[a:=256]> (analysers (plat w)))
       (<[r:=mkRecorder s inactive None false]> (recorders (plat w)))
       (intervals (plat w))
       (frames (plat w))
       (promises (plat w))
       (requests (plat w))
       (spectrum (plat w))
       (Pos.succ r)
       (calls (plat w) ++
        [NewAudioContext ctx; CreateMediaStreamSource ctx s;
         CreateAnalyser ctx a; Connect a; NewMediaRecorder r s])
       (stopThrows (plat w))
       (timers (plat w))
       (clock (plat w)) |}.

(** After [startRecording] with the device granted. *)
Definition started (c : Closure) (w : World) : World :=
  let s := nextHandle (plat w) in
  let ctx := Pos.succ s in
  let a := Pos.succ ctx in
  let r := Pos.succ a in
  let i := Pos.succ r in
  let f := Pos.succ i in
  let data := getByteFrequencyData 128 (spectrum (plat w)) in
  {| state := mkState true (isPaused (state w)) 0
                      (normalizedLevel (byte_sum data) 128);
     refs := mkRefs (Some r) (Some ctx) (Some a)
                    (if loops c then Some f else animationFrameRef (refs w))
                    (Some i) [];
     plat := mkPlatform
       ({[s]} ∪ streams (plat w))
       (<[ctx:=true]> (contexts (plat w)))
       (<[a:=256]> (analysers (plat w)))
       (<[r:=mkRecorder s recording None false]> (recorders (plat w)))
       ({[i]} ∪ intervals (plat w))
       (if loops c then <[f:=c]> (frames (plat w)) else frames (plat w))
       (promises (plat w))
       (requests (plat w))
       (spectrum (plat w))
       (if loops c then Pos.succ f else f)
       (calls (plat w) ++
        [NewAudioContext ctx; CreateMediaStreamSource ctx s;
         CreateAnalyser ctx a; Connect a; NewMediaRecorder r s;
         RecorderStart r; SetInterval i] ++
        (if loops c then [RequestAnimationFrame f] else []))
       (stopThrows (plat w))
       (<[i:=(1000, clock (plat w))]> (timers (plat w)))
       (clock (plat w)) |}.

(** After a sample of the level over [n] bins. *)
Definition sampled (c : Closure) (n : nat) (w : World) : World :=
  let f := nextHandle (plat w) in
  let level :=
    normalizedLevel (byte_sum (getByteFrequencyData n (spectrum (plat w)))) n in
  let s := mkState (isRecording (state w)) (isPaused (state w))
                   (recordingTime (state w)) level in
  if loops c then
    {| state := s;
       refs := set_animationFrameRef (Some f) (refs w);
       plat := set_calls (calls (plat w) ++ [RequestAnimationFrame f])
                 (set_frames (<[f:=c]> (frames (plat w)))
                    (set_nextHandle (Pos.succ f) (plat w))) |}
  else {| state := s; refs := refs w; plat := plat w |}.

(** After the cleanup half of [stopRecording], lines 98-116. *)
Definition cleaned
    (r p : positive) (recs : gmap positive MediaRecorder) (w : World) : World :=
  {| state := mkState false false (recordingTime (state w)) 0%Q;
     refs := refs w;
     plat := mkPlatform
       (streams (plat w))
       (opt_close (audioContextRef (refs w)) (contexts (plat w)))
       (analysers (plat w))
       recs
       (intervals (plat w) ∖ opt_set (intervalRef (refs w)))
       (opt_delete (animationFrameRef (refs w)) (frames (plat w)))
       (<[p:=pending]> (promises (plat w)))
       (requests (plat w))
       (spectrum (plat w))
       (Pos.succ p)
       (calls (plat w) ++ [RecorderStop r] ++
        opt_call ClearInterval (intervalRef (refs w)) ++
        opt_call CancelAnimationFrame (animationFrameRef (refs w)) ++
        opt_call ContextClose (audioContextRef (refs w)))
       (stopThrows (plat w))
       (timers (plat w))
       (clock (plat w)) |}.

(** After [stopRecording] whose executor threw at [recorder.stop()]. *)
Definition stop_thrown (r p : positive) (w : World) : World :=
  with_plat (λ q,
    set_promises (<[p:=rejected]> (promises q))
      (set_calls (calls q ++ [RecorderStop r])
         (set_recorders (alter (set_mr_onstop (Some p)) r (recorders q))
            (set_nextHandle (Pos.succ p) q)))) w.

(** After [stopRecording]. *)
Definition stopped (w : World) : World :=
  let p := nextHandle (plat w) in
  match mediaRecorderRef (refs w) with
  | None =>
      with_plat (λ q, set_promises (<[p:=fulfilled None]> (promises q))
                        (set_nextHandle (Pos.succ p) q)) w
  | Some r =>
      let recs := alter (set_mr_onstop (Some p)) r (recorders (plat w)) in
      match recorder_state r w with
      | inactive =>
          if stopThrows (plat w) then stop_thrown r p w
          else cleaned r p recs w
      | _ => cleaned r p (alter (set_mr_state inactive true) r recs) w
      end
  end.

(** After a [pauseRecording] that got past [recorder.pause()]. *)
Definition paused_world (r : positive) (w : World) : World :=
  {| state := mkState (isRecording (state w)) true (recordingTime (state w))
                      (audioLevel (state w));
     refs := refs w;
     plat := set_calls
       (calls (plat w) ++ [RecorderPause r] ++
        opt_call CancelAnimationFrame (animationFrameRef (refs w)))
       (set_frames (opt_delete (animationFrameRef (refs w)) (frames (plat w)))
          (set_recorders
             (match recorder_state r w with
              | recording => alter (set_mr_state paused false) r (recorders (plat w))
              | _ => recorders (plat w)
              end) (plat w))) |}.

(** After the first two statements of a [resumeRecording] that got past
    [recorder.resume()]. *)
Definition resumed_world (r : positive) (w : World) : World :=
  {| state := mkState (isRecording (state w)) false (recordingTime (state w))
                      (audioLevel (state w));
     refs := refs w;
     plat := set_calls (calls (plat w) ++ [RecorderResume r])
       (set_recorders
          (match recorder_state r w with
           | paused => alter (set_mr_state recording false) r (recorders (plat w))
           | _ => recorders (plat w)
           end) (plat w)) |}.

(** ** Callers that start one session at a time

    The component offers the start button only while [isRecording] is
    false.  [isRecording] turns true only when the device request is
    granted, so a caller that keeps sessions apart also does not start again
    while a request is pending. *)
Definition no_request (w : World) : bool :=
  match requests (plat w) with
  | [] => true
  | _ :: _ => false
  end.

Definition ui_allows (w : World) (e : Event) : bool :=
  match e with
  | EStart => negb (isRecording (state w)) && no_request w
  | _ => true
  end.

Fixpoint ui_trace (es : list Event) (w : World) : bool :=
  match es with
  | [] => true
  | e :: es' => ui_allows w e && ui_trace es' (step e w)
  end.

(** One start that the device grants.  From the initial hook this creates
    stream 1, context 2, analyser 3, recorder 4 and interval 5; a second one
    creates 6 to 10, and so on. *)
Definition granted_start : list Event := [EStart; EDevice 0 Granted].

(** How often the log holds a call. *)
Definition Call_eqb (a b : Call) : bool :=
  match a, b with
  | GetUserMedia, GetUserMedia => true
  | NewAudioContext c, NewAudioContext c' => Pos.eqb c c'
  | CreateMediaStreamSource c s, CreateMediaStreamSource c' s' =>
      Pos.eqb c c' && Pos.eqb s s'
  | CreateAnalyser c a, CreateAnalyser c' a' => Pos.eqb c c' && Pos.eqb a a'
  | Connect a, Connect a' => Pos.eqb a a'
  | NewMediaRecorder r s, NewMediaRecorder r' s' => Pos.eqb r r' && Pos.eqb s s'
  | RecorderStart r, RecorderStart r' => Pos.eqb r r'
  | RecorderStop r, RecorderStop r' => Pos.eqb r r'
  | RecorderPause r, RecorderPause r' => Pos.eqb r r'
  | RecorderResume r, RecorderResume r' => Pos.eqb r r'
  | SetInterval i, SetInterval i' => Pos.eqb i i'
  | ClearInterval i, ClearInterval i' => Pos.eqb i i'
  | RequestAnimationFrame f, RequestAnimationFrame f' => Pos.eqb f f'
  | CancelAnimationFrame f, CancelAnimationFrame f' => Pos.eqb f f'
  | ContextClose c, ContextClose c' => Pos.eqb c c'
  | TrackStop s, TrackStop s' => Pos.eqb s s'
  | ConsoleError, ConsoleError => true
  | _, _ => false
  end.

Definition count_call (c : Call) (l : list Call) : nat :=
  foldr (λ x n, if Call_eqb c x then S n else n) 0 l.

(** A promise nobody will settle: it is pending, and the only recorders
    whose [onstop] handler holds its [resolve] are inactive with no stop
    event queued. *)
Definition orphaned (p : positive) (w : World) : Prop :=
  (p < nextHandle (plat w))%positive ∧
  promises (plat w) !! p = Some pending ∧
  ∀ r m, recorders (plat w) !! r = Some m → mr_onstop m = Some p →
         mr_stopQueued m = false ∧ mr_state m = inactive.

(** ** Callbacks

    The events in which the platform runs a callback, or changes by itself,
    as opposed to a call of one of the four operations and the rest of a
    suspended [startRecording]. *)
Definition platform_callback (e : Event) : bool :=
  match e with
  | ETick _ | EFrame _ | EDataAvailable _ _ | EStopEvent _
  | ETrackEnded _ | EAudio _ => true
  | EStart | EDevice _ _ | EStop | EPause | EResume => false
  end.

(** The status after one tick of the interval. *)
Definition ticked (s : AudioRecorderState) : AudioRecorderState :=
  mkState (isRecording s) (isPaused s) (recordingTime s + 1) (audioLevel s).

(** [refs_kept r r']: every ref that holds an object in [r] holds one in
    [r']. *)
Definition refs_kept (r r' : Refs) : Prop :=
  (is_Some (mediaRecorderRef r) → is_Some (mediaRecorderRef r')) ∧
  (is_Some (audioContextRef r) → is_Some (audioContextRef r')) ∧
  (is_Some (analyserRef r) → is_Some (analyserRef r')) ∧
  (is_Some (animationFrameRef r) → is_Some (animationFrameRef r')) ∧
  (is_Some (intervalRef r) → is_Some (intervalRef r')).

(** [flags_agree w]: [isPaused] tells whether the recorder in
    [mediaRecorderRef] is paused, as far as the recorder is active: it is
    not recording while [isPaused] is true and not paused while it is
    false. *)
Definition flags_agree (w : World) : Prop :=
  ∀ r, mediaRecorderRef (refs w) = Some r →
       (isPaused (state w) = true → recorder_state r w ≠ recording) ∧
       (isPaused (state w) = false → recorder_state r w ≠ paused).

(** ** Doubles

    The numbers of the display code are IEEE 754 binary64 values.  A finite
    double is a rational, and an arithmetic operation on doubles is the
    exact operation followed by rounding to the nearest double, ties to the
    even significand.  Infinities and NaN do not arise from the values
    below, which stay far under 2^1024. *)

Definition pow2 (e : Z) : Q := 2 ^ e.

(** The exponent of the leading bit of [q > 0]. *)
Definition ilog2 (q : Q) : Z :=
  let e := (Z.log2 (Qnum q) - Z.log2 (Z.pos (Qden q)))%Z in
  if Qle_bool (pow2 e) q then e else (e - 1)%Z.

(** The integer nearest to [q], the even one of two equally near. *)
Definition round_half_even (q : Q) : Z :=
  let f := Qfloor q in
  match (q - inject_Z f ?= 1 # 2)%Q with
  | Lt => f
  | Gt => (f + 1)%Z
  | Eq => if Z.even f then f else (f + 1)%Z
  end.

(** The distance between neighbouring doubles around [q > 0]: 52 bits below
    the leading bit, and 2^-1074 for the subnormal ones. *)
Definition ulp (q : Q) : Q := pow2 (Z.max (ilog2 q) (-1022) - 52).

Definition nearest_double_pos (q : Q) : Q :=
  inject_Z (round_half_even (q / ulp q)) * ulp q.

(** The double nearest to [q]. *)
Definition nearest_double (q : Q) : Q :=
  match (q ?= 0)%Q with
  | Eq => 0%Q
  | Gt => nearest_double_pos q
  | Lt => (- nearest_double_pos (- q))%Q
  end.

(** [q] is a double. *)
Definition is_double (q : Q) : Prop := (nearest_double q == q)%Q.

(** [a * b], [a + b] and [a / b] on doubles. *)
Definition Number_multiply (a b : Q) : Q := nearest_double (a * b).
Definition Number_add (a b : Q) : Q := nearest_double (a + b).
Definition Number_divide (a b : Q) : Q := nearest_double (a / b).

(** ** The display of the elapsed time

    [formatTime] of the component [VoiceScamDetector], which shows
    [recordingTime]. *)

(** [n.toString()] for a whole number [n >= 0]: its decimal digits. *)
Definition toString (n : nat) : string := pretty n.

Fixpoint repeat_string (n : nat) (s : string) : string :=
  match n with
  | 0 => ""
  | S n' => s +:+ repeat_string n' s
  end.

(** [s.padStart(targetLength, padString)]: [s] itself when it is long
    enough or there is nothing to pad with, else [padString] repeated and
    cut to the missing length, then [s]. *)
Definition padStart (targetLength : nat) (padString s : string) : string :=
  if (targetLength <=? String.length s) || (String.length padString =? 0)
  then s
  else
    let fillLen := targetLength - String.length s in
    substring 0 fillLen (repeat_string fillLen padString) +:+ s.

(** [formatTime], lines 48-52.  [seconds] is [recordingTime], a count of
    ticks.  The minutes are [Math.floor] of the quotient of doubles; the
    remainder [%] of a whole number is exact. *)
Definition formatTime (seconds : nat) : string :=
  let mins :=
    Z.to_nat (Qfloor (Number_divide (inject_Z (Z.of_nat seconds)) 60)) in
  let secs := seconds mod 60 in
  padStart 2 "0" (toString mins) +:+ ":" +:+ padStart 2 "0" (toString secs).

(** ** The waveform

    The component [AudioWaveform]: twenty bars whose heights, in per cent,
    follow the level while the meter is active. *)

(** The height of one bar; [u] is what [Math.random()] returns for it. *)
Definition barHeight (isActive : bool) (audioLevel u : Q) : Q :=
  if isActive then
    Qmax 20 (Number_multiply (Number_multiply audioLevel 100)
                             (Number_add (1 # 2) (Number_multiply u (1 # 2))))
  else 20.

(** The heights of the bars, [random i] being the draw for bar [i]. *)
Definition AudioWaveform
    (isActive : bool) (audioLevel : Q) (random : nat → Q) : list Q :=
  map (λ index, barHeight isActive audioLevel (random index)) (seq 0 20).

(** ** The component [VoiceScamDetector] *)

Inductive ResultStatus : Type := analyzing | safe | warning | scam.

Record AnalysisResult : Type := mkResult {
  status : ResultStatus;
  confidence : Z;
  threats : list string;
  riskFactors : list string
}.

(** [a > b] on doubles. *)
Definition Qgtb (a b : Q) : bool := negb (Qle_bool a b).

(** The result the timer callback makes up, lines 36-41; [random i] is what
    the [i]-th call of [Math.random()] in it returns.  The second condition
    draws only when the first fails, and the confidence draws last. *)
Definition mockResult (random : nat → Q) : AnalysisResult :=
  let '(st, drawn) :=
    if Qgtb (random 0) (nearest_double (7 # 10)) then (scam, 1)
    else if Qgtb (random 1) (1 # 2) then (warning, 2)
    else (safe, 2) in
  {| status := st;
     confidence := (Qfloor (Number_multiply (random drawn) 30) + 70)%Z;
     threats := ["Impersonation detected"; "Urgency tactics";
                 "Request for personal info"];
     riskFactors := ["Unknown caller"; "Suspicious keywords";
                     "Voice synthesis markers"] |}.

(** The waveform as the component renders it, lines 92-96. *)
Definition waveform (s : AudioRecorderState) (random : nat → Q) : list Q :=
  AudioWaveform (isRecording s && negb (isPaused s)) (audioLevel s) random.

(** The component: the hook it uses with the platform under it, its two
    state cells, the timers it has set and the promises at which a
    [handleStopRecording] is suspended. *)
Record Detector : Type := mkDetector {
  hook : World;
  analysisResult : option AnalysisResult;
  isAnalyzing : bool;
  timeouts : gset positive;
  awaiting : gset positive
}.

Definition initialDetector (throws : bool) : Detector :=
  {| hook := initialWorld throws; analysisResult := None;
     isAnalyzing := false; timeouts := ∅; awaiting := ∅ |}.

Definition with_hook (f : World → World) (d : Detector) : Detector :=
  mkDetector (f (hook d)) (analysisResult d) (isAnalyzing d) (timeouts d)
             (awaiting d).

(** The events of the platform, as opposed to the four operations, which
    only the buttons call. *)
Definition platform_event (e : Event) : bool :=
  match e with
  | EStart | EStop | EPause | EResume => false
  | _ => true
  end.

Inductive Action : Type :=
  | ClickStart                        (* Start Recording *)
  | ClickPauseResume                  (* Pause, or Resume while paused *)
  | ClickStop                         (* Stop & Analyze *)
  | Continue (p : handle)             (* handleStopRecording goes on after
                                         its await on promise p *)
  | TimerFired (t : handle) (random : nat → Q)
                                      (* the 3 s timer t fires *)
  | PlatformEvent (e : Event).

(** [handleStopRecording] after the [await], lines 31-45, with the value
    the promise was fulfilled with. *)
Definition analyze (audioBlob : option Blob) (d : Detector) : Detector :=
  match audioBlob with
  | Some _ =>
      match fresh (hook d) with
      | (Ret t, w) =>
          mkDetector w (analysisResult d) true ({[t]} ∪ timeouts d)
                     (awaiting d)
      | (Throw _, w) => with_hook (λ _, w) d
      end
  | None => d
  end.

(** One task of the component.  A button that is not rendered cannot be
    clicked: with [isRecording] false only Start is there, with
    [isRecording] true only Pause/Resume and Stop (lines 109-142). *)
Definition act (a : Action) (d : Detector) : Detector :=
  match a with
  | ClickStart =>
      if isRecording (state (hook d)) then d
      else mkDetector (step EStart (hook d)) None (isAnalyzing d)
                      (timeouts d) (awaiting d)
  | ClickPauseResume =>
      if isRecording (state (hook d)) then
        with_hook (step (if isPaused (state (hook d)) then EResume
                         else EPause)) d
      else d
  | ClickStop =>
      if isRecording (state (hook d)) then
        match stopRecording (hook d) with
        | (Ret p, w) =>
            mkDetector w (analysisResult d) (isAnalyzing d) (timeouts d)
                       ({[p]} ∪ awaiting d)
        | (Throw _, w) => with_hook (λ _, w) d
        end
      else d
  | Continue p =>
      if decide (p ∈ awaiting d) then
        match promises (plat (hook d)) !! p with
        | Some (fulfilled audioBlob) =>
            analyze audioBlob
              (mkDetector (hook d) (analysisResult d) (isAnalyzing d)
                          (timeouts d) (awaiting d ∖ {[p]}))
        | Some rejected =>
            mkDetector (hook d) (analysisResult d) (isAnalyzing d)
                       (timeouts d) (awaiting d ∖ {[p]})
        | _ => d
        end
      else d
  | TimerFired t random =>
      if decide (t ∈ timeouts d) then
        mkDetector (hook d) (Some (mockResult random)) false
                   (timeouts d ∖ {[t]}) (awaiting d)
      else d
  | PlatformEvent e => if platform_event e then with_hook (step e) d else d
  end.

Definition play (acts : list Action) (d : Detector) : Detector :=
  fold_left (λ d a, act a d) acts d.

(** The draws of [Math.random()]: doubles from 0 up to, not including, 1. *)
Definition random_draws (random : nat → Q) : Prop :=
  ∀ i, (0 <= random i)%Q ∧ (random i < 1)%Q ∧ is_double (random i).

Definition drawn_well (a : Action) : Prop :=
  match a with
  | TimerFired _ random => random_draws random
  | _ => True
  end.

(** [dead_session r w]: the status says recording, but the recorder [r] in
    [mediaRecorderRef] has gone inactive, as it does when the tracks of its
    stream end; no start is waiting for the device, and the platform is one
    on which [stop()] throws on an inactive recorder. *)
Definition dead_session (r : positive) (w : World) : Prop :=
  stopThrows (plat w) = true ∧
  isRecording (state w) = true ∧
  mediaRecorderRef (refs w) = Some r ∧
  recorder_state r w = inactive ∧
  requests (plat w) = [].

(** [prompt acts d]: in the run of [acts] from [d], no Start is clicked
    while an earlier start still waits for the device. *)
Fixpoint prompt (acts : list Action) (d : Detector) : bool :=
  match acts with
  | [] => true
  | a :: acts' =>
      match a with
      | ClickStart => no_request (hook d)
      | _ => true
      end && prompt acts' (act a d)
  end.

(** ** Time

    The platform fires a live interval every [delay] milliseconds, counted
    from the call of [setInterval].  The definitions below are a platform
    that does so on time; the hook itself never reads the clock. *)

(** Whether interval [i] fires at the present time. *)
Definition due (i : positive) (w : World) : bool :=
  match timers (plat w) !! i with
  | Some (delay, t0) =>
      (t0 <? clock (plat w)) && ((clock (plat w) - t0) mod delay =? 0)
  | None => false
  end.

(** Interval [i] fires if it is due: its callback runs as one task. *)
Definition fire (i : positive) (w : World) : World :=
  if due i w then step (ETick i) w else w.

(** One millisecond passes: the clock advances, then the live intervals
    that are due fire. *)
Definition elapse (w : World) : World :=
  foldr fire (with_plat (λ p, set_clock (S (clock p)) p) w)
        (elements (intervals (plat w))).

(** What happens on this platform: a task of the hook, or time passing. *)
Inductive Timed : Type :=
  | Task (e : Event)   (* a task of the hook runs; it takes no time *)
  | Wait (ms : nat).   (* [ms] milliseconds pass *)

(** [Wait ms] is [ms] times one millisecond. *)
Definition timed_step (t : Timed) (w : World) : World :=
  match t with
  | Task e => step e w
  | Wait ms => Nat.iter ms elapse w
  end.

Definition timed_run (ts : list Timed) (w : World) : World :=
  fold_left (λ w t, timed_step t w) ts w.

(** What a trace on this platform consists of: the ticks come from the
    clock, so the trace names none; and the caller starts one session at a
    time, as [ui_allows] has it. *)
Definition timed_allows (w : World) (t : Timed) : bool :=
  match t with
  | Task (ETick _) => false
  | Task e => ui_allows w e
  | Wait _ => true
  end.

Fixpoint timed_trace (ts : list Timed) (w : World) : bool :=
  match ts with
  | [] => true
  | t :: ts' => timed_allows w t && timed_trace ts' (timed_step t w)
  end.

(** [session_clock w]: during a session the interval in [intervalRef] was
    set with a delay of 1000 ms, at a time [t0], and [recordingTime] is the
    number of whole seconds since. *)
Definition session_clock (w : World) : Prop :=
  isRecording (state w) = true →
  ∃ i t0, intervalRef (refs w) = Some i ∧
          timers (plat w) !! i = Some (1000, t0) ∧
          t0 ≤ clock (plat w) ∧
          recordingTime (state w) = (clock (plat w) - t0) / 1000.

(** [waited w w' ms]: [w'] is [w] after [ms] milliseconds in which nothing
    but the clock and the count of seconds moved. *)
Definition waited (w w' : World) (ms : nat) : Prop :=
  refs w' = refs w ∧
  intervals (plat w') = intervals (plat w) ∧
  timers (plat w') = timers (plat w) ∧
  clock (plat w') = clock (plat w) + ms ∧
  isRecording (state w') = isRecording (state w) ∧
  isPaused (state w') = isPaused (state w) ∧
  audioLevel (state w') = audioLevel (state w) ∧
  (isRecording (state w) = false →
   recordingTime (state w') = recordingTime (state w)).

(** ** The wait of a stop

    [stopRecording] hands [resolve] to the [onstop] handler of the recorder
    in [mediaRecorderRef]; the promise is settled when that handler runs. *)

(** Whether [e] is the rest of a [startRecording] whose device request was
    granted. *)
Definition grants (w : World) (e : Event) : bool :=
  match e with
  | EDevice k Granted =>
      match requests (plat w) !! k with
      | Some _ => true
      | None => false
      end
  | _ => false
  end.

(** Whether [e] takes the [onstop] handler of recorder [r] away from the
    promise that holds it: the stop event of [r], which runs the handler,
    and a [stopRecording] while [mediaRecorderRef] holds [r], which installs
    a new one. *)
Definition takes_onstop (r : positive) (w : World) (e : Event) : bool :=
  match e with
  | EStopEvent r' => Pos.eqb r' r
  | EStop =>
      match mediaRecorderRef (refs w) with
      | Some r' => Pos.eqb r' r
      | None => false
      end
  | _ => false
  end.

(** No event of [es], run from [w], takes the handler of [r]. *)
Fixpoint onstop_kept (r : positive) (es : list Event) (w : World) : bool :=
  match es with
  | [] => true
  | e :: es' => negb (takes_onstop r w e) && onstop_kept r es' (step e w)
  end.

(** No event of [es], run from [w], is the rest of a granted start. *)
Fixpoint no_restart (es : list Event) (w : World) : bool :=
  match es with
  | [] => true
  | e :: es' => negb (grants w e) && no_restart es' (step e w)
  end.

(** The chunk an event delivers: the [ondataavailable] handlers of all
    recorders push to the one [audioChunksRef]. *)
Definition chunk (w : World) (e : Event) : list Blob :=
  match e with
  | EDataAvailable r data =>
      match recorders (plat w) !! r with
      | Some _ => [data]
      | None => []
      end
  | _ => []
  end.

(** The chunks delivered during [es], run from [w], in order of arrival. *)
Fixpoint delivered (es : list Event) (w : World) : list Blob :=
  match es with
  | [] => []
  | e :: es' => chunk w e ++ delivered es' (step e w)
  end.

(** Of [acc] and the chunks delivered during [es], those that arrived after
    the latest granted start. *)
Fixpoint collect (es : list Event) (w : World) (acc : list Blob) : list Blob :=
  match es with
  | [] => acc
  | e :: es' =>
      collect es' (step e w) ((if grants w e then [] else acc) ++ chunk w e)
  end.

(** [awaits_stop p r w]: promise [p] is pending and waits for the stop event
    of recorder [r], which is queued; no other recorder's handler holds it. *)
Definition awaits_stop (p r : positive) (w : World) : Prop :=
  (p < nextHandle (plat w))%positive ∧
  (r < nextHandle (plat w))%positive ∧
  promises (plat w) !! p = Some pending ∧
  (∃ m, recorders (plat w) !! r = Some m ∧ mr_onstop m = Some p ∧
        mr_stopQueued m = true ∧ mr_state m = inactive) ∧
  (∀ r' m', recorders (plat w) !! r' = Some m' → mr_onstop m' = Some p →
            r' = r).

(** [handles_fresh w]: the recorders and the promises their handlers hold
    were made before the next handle. *)
Definition handles_fresh (w : World) : Prop :=
  ∀ r m, recorders (plat w) !! r = Some m →
         (r < nextHandle (plat w))%positive ∧
         ∀ p, mr_onstop m = Some p → (p < nextHandle (plat w))%positive.

(** ** Invariants *)

(** Holds after every sequence of events. *)
Record reachable_inv (w : World) : Prop := mkReachableInv {
  inv_paused : isPaused (state w) = true → isRecording (state w) = true;
  inv_level : (0 <= audioLevel (state w) <= 1)%Q;
  inv_bins : ∀ a, analyserRef (refs w) = Some a →
                  analysers (plat w) !! a = Some 256;
  inv_no_recorder : mediaRecorderRef (refs w) = None →
                    recorders (plat w) = ∅;
  inv_recorder : ∀ r, mediaRecorderRef (refs w) = Some r →
                      is_Some (recorders (plat w) !! r)
}.

(** Holds as long as no start is issued while a session is active. *)
Record single_session (w : World) : Prop := mkSingleSession {
  ss_frames : frames (plat w) = ∅;
  ss_interval : ∀ i, i ∈ intervals (plat w) → intervalRef (refs w) = Some i;
  ss_recorder : ∀ r m, recorders (plat w) !! r = Some m →
                       mr_state m ≠ inactive →
                       mediaRecorderRef (refs w) = Some r;
  ss_context : ∀ c, contexts (plat w) !! c = Some true →
                    audioContextRef (refs w) = Some c;
  ss_ticking : isRecording (state w) = true →
               ∃ i, intervalRef (refs w) = Some i ∧ i ∈ intervals (plat w);
  ss_idle_intervals : isRecording (state w) = false → intervals (plat w) = ∅;
  ss_idle_recorders : isRecording (state w) = false →
                      ∀ r m, recorders (plat w) !! r = Some m →
                             mr_state m = inactive;
  ss_idle_contexts : isRecording (state w) = false →
                     ∀ c, contexts (plat w) !! c ≠ Some true;
  ss_idle_level : isRecording (state w) = false →
                  (audioLevel (state w) == 0)%Q;
  ss_paused : isPaused (state w) = true → isRecording (state w) = true;
  ss_requests : ∀ c, c ∈ requests (plat w) →
                     requests (plat w) = [c] ∧ c_isRecording c = false ∧
                     isRecording (state w) = false
}.

(** ** The level sample *)

Lemma fold_left_byte_sum (l : list byte) (a : N) :
  fold_left (λ a x, a + Byte.to_N x)%N l a = (a + byte_sum l)%N.
Proof.
  revert a. induction l as [|b l IH]; intros a; cbn [fold_left].
  - cbn. lia.
  - rewrite IH. unfold byte_sum. cbn [foldr]. lia.
Qed.

Lemma reduce_add_sum (l : list byte) (w : World) :
  l ≠ [] → reduce_add l w = (Ret (byte_sum l), w).
Proof.
  destruct l as [|b l]; [done|]. intros _. unfold reduce_add, mret, M_ret.
  by rewrite fold_left_byte_sum.
Qed.

Lemma getByteFrequencyData_length (n : nat) (d : list byte) :
  length (getByteFrequencyData n d) = n.
Proof.
  unfold getByteFrequencyData.
  rewrite length_take, length_app, length_replicate. lia.
Qed.

Lemma getByteFrequencyData_nonempty (n : nat) (d : list byte) :
  n ≠ 0 → getByteFrequencyData n d ≠ [].
Proof.
  intros Hn E. apply (f_equal length) in E.
  rewrite getByteFrequencyData_length in E. done.
Qed.

Lemma byte_sum_bound (l : list byte) :
  (byte_sum l ≤ 255 * N.of_nat (length l))%N.
Proof.
  induction l as [|b l IH]; cbn [byte_sum foldr length]; [lia|].
  fold (byte_sum l). pose proof (Byte.to_N_bounded b). lia.
Qed.

Lemma normalizedLevel_range (sum : N) (len : nat) :
  (0 <= normalizedLevel sum len <= 1)%Q.
Proof.
  unfold normalizedLevel. split; [|apply Q.le_min_r].
  apply Q.min_glb; [|discriminate].
  unfold Qdiv. apply Qmult_le_0_compat; [|discriminate].
  apply Qmult_le_0_compat.
  - change 0%Q with (inject_Z 0). rewrite <- Zle_Qle. lia.
  - apply Qinv_le_0_compat. change 0%Q with (inject_Z 0).
    rewrite <- Zle_Qle. lia.
Qed.

(** With the 128 bins of [fftSize = 256] the sample is the dyadic
    [sum / 2^14] capped at 1, and [sum] stays below [2^15]
    ([byte_sum_bound]): every intermediate of the JavaScript computation is a
    double without rounding, which is why rationals model it. *)
Lemma normalizedLevel_dyadic (sum : N) :
  (normalizedLevel sum 128 == Qmin (Z.of_N sum # 16384) 1)%Q.
Proof.
  unfold normalizedLevel.
  assert (E : (inject_Z (Z.of_N sum) / inject_Z (Z.of_nat 128) / 128
               == Z.of_N sum # 16384)%Q).
  { change (Z.of_nat 128) with 128%Z.
    unfold Qeq, Qdiv, Qmult, Qinv, inject_Z. cbn. lia. }
  by rewrite E.
Qed.

(** ** The operations in closed form *)

Ltac unfold_m :=
  unfold startRecording, stopRecording, pauseRecording, resumeRecording,
    updateAudioLevel, onstop, ondataavailable, tick, try_catch,
    startRecording_call, getUserMedia, await, awaited, newAudioContext,
    createAnalyser, newMediaRecorder, recorder_start,
    recorder_stop, recorder_pause, recorder_resume, setInterval,
    clearInterval, requestAnimationFrame, cancelAnimationFrame, closeContext,
    newPromise, resolve, reject, set_fftSize, log, fresh, setRef, setState,
    modify, get, update_recorder, throw, when_some, mbind, M_bind, mret,
    M_ret.

Ltac msimpl :=
  cbn -[getByteFrequencyData normalizedLevel reduce_add byte_sum Nat.div].

Lemma world_eq (w w' : World) :
  state w = state w' → refs w = refs w' → plat w = plat w' → w = w'.
Proof. destruct w, w'; cbn; congruence. Qed.

Lemma refs_eq (r r' : Refs) :
  mediaRecorderRef r = mediaRecorderRef r' →
  audioContextRef r = audioContextRef r' →
  analyserRef r = analyserRef r' →
  animationFrameRef r = animationFrameRef r' →
  intervalRef r = intervalRef r' →
  audioChunksRef r = audioChunksRef r' → r = r'.
Proof. destruct r, r'; cbn; congruence. Qed.

Lemma plat_eq (p p' : Platform) :
  streams p = streams p' → contexts p = contexts p' →
  analysers p = analysers p' → recorders p = recorders p' →
  intervals p = intervals p' → frames p = frames p' →
  promises p = promises p' → requests p = requests p' →
  spectrum p = spectrum p' → nextHandle p = nextHandle p' →
  calls p = calls p' → stopThrows p = stopThrows p' →
  timers p = timers p' → clock p = clock p' → p = p'.
Proof. destruct p, p'; cbn; intros; by subst. Qed.

Lemma world_ext_eq (w w' : World) :
  state w = state w' →
  mediaRecorderRef (refs w) = mediaRecorderRef (refs w') →
  audioContextRef (refs w) = audioContextRef (refs w') →
  analyserRef (refs w) = analyserRef (refs w') →
  animationFrameRef (refs w) = animationFrameRef (refs w') →
  intervalRef (refs w) = intervalRef (refs w') →
  audioChunksRef (refs w) = audioChunksRef (refs w') →
  streams (plat w) = streams (plat w') →
  contexts (plat w) = contexts (plat w') →
  analysers (plat w) = analysers (plat w') →
  recorders (plat w) = recorders (plat w') →
  intervals (plat w) = intervals (plat w') →
  frames (plat w) = frames (plat w') →
  promises (plat w) = promises (plat w') →
  requests (plat w) = requests (plat w') →
  spectrum (plat w) = spectrum (plat w') →
  nextHandle (plat w) = nextHandle (plat w') →
  calls (plat w) = calls (plat w') →
  stopThrows (plat w) = stopThrows (plat w') →
  timers (plat w) = timers (plat w') →
  clock (plat w) = clock (plat w') → w = w'.
Proof.
  intros. apply world_eq; [done| by apply refs_eq | by apply plat_eq].
Qed.

(** Equality of two results, field by field. *)
Ltac world_ext :=
  f_equal; apply world_ext_eq; msimpl; rewrite <- ?app_assoc;
  try reflexivity.

Lemma bind_run {A B : Type} (m : M A) (k : A → M B) (w : World) :
  (m ≫= k) w =
  match m w with
  | (Ret a, w') => k a w'
  | (Throw e, w') => (Throw e, w')
  end.
Proof. reflexivity. Qed.

Lemma updateAudioLevel_eq (c : Closure) (w : World) :
  updateAudioLevel c w =
  match analyserRef (refs w) with
  | None => (Ret tt, w)
  | Some a =>
      match frequencyBinCount a w with
      | 0 => (Throw TypeError, w)
      | S n => (Ret tt, sampled c (S n) w)
      end
  end.
Proof.
  unfold updateAudioLevel. rewrite bind_run. unfold get. cbv iota.
  destruct (analyserRef (refs w)) as [a|]; [|reflexivity].
  cbv zeta. rewrite bind_run.
  destruct (frequencyBinCount a w) as [|n] eqn:En; [reflexivity|].
  rewrite reduce_add_sum by (by apply getByteFrequencyData_nonempty).
  cbv iota. rewrite getByteFrequencyData_length.
  unfold sampled, loops.
  destruct (c_isRecording c && negb (c_isPaused c)); reflexivity.
Qed.

(** Lines 43-54 with the rest of the [try] block as [K]. *)
Lemma start_acquire (K : positive → M unit) (w : World) :
  (stream ← awaited Granted;
   ctx ← newAudioContext;
   setRef (set_audioContextRef (Some ctx));;
   log (CreateMediaStreamSource ctx stream);;
   a ← createAnalyser ctx;
   setRef (set_analyserRef (Some a));;
   set_fftSize a 256;;
   log (Connect a);;
   r ← newMediaRecorder stream;
   setRef (set_mediaRecorderRef (Some r));;
   setRef (set_audioChunksRef []);;
   K r) w
  = K (Pos.succ (Pos.succ (Pos.succ (nextHandle (plat w))))) (acquired w).
Proof.
  unfold_m. msimpl. f_equal.
  apply world_ext_eq; msimpl;
    rewrite <- ?app_assoc, ?insert_insert_eq; reflexivity.
Qed.

Lemma recorder_start_run (r : positive) (m : MediaRecorder) (w : World) :
  recorders (plat w) !! r = Some m → mr_state m = inactive →
  recorder_start r w =
  (Ret tt,
   with_plat (λ p,
     set_recorders (alter (set_mr_state recording false) r (recorders p))
       (set_calls (calls p ++ [RecorderStart r]) p)) w).
Proof.
  intros Hm Hs. unfold_m. unfold recorder_state. msimpl. rewrite Hm, Hs.
  f_equal.
Qed.

Lemma startRecording_granted (c : Closure) (w : World) :
  startRecording c Granted w = (Ret tt, started c w).
Proof.
  unfold startRecording, try_catch. rewrite start_acquire.
  rewrite bind_run.
  erewrite recorder_start_run;
    [| unfold acquired; cbn [plat recorders]; apply lookup_insert_eq
     | reflexivity].
  cbv iota.
  unfold setState, setInterval, setRef, log, fresh, modify, mbind, M_bind,
    mret, M_ret.
  rewrite updateAudioLevel_eq.
  cbn [refs with_refs with_plat with_state analyserRef set_intervalRef
       acquired].
  unfold frequencyBinCount.
  cbn [plat with_refs with_plat with_state acquired analysers set_recorders
       set_calls set_intervals set_nextHandle set_timers].
  rewrite lookup_insert_eq. change (default 0 (Some 256) / 2) with 128.
  f_equal. unfold sampled, started.
  destruct (loops c); apply world_ext_eq; msimpl;
    rewrite <- ?app_assoc, ?alter_insert_eq; reflexivity.
Qed.

Lemma startRecording_denied (c : Closure) (w : World) :
  startRecording c Denied w =
  (Ret tt, with_plat (λ p, set_calls (calls p ++ [ConsoleError]) p) w).
Proof. unfold_m. msimpl. world_ext. Qed.

Lemma stopRecording_eq (w : World) :
  stopRecording w = (Ret (nextHandle (plat w)), stopped w).
Proof.
  unfold_m. unfold stopped. msimpl.
  destruct (mediaRecorderRef (refs w)) as [r|]; msimpl.
  - unfold recorder_state; msimpl. rewrite lookup_alter_eq.
    destruct (recorders (plat w) !! r) as [m|] eqn:Er; msimpl;
      [destruct (mr_state m) eqn:Es; msimpl|];
      try (destruct (stopThrows (plat w)) eqn:Et; msimpl).
    all: unfold cleaned, stop_thrown.
    all: try (destruct (intervalRef (refs w)), (animationFrameRef (refs w)),
                (audioContextRef (refs w)); msimpl).
    all: world_ext; by rewrite ?alter_insert_eq, ?difference_empty_L.
  - world_ext. by rewrite alter_insert_eq.
Qed.

Lemma pauseRecording_eq (c : Closure) (w : World) :
  pauseRecording c w =
  match mediaRecorderRef (refs w) with
  | Some r =>
      if c_isRecording c then
        match recorder_state r w with
        | inactive =>
            (Throw InvalidStateError,
             with_plat (λ p, set_calls (calls p ++ [RecorderPause r]) p) w)
        | _ => (Ret tt, paused_world r w)
        end
      else (Ret tt, w)
  | None => (Ret tt, w)
  end.
Proof.
  unfold_m. msimpl.
  destruct (mediaRecorderRef (refs w)) as [r|]; [|done].
  destruct (c_isRecording c); [|done]. msimpl.
  unfold recorder_state, paused_world, recorder_state. msimpl.
  destruct (recorders (plat w) !! r) as [m|] eqn:Er; msimpl;
    [destruct (mr_state m) eqn:Es; msimpl|]; try done.
  all: destruct (animationFrameRef (refs w)); msimpl; world_ext.
  all: by rewrite ?Er, ?Es.
Qed.

Lemma resumeRecording_eq (c : Closure) (w : World) :
  resumeRecording c w =
  match mediaRecorderRef (refs w) with
  | Some r =>
      if c_isPaused c then
        match recorder_state r w with
        | inactive =>
            (Throw InvalidStateError,
             with_plat (λ p, set_calls (calls p ++ [RecorderResume r]) p) w)
        | _ => updateAudioLevel c (resumed_world r w)
        end
      else (Ret tt, w)
  | None => (Ret tt, w)
  end.
Proof.
  unfold resumeRecording, recorder_resume, log, setState, modify, get,
    update_recorder, throw, mbind, M_bind, mret, M_ret. msimpl.
  destruct (mediaRecorderRef (refs w)) as [r|]; [|done].
  destruct (c_isPaused c); [|done]. msimpl.
  unfold recorder_state, resumed_world, recorder_state. msimpl.
  destruct (recorders (plat w) !! r) as [m|] eqn:Er; msimpl;
    [destruct (mr_state m) eqn:Es; msimpl|]; done.
Qed.

(** ** One task at a time *)

Lemma step_start (w : World) :
  step EStart w =
  with_plat (λ p, set_requests (requests p ++ [render (state w)])
                    (set_calls (calls p ++ [GetUserMedia]) p)) w.
Proof. unfold step, exec. unfold_m. msimpl. apply world_ext_eq; by msimpl. Qed.

(** The world in which the rest of [startRecording] runs. *)
Lemma step_device (k : nat) (o : Outcome) (w : World) :
  step (EDevice k o) w =
  match requests (plat w) !! k with
  | Some c =>
      let w' := with_plat (λ p, set_requests (delete k (requests p)) p) w in
      match o with
      | Granted => started c w'
      | Denied => with_plat (λ p, set_calls (calls p ++ [ConsoleError]) p) w'
      end
  | None => w
  end.
Proof.
  unfold step, exec. destruct (requests (plat w) !! k) as [c|]; [|done].
  destruct o; by rewrite ?startRecording_granted, ?startRecording_denied.
Qed.

Lemma step_stop (w : World) : step EStop w = stopped w.
Proof. unfold step, exec. by rewrite stopRecording_eq. Qed.

Lemma run_app (es es' : list Event) (w : World) :
  run (es ++ es') w = run es' (run es w).
Proof. unfold run. apply fold_left_app. Qed.

Lemma run_snoc (es : list Event) (e : Event) (w : World) :
  run (es ++ [e]) w = step e (run es w).
Proof. by rewrite run_app. Qed.

Lemma ui_trace_snoc (es : list Event) (e : Event) (w : World) :
  ui_trace (es ++ [e]) w = ui_trace es w && ui_allows (run es w) e.
Proof.
  revert w. induction es as [|e' es IH]; intros w; cbn.
  - by rewrite andb_true_r.
  - rewrite IH. by rewrite andb_assoc.
Qed.

Lemma sampled_level_range (c : Closure) (n : nat) (w : World) :
  (0 <= audioLevel (state (sampled c n w)) <= 1)%Q.
Proof.
  unfold sampled. destruct (loops c); cbn -[getByteFrequencyData];
    apply normalizedLevel_range.
Qed.

Lemma initial_reachable_inv (throws : bool) :
  reachable_inv (initialWorld throws).
Proof. split; cbn; try done. Qed.

Lemma zero_level_range : (0 <= 0 <= 1)%Q.
Proof. split; discriminate. Qed.

Lemma sampled_reachable_inv (c : Closure) (n : nat) (w : World) :
  reachable_inv w → reachable_inv (sampled c n w).
Proof.
  intros [Hp Hl Hb Hn Hr]. unfold sampled.
  destruct (loops c); split; msimpl; try done; apply normalizedLevel_range.
Qed.

(** ** Invariants of every run *)

Ltac close_inv :=
  first
    [ assumption
    | split; msimpl;
      repeat match goal with
        | E : mediaRecorderRef _ = _ |- _ => rewrite E
        | E : isRecording _ = _ |- _ => rewrite E
        | E : isPaused _ = _ |- _ => rewrite E
        end;
      first [ done | apply zero_level_range | apply normalizedLevel_range ] ].

Lemma step_reachable_inv (e : Event) (w : World) :
  reachable_inv w → reachable_inv (step e w).
Proof.
  intros Hinv. pose proof Hinv as [Hp Hl Hb Hn Hr].
  destruct e as [ |k o| | | |i|f|r d|r|s|d].
  - rewrite step_start. close_inv.
  - rewrite step_device.
    destruct (requests (plat w) !! k) as [c|]; [|done].
    destruct o; [|close_inv]. split; msimpl; try done.
    + apply normalizedLevel_range.
    + intros a [= <-]. by rewrite lookup_insert_eq.
    + intros r [= <-]. by rewrite lookup_insert_eq.
  - rewrite step_stop. unfold stopped.
    destruct (mediaRecorderRef (refs w)) as [r|] eqn:Er; [|close_inv].
    destruct (recorder_state r w), (stopThrows (plat w));
      split; msimpl; rewrite ?Er; try done; try apply zero_level_range;
      intros r' [= <-]; rewrite !lookup_alter_is_Some; by apply Hr.
  - unfold step, exec. rewrite pauseRecording_eq.
    destruct (mediaRecorderRef (refs w)) as [r|] eqn:Er; [|close_inv].
    cbn [render c_isRecording].
    destruct (isRecording (state w)) eqn:Erec; [|close_inv].
    destruct (recorder_state r w) eqn:Es; split; msimpl;
      rewrite ?Er, ?Erec; try done; intros r' [= <-];
      rewrite ?Es, ?lookup_alter_is_Some; by apply Hr.
  - unfold step, exec. rewrite resumeRecording_eq.
    destruct (mediaRecorderRef (refs w)) as [r|] eqn:Er; [|close_inv].
    cbn [render c_isPaused].
    destruct (isPaused (state w)) eqn:Epa; [|close_inv].
    assert (Hres : reachable_inv (resumed_world r w)).
    { split; msimpl; rewrite ?Er; try done. intros r' [= <-].
      destruct (recorder_state r w);
        rewrite ?lookup_alter_is_Some; by apply Hr. }
    destruct (recorder_state r w) eqn:Es; [close_inv| |].
    all: rewrite updateAudioLevel_eq;
      destruct (analyserRef (refs (resumed_world r w))) as [a|]; [|done];
      destruct (frequencyBinCount a (resumed_world r w)); [done|];
      cbn [snd]; by apply sampled_reachable_inv.
  - unfold step. destruct (decide _); [|close_inv].
    unfold exec, tick, setState, modify. close_inv.
  - unfold step. destruct (frames (plat w) !! f) as [c|]; [|close_inv].
    unfold exec. rewrite updateAudioLevel_eq. msimpl.
    assert (Hdel : reachable_inv
      (with_plat (λ p, set_frames (delete f (frames p)) p) w)) by close_inv.
    destruct (analyserRef (refs w)) as [a|] eqn:Ea; [|done].
    match goal with |- context [frequencyBinCount ?a ?W] =>
      destruct (frequencyBinCount a W) end; [done|].
    cbn [snd]. by apply sampled_reachable_inv.
  - unfold step. destruct (recorders (plat w) !! r); [|close_inv].
    unfold exec, ondataavailable, setRef, modify. close_inv.
  - unfold step.
    destruct (recorders (plat w) !! r) as [m|] eqn:Em; [|close_inv].
    destruct (mr_stopQueued m); [|close_inv].
    unfold exec, update_recorder, modify, when_some.
    assert (Hmid : reachable_inv
      (with_plat (λ p, set_recorders
         (alter (set_mr_state inactive false) r (recorders p)) p) w)).
    { split; msimpl; try done.
      - intros E. apply Hn in E. rewrite E in Em.
        by rewrite lookup_empty in Em.
      - intros r' E. rewrite lookup_alter_is_Some. by apply Hr. }
    destruct (mr_onstop m) as [p|]; [|done].
    unfold onstop, resolve, modify, get, mbind, M_bind. cbn [snd].
    destruct Hmid. by split.
  - unfold step. split; msimpl; try done.
    + intros E. by rewrite (Hn E), fmap_empty.
    + intros r E. rewrite lookup_fmap, fmap_is_Some. by apply Hr.
  - unfold step. close_inv.
Qed.

Lemma run_reachable_inv (throws : bool) (es : list Event) :
  reachable_inv (run es (initialWorld throws)).
Proof.
  induction es as [|e es IH] using rev_ind.
  - apply initial_reachable_inv.
  - rewrite run_snoc. by apply step_reachable_inv.
Qed.

(** ** Invariants of runs that start one session at a time *)

Lemma initial_single_session (throws : bool) :
  single_session (initialWorld throws).
Proof.
  split; cbn; try done. intros c Hc. by apply elem_of_nil in Hc.
Qed.

Lemma lookup_alter_state
    (f : MediaRecorder → MediaRecorder) (r r' : positive)
    (recs : gmap positive MediaRecorder) (m : MediaRecorder) :
  (∀ x, mr_state (f x) = mr_state x) →
  alter f r recs !! r' = Some m →
  ∃ m', recs !! r' = Some m' ∧ mr_state m' = mr_state m.
Proof.
  intros Hf. rewrite lookup_alter. case_decide; [subst r'|]; [|by eauto].
  destruct (recs !! r) as [m'|]; [|done]. intros [= <-]. eauto.
Qed.

(** While a session records, no device request is pending. *)
Lemma recording_no_request (w : World) :
  single_session w → isRecording (state w) = true → requests (plat w) = [].
Proof.
  intros Hs Hrec. destruct (requests (plat w)) as [|c l] eqn:E; [done|].
  destruct (ss_requests w Hs c) as (_ & _ & Hf).
  - rewrite E. apply list_elem_of_here.
  - congruence.
Qed.

Lemma sampled_single_session (c : Closure) (n : nat) (w : World) :
  loops c = false → isRecording (state w) = true →
  single_session w → single_session (sampled c n w).
Proof.
  intros Hl Hrec Hs. pose proof (recording_no_request w Hs Hrec) as Hq.
  destruct Hs as [Hf Hi Hr Hc Ht Hii Hir Hic Hil Hp _].
  unfold sampled. rewrite Hl. split; msimpl; try done; try by rewrite Hrec.
  rewrite Hq. intros c' Hc'. by apply elem_of_nil in Hc'.
Qed.

Lemma step_single_session (e : Event) (w : World) :
  single_session w → ui_allows w e = true → single_session (step e w).
Proof.
  intros Hinv Hui.
  pose proof Hinv as [Hf Hi Hr Hc Ht Hii Hir Hic Hil Hp Hq].
  destruct e as [ |k o| | | |i|f|r d|r|s|d].
  - apply andb_true_iff in Hui as [Hui Hnone].
    apply negb_true_iff in Hui. rewrite step_start.
    assert (Hreq : requests (plat w) = []).
    { unfold no_request in Hnone. by destruct (requests (plat w)). }
    split; msimpl; try done. rewrite Hreq. cbn. intros c Hc'.
    apply list_elem_of_singleton in Hc' as ->. by rewrite Hui.
  - rewrite step_device.
    destruct (requests (plat w) !! k) as [c|] eqn:Ek; [|done].
    destruct (Hq c (list_elem_of_lookup_2 _ _ _ Ek)) as (Hreq & Hcl & Hidle).
    assert (Hdel : delete k (requests (plat w)) = []).
    { rewrite Hreq in Ek |- *. by destruct k. }
    assert (Hnil : ∀ c' : Closure, c' ∈ [] →
              [] = [c'] ∧ c_isRecording c' = false ∧ true = false).
    { intros c' Hc'. by apply elem_of_nil in Hc'. }
    destruct o.
    + assert (Hl : loops c = false) by (unfold loops; by rewrite Hcl).
      specialize (Hii Hidle). specialize (Hir Hidle). specialize (Hic Hidle).
      unfold started. rewrite Hl. split; msimpl; rewrite ?Hdel; try done.
      * intros i Hi'. rewrite Hii in Hi'.
        apply elem_of_union in Hi' as [Hi'|Hi']; [|done].
        apply elem_of_singleton in Hi'. by subst.
      * intros r m Hm Hs.
        apply lookup_insert_Some in Hm as [[<- _]|[_ Hm]]; [done|].
        by apply Hir in Hm.
      * intros x Hm.
        apply lookup_insert_Some in Hm as [[<- _]|[_ Hm]]; [done|].
        by apply Hic in Hm.
      * intros _. eexists. split; [done|].
        apply elem_of_union_l. by apply elem_of_singleton.
    + split; msimpl; rewrite ?Hdel; try done.
      intros c' Hc'. by apply elem_of_nil in Hc'.
  - rewrite step_stop. unfold stopped.
    destruct (mediaRecorderRef (refs w)) as [r|] eqn:Er;
      [|split; msimpl; rewrite ?Er; done].
    assert (Hrest : ∀ r' m', recorders (plat w) !! r' = Some m' →
                             r' ≠ r → mr_state m' = inactive).
    { intros r' m' Hm' Hne. destruct (mr_state m') eqn:Es; [done| |];
        (assert (Some r = Some r') as [= ->]; [|done]);
        (eapply Hr; [exact Hm'|by rewrite Es]). }
    assert (Hthrown : single_session (stop_thrown r (nextHandle (plat w)) w)).
    { split; msimpl; rewrite ?Er; try done.
      - intros r' m Hm Hs.
        apply lookup_alter_state in Hm as (m' & Hm' & E); [|done].
        rewrite <- E in Hs. by eapply Hr.
      - intros Hrec r' m Hm.
        apply lookup_alter_state in Hm as (m' & Hm' & E); [|done].
        rewrite <- E. by eapply Hir. }
    assert (Hcleaned : ∀ recs,
      (∀ r' m, recs !! r' = Some m → mr_state m = inactive) →
      single_session (cleaned r (nextHandle (plat w)) recs w)).
    { intros recs Hrecs. split; msimpl; rewrite ?Er; try done.
      - destruct (animationFrameRef (refs w)); cbn; rewrite Hf;
          [apply delete_empty|done].
      - intros i Hi'. apply elem_of_difference in Hi' as [Hi1 Hi2].
        apply Hi in Hi1. rewrite Hi1 in Hi2. cbn in Hi2.
        by apply not_elem_of_singleton in Hi2.
      - intros r' m Hm Hs. by apply Hrecs in Hm.
      - intros c. destruct (audioContextRef (refs w)) as [c'|] eqn:Ec; cbn.
        + rewrite lookup_alter. case_decide; [subst c'|].
          * by destruct (contexts (plat w) !! c).
          * intros Hm. apply Hc in Hm. congruence.
        + intros Hm. by apply Hc in Hm.
      - intros _. apply set_eq. intros i. split; [|by intros ?%not_elem_of_empty].
        intros Hi'. apply elem_of_difference in Hi' as [Hi1 Hi2].
        apply Hi in Hi1. rewrite Hi1 in Hi2. cbn in Hi2.
        by apply not_elem_of_singleton in Hi2.
      - intros _ c. destruct (audioContextRef (refs w)) as [c'|] eqn:Ec; cbn.
        + rewrite lookup_alter. case_decide; [subst c'|].
          * by destruct (contexts (plat w) !! c).
          * intros Hm. apply Hc in Hm. congruence.
        + intros Hm. by apply Hc in Hm.
      - intros c Hc'. by destruct (Hq c Hc') as (-> & -> & _). }
    unfold recorder_state.
    destruct (recorders (plat w) !! r) as [m|] eqn:Em.
    + destruct (mr_state m) eqn:Es.
      * destruct (stopThrows (plat w)); [done|]. apply Hcleaned.
        intros r' m' Hm'.
        apply lookup_alter_state in Hm' as (m'' & Hm'' & E); [|done].
        rewrite <- E. destruct (decide (r' = r)) as [->|Hne]; [congruence|].
        by eapply Hrest.
      * apply Hcleaned. intros r' m' Hm'.
        destruct (decide (r' = r)) as [->|Hne].
        -- rewrite lookup_alter_eq, lookup_alter_eq, Em in Hm'.
           by injection Hm' as <-.
        -- rewrite lookup_alter_ne in Hm' by done.
           apply lookup_alter_state in Hm' as (m'' & Hm'' & E); [|done].
           rewrite <- E. by eapply Hrest.
      * apply Hcleaned. intros r' m' Hm'.
        destruct (decide (r' = r)) as [->|Hne].
        -- rewrite lookup_alter_eq, lookup_alter_eq, Em in Hm'.
           by injection Hm' as <-.
        -- rewrite lookup_alter_ne in Hm' by done.
           apply lookup_alter_state in Hm' as (m'' & Hm'' & E); [|done].
           rewrite <- E. by eapply Hrest.
    + destruct (stopThrows (plat w)); [done|]. apply Hcleaned.
      intros r' m' Hm'.
      apply lookup_alter_state in Hm' as (m'' & Hm'' & E); [|done].
      rewrite <- E. destruct (decide (r' = r)) as [->|Hne]; [congruence|].
      by eapply Hrest.
  - unfold step, exec. rewrite pauseRecording_eq.
    destruct (mediaRecorderRef (refs w)) as [r|] eqn:Er; [|done].
    cbn [render c_isRecording].
    destruct (isRecording (state w)) eqn:Erec; [|done].
    assert (Hnone : ∀ c : Closure, c ∈ requests (plat w) →
              requests (plat w) = [c] ∧ c_isRecording c = false ∧
              true = false).
    { intros c Hc'. by destruct (Hq c Hc') as (_ & _ & ?). }
    destruct (recorder_state r w) eqn:Es; cbn [snd].
    + split; msimpl; rewrite ?Er, ?Erec; done.
    + split; msimpl; rewrite ?Er, ?Erec, ?Es; try done.
      * destruct (animationFrameRef (refs w)); cbn; rewrite Hf;
          [apply delete_empty|done].
      * intros r' m Hm Hs.
        apply lookup_alter_Some in Hm as [(-> & _)|[Hne Hm]]; [done|].
        by eapply Hr.
    + split; msimpl; rewrite ?Er, ?Erec, ?Es; try done.
      destruct (animationFrameRef (refs w)); cbn; rewrite Hf;
        [apply delete_empty|done].
  - unfold step, exec. rewrite resumeRecording_eq.
    destruct (mediaRecorderRef (refs w)) as [r|] eqn:Er; [|done].
    cbn [render c_isPaused].
    destruct (isPaused (state w)) eqn:Epa; [|done].
    assert (Hrec : isRecording (state w) = true) by by apply Hp.
    assert (Hl : loops (render (state w)) = false).
    { unfold loops, render. cbn. rewrite Epa. apply andb_false_r. }
    assert (Hres : single_session (resumed_world r w)).
    { split; msimpl; rewrite ?Er; try done; try (intros; congruence);
        try (intros c Hc'; destruct (Hq c Hc') as (_ & _ & ?); congruence).
      intros r' m Hm Hs. destruct (recorder_state r w); [by eapply Hr| |].
      - by eapply Hr.
      - apply lookup_alter_Some in Hm as [(-> & _)|[Hne Hm]]; [done|].
        by eapply Hr. }
    destruct (recorder_state r w) eqn:Es; cbn [snd].
    + split; msimpl; rewrite ?Er; done.
    + rewrite updateAudioLevel_eq.
      destruct (analyserRef (refs (resumed_world r w))) as [a|]; [|done].
      destruct (frequencyBinCount a (resumed_world r w)); [done|].
      cbn [snd]. by apply sampled_single_session.
    + rewrite updateAudioLevel_eq.
      destruct (analyserRef (refs (resumed_world r w))) as [a|]; [|done].
      destruct (frequencyBinCount a (resumed_world r w)); [done|].
      cbn [snd]. by apply sampled_single_session.
  - unfold step. destruct (decide _); [|done].
    unfold exec, tick, setState, modify. split; msimpl; done.
  - unfold step. by rewrite Hf, lookup_empty.
  - unfold step. destruct (recorders (plat w) !! r); [|done].
    unfold exec, ondataavailable, setRef, modify. split; msimpl; done.
  - unfold step.
    destruct (recorders (plat w) !! r) as [m|] eqn:Em; [|done].
    destruct (mr_stopQueued m); [|done].
    unfold exec, update_recorder, modify, when_some.
    assert (Hmid : single_session
      (with_plat (λ p, set_recorders
         (alter (set_mr_state inactive false) r (recorders p)) p) w)).
    { split; msimpl; try done.
      - intros r' m' Hm' Hs.
        apply lookup_alter_Some in Hm' as [(-> & m'' & _ & ->)|[Hne Hm']];
          [done|]. by eapply Hr.
      - intros Hrec r' m' Hm'.
        apply lookup_alter_Some in Hm' as [(-> & m'' & _ & ->)|[Hne Hm']];
          [done|]. by eapply Hir. }
    destruct (mr_onstop m) as [p|]; [|done].
    unfold onstop, resolve, modify, get, mbind, M_bind. cbn [snd].
    destruct Hmid. by split.
  - unfold step.
    assert (Hend : ∀ r m,
      (end_of_stream s <$> recorders (plat w)) !! r = Some m →
      ∃ m0, recorders (plat w) !! r = Some m0 ∧
            (mr_state m ≠ inactive → mr_state m0 ≠ inactive) ∧
            (mr_state m0 = inactive → mr_state m = inactive)).
    { intros r m. rewrite lookup_fmap.
      destruct (recorders (plat w) !! r) as [m0|]; [|done].
      intros [= <-]. exists m0. split; [done|]. unfold end_of_stream.
      destruct (mr_state m0) eqn:E; [by rewrite ?E| |];
        case_decide; cbn; by rewrite ?E. }
    split; msimpl; try done.
    + intros r m Hm Hs. apply Hend in Hm as (m0 & Hm0 & H1 & _).
      eapply Hr; eauto.
    + intros Hrec r m Hm. apply Hend in Hm as (m0 & Hm0 & _ & H2).
      apply H2. by eapply Hir.
  - unfold step. split; msimpl; done.
Qed.

Lemma run_single_session (throws : bool) (es : list Event) :
  ui_trace es (initialWorld throws) = true →
  single_session (run es (initialWorld throws)).
Proof.
  induction es as [|e es IH] using rev_ind; intros Hui.
  - apply initial_single_session.
  - rewrite ui_trace_snoc in Hui. apply andb_true_iff in Hui as [H1 H2].
    rewrite run_snoc. by apply step_single_session; [apply IH|].
Qed.

(** ** What an event does to the status *)

Lemma sampled_fields (c : Closure) (n : nat) (w : World) :
  isRecording (state (sampled c n w)) = isRecording (state w) ∧
  isPaused (state (sampled c n w)) = isPaused (state w) ∧
  recordingTime (state (sampled c n w)) = recordingTime (state w).
Proof. unfold sampled. by destruct (loops c). Qed.

Lemma updateAudioLevel_fields (c : Closure) (w : World) :
  isRecording (state (snd (updateAudioLevel c w))) = isRecording (state w) ∧
  isPaused (state (snd (updateAudioLevel c w))) = isPaused (state w) ∧
  recordingTime (state (snd (updateAudioLevel c w))) = recordingTime (state w).
Proof.
  rewrite updateAudioLevel_eq.
  destruct (analyserRef (refs w)) as [a|]; [|done].
  destruct (frequencyBinCount a w); [done|]. apply sampled_fields.
Qed.

(** Only a granted device request and a live tick touch [recordingTime]. *)
Lemma step_recordingTime (e : Event) (w : World) :
  recordingTime (state (step e w)) =
  match e with
  | EDevice k Granted =>
      match requests (plat w) !! k with
      | Some _ => 0
      | None => recordingTime (state w)
      end
  | ETick i =>
      if decide (i ∈ intervals (plat w)) then S (recordingTime (state w))
      else recordingTime (state w)
  | _ => recordingTime (state w)
  end.
Proof.
  destruct e as [ |k o| | | |i|f|r d|r|s|d].
  - by rewrite step_start.
  - rewrite step_device.
    destruct (requests (plat w) !! k) as [c|]; by destruct o.
  - rewrite step_stop. unfold stopped.
    destruct (mediaRecorderRef (refs w)) as [r|]; [|done].
    by destruct (recorder_state r w), (stopThrows (plat w)).
  - unfold step, exec. rewrite pauseRecording_eq.
    destruct (mediaRecorderRef (refs w)) as [r|]; [|done].
    destruct (c_isRecording _); [|done]. by destruct (recorder_state r w).
  - unfold step, exec. rewrite resumeRecording_eq.
    destruct (mediaRecorderRef (refs w)) as [r|]; [|done].
    destruct (c_isPaused _); [|done].
    destruct (recorder_state r w) eqn:Es; [done| |];
      by destruct (updateAudioLevel_fields (render (state w))
                     (resumed_world r w)) as (_ & _ & ->).
  - unfold step. destruct (decide _); [|done]. cbn. lia.
  - unfold step, exec. destruct (frames (plat w) !! f) as [c|]; [|done].
    by destruct (updateAudioLevel_fields c
      (with_plat (λ p, set_frames (delete f (frames p)) p) w)) as (_ & _ & ->).
  - unfold step. by destruct (recorders (plat w) !! r).
  - unfold step. destruct (recorders (plat w) !! r) as [m|]; [|done].
    destruct (mr_stopQueued m); [|done]. by destruct (mr_onstop m).
  - done.
  - done.
Qed.

(** [isPaused] implies [isRecording] across one event, from any world. *)
Lemma step_paused_recording (e : Event) (w : World) :
  (isPaused (state w) = true → isRecording (state w) = true) →
  isPaused (state (step e w)) = true → isRecording (state (step e w)) = true.
Proof.
  intros Hp. destruct e as [ |k o| | | |i|f|r d|r|s|d].
  - by rewrite step_start.
  - rewrite step_device.
    destruct (requests (plat w) !! k) as [c|]; by destruct o.
  - rewrite step_stop. unfold stopped.
    destruct (mediaRecorderRef (refs w)) as [r|]; [|done].
    by destruct (recorder_state r w), (stopThrows (plat w)).
  - unfold step, exec. rewrite pauseRecording_eq.
    destruct (mediaRecorderRef (refs w)) as [r|]; [|done].
    cbn [render c_isRecording].
    destruct (isRecording (state w)) eqn:Erec; [|cbn [snd]; by rewrite Erec].
    destruct (recorder_state r w); cbn; by rewrite ?Erec.
  - unfold step, exec. rewrite resumeRecording_eq.
    destruct (mediaRecorderRef (refs w)) as [r|]; [|done].
    destruct (c_isPaused _); [|done].
    destruct (recorder_state r w) eqn:Es; [done| |];
      destruct (updateAudioLevel_fields (render (state w))
                  (resumed_world r w)) as (_ & E & _);
      by rewrite E.
  - unfold step. by destruct (decide _).
  - unfold step, exec. destruct (frames (plat w) !! f) as [c|]; [|done].
    destruct (updateAudioLevel_fields c
      (with_plat (λ p, set_frames (delete f (frames p)) p) w)) as (-> & -> & _).
    done.
  - unfold step. by destruct (recorders (plat w) !! r).
  - unfold step. destruct (recorders (plat w) !! r) as [m|]; [|done].
    destruct (mr_stopQueued m); [|done]. by destruct (mr_onstop m).
  - done.
  - done.
Qed.

(** ** Counting platform calls *)

Lemma Call_eqb_refl (c : Call) : Call_eqb c c = true.
Proof. destruct c; cbn; by rewrite ?Pos.eqb_refl. Qed.

Lemma count_call_app (c : Call) (l l' : list Call) :
  count_call c (l ++ l') = count_call c l + count_call c l'.
Proof.
  unfold count_call. induction l as [|x l IH]; [done|].
  cbn [app foldr]. rewrite IH. by destruct (Call_eqb c x).
Qed.

Lemma count_call_opt (c : Call) (mk : positive → Call) (o : option positive) :
  (∀ x, Call_eqb c (mk x) = false) → count_call c (opt_call mk o) = 0.
Proof.
  intros H. destruct o as [x|]; [|done]. cbn. by rewrite H.
Qed.

Lemma cleaned_recorder_state
    (r p : positive) (recs : gmap positive MediaRecorder) (w : World) :
  recorder_state r
    (cleaned r p (alter (set_mr_state inactive true) r recs) w) = inactive.
Proof.
  unfold recorder_state. cbn. rewrite lookup_alter_eq.
  by destruct (recs !! r).
Qed.

(** ** Promises *)

Lemma sampled_plat (c : Closure) (n : nat) (w : World) :
  promises (plat (sampled c n w)) = promises (plat w) ∧
  (nextHandle (plat w) ≤ nextHandle (plat (sampled c n w)))%positive.
Proof. unfold sampled. destruct (loops c); cbn; split; try done; lia. Qed.

Lemma updateAudioLevel_plat (c : Closure) (w : World) :
  promises (plat (snd (updateAudioLevel c w))) = promises (plat w) ∧
  (nextHandle (plat w) ≤ nextHandle (plat (snd (updateAudioLevel c w))))%positive.
Proof.
  rewrite updateAudioLevel_eq.
  destruct (analyserRef (refs w)) as [a|]; [|done].
  destruct (frequencyBinCount a w); [done|]. apply sampled_plat.
Qed.

(** A settled promise stays as it is. *)
Lemma step_promise_settled (p : positive) (st : PromiseState) (e : Event) (w : World) :
  (p < nextHandle (plat w))%positive → st ≠ pending →
  promises (plat w) !! p = Some st →
  (p < nextHandle (plat (step e w)))%positive ∧
  promises (plat (step e w)) !! p = Some st.
Proof.
  intros Hlt Hst Hp. destruct e as [ |k o| | | |i|f|r d|r|s|d].
  - by rewrite step_start.
  - rewrite step_device.
    destruct (requests (plat w) !! k) as [c|]; [|done].
    destruct o; [|done]. unfold started. cbn.
    split; [destruct (loops _); lia|done].
  - rewrite step_stop. unfold stopped.
    assert (Hne : nextHandle (plat w) ≠ p) by lia.
    destruct (mediaRecorderRef (refs w)) as [r|];
      [destruct (recorder_state r w), (stopThrows (plat w))|];
      cbn; (split; [lia|by rewrite lookup_insert_ne]).
  - unfold step, exec. rewrite pauseRecording_eq.
    destruct (mediaRecorderRef (refs w)) as [r|]; [|done].
    destruct (c_isRecording _); [|done]. by destruct (recorder_state r w).
  - unfold step, exec. rewrite resumeRecording_eq.
    destruct (mediaRecorderRef (refs w)) as [r|]; [|done].
    destruct (c_isPaused _); [|done].
    destruct (recorder_state r w) eqn:Es; [done| |];
      destruct (updateAudioLevel_plat (render (state w))
                  (resumed_world r w)) as [-> Hle];
      (split; [cbn in Hle; lia|done]).
  - unfold step. by destruct (decide _).
  - unfold step, exec. destruct (frames (plat w) !! f) as [c|]; [|done].
    destruct (updateAudioLevel_plat c
      (with_plat (λ p, set_frames (delete f (frames p)) p) w)) as [-> Hle].
    split; [cbn in Hle; lia|done].
  - unfold step. by destruct (recorders (plat w) !! r).
  - unfold step. destruct (recorders (plat w) !! r) as [m|]; [|done].
    destruct (mr_stopQueued m); [|done].
    destruct (mr_onstop m) as [q|]; [|done].
    unfold exec, when_some, onstop, resolve, update_recorder, modify, get,
      mbind, M_bind. cbn. split; [done|].
    rewrite lookup_alter. destruct (decide (q = p)) as [->|]; [|done].
    rewrite Hp. by destruct st.
  - done.
  - done.
Qed.

Lemma run_promise_settled
    (p : positive) (st : PromiseState) (es : list Event) (w : World) :
  (p < nextHandle (plat w))%positive → st ≠ pending →
  promises (plat w) !! p = Some st →
  promises (plat (run es w)) !! p = Some st.
Proof.
  revert w. induction es as [|e es IH]; intros w Hlt Hst Hp; [done|].
  destruct (step_promise_settled p st e w Hlt Hst Hp) as [Hlt' Hp'].
  by apply (IH (step e w)).
Qed.

Lemma sampled_recorders (c : Closure) (n : nat) (w : World) :
  recorders (plat (sampled c n w)) = recorders (plat w).
Proof. unfold sampled. by destruct (loops c). Qed.

Lemma updateAudioLevel_recorders (c : Closure) (w : World) :
  recorders (plat (snd (updateAudioLevel c w))) = recorders (plat w).
Proof.
  rewrite updateAudioLevel_eq.
  destruct (analyserRef (refs w)) as [a|]; [|done].
  destruct (frequencyBinCount a w); [done|]. apply sampled_recorders.
Qed.

(** An orphaned promise stays orphaned: [stopRecording] hands the [onstop]
    slot of the recorder in [mediaRecorderRef] to its new promise, and only
    a queued stop event resolves anything. *)
Ltac same_orphaned := unfold orphaned; msimpl; done.

Lemma step_orphaned (p : positive) (e : Event) (w : World) :
  orphaned p w → orphaned p (step e w).
Proof.
  intros (Hlt & Hp & Ho). destruct e as [ |k o| | | |i|f|r d|r|s|d].
  - rewrite step_start. same_orphaned.
  - rewrite step_device.
    destruct (requests (plat w) !! k) as [c|]; [|same_orphaned].
    destruct o; [|same_orphaned]. unfold started, orphaned. cbn.
    split; [destruct (loops _); lia|]. split; [done|].
    intros r m Hm Hon.
    apply lookup_insert_Some in Hm as [[_ <-]|[_ Hm]]; [done|].
    by eapply Ho.
  - rewrite step_stop. unfold stopped.
    assert (Hne : nextHandle (plat w) ≠ p) by lia.
    assert (Hrec : ∀ f r r' m,
      (∀ x, mr_onstop (f x) = Some (nextHandle (plat w))) →
      alter f r (recorders (plat w)) !! r' = Some m → mr_onstop m = Some p →
      recorders (plat w) !! r' = Some m).
    { intros f0 r r' m Hf Hm Hon.
      apply lookup_alter_Some in Hm as [(-> & m0 & _ & ->)|[_ Hm]]; [|done].
      rewrite Hf in Hon. congruence. }
    destruct (mediaRecorderRef (refs w)) as [r|].
    + destruct (recorder_state r w), (stopThrows (plat w)); unfold orphaned;
        cbn; (split; [lia|]); (split; [by rewrite lookup_insert_ne|]);
        intros r' m Hm Hon; eapply Ho; try exact Hon;
        try (by eapply (Hrec (set_mr_onstop _)));
        rewrite alter_alter_eq in Hm;
        by eapply (Hrec (set_mr_state inactive true ∘ set_mr_onstop _)).
    + unfold orphaned. cbn. split; [lia|].
      split; [by rewrite lookup_insert_ne|done].
  - unfold step, exec. rewrite pauseRecording_eq.
    destruct (mediaRecorderRef (refs w)) as [r|]; [|same_orphaned].
    destruct (c_isRecording _); [|same_orphaned].
    unfold recorder_state.
    destruct (recorders (plat w) !! r) as [m0|] eqn:Em;
      [destruct (mr_state m0) eqn:Es|]; unfold orphaned, paused_world,
      recorder_state; cbn; rewrite ?Em, ?Es; try same_orphaned.
    split; [done|]. split; [done|]. intros r' m Hm Hon.
    apply lookup_alter_Some in Hm as [(<- & m1 & Hm1 & ->)|[_ Hm]];
      [|by eapply Ho].
    rewrite Em in Hm1. injection Hm1 as <-.
    destruct (Ho r m0 Em Hon) as [_ Hin]. congruence.
  - unfold step, exec. rewrite resumeRecording_eq.
    destruct (mediaRecorderRef (refs w)) as [r|]; [|same_orphaned].
    destruct (c_isPaused _); [|same_orphaned].
    assert (Hres : orphaned p (resumed_world r w)).
    { unfold recorder_state, orphaned, resumed_world, recorder_state. cbn.
      split; [done|]. split; [done|].
      destruct (recorders (plat w) !! r) as [m0|] eqn:Em;
        [destruct (mr_state m0) eqn:Es|]; try done.
      intros r' m Hm Hon.
      apply lookup_alter_Some in Hm as [(<- & m1 & Hm1 & ->)|[_ Hm]];
        [|by eapply Ho].
      rewrite Em in Hm1. injection Hm1 as <-.
      destruct (Ho r m0 Em Hon) as [_ Hin]. congruence. }
    destruct (recorder_state r w) eqn:Es; [same_orphaned| |];
      destruct Hres as (Hlt' & Hp' & Ho');
      destruct (updateAudioLevel_plat (render (state w))
                  (resumed_world r w)) as [Epr Hle];
      (split; [lia|]); (split; [by rewrite Epr|]);
      by rewrite updateAudioLevel_recorders.
  - unfold step. destruct (decide _); same_orphaned.
  - unfold step, exec.
    destruct (frames (plat w) !! f) as [c|]; [|same_orphaned].
    destruct (updateAudioLevel_plat c
      (with_plat (λ p, set_frames (delete f (frames p)) p) w)) as [Epr Hle].
    split; [cbn in Hle; lia|]. split; [by rewrite Epr|].
    by rewrite updateAudioLevel_recorders.
  - unfold step. destruct (recorders (plat w) !! r); same_orphaned.
  - unfold step.
    destruct (recorders (plat w) !! r) as [m|] eqn:Em; [|same_orphaned].
    destruct (mr_stopQueued m) eqn:Eq; [|same_orphaned].
    assert (Hrecs : ∀ r' m', alter (set_mr_state inactive false) r
                               (recorders (plat w)) !! r' = Some m' →
                             mr_onstop m' = Some p →
                             mr_stopQueued m' = false ∧ mr_state m' = inactive).
    { intros r' m' Hm' Hon.
      apply lookup_alter_Some in Hm' as [(-> & m1 & _ & ->)|[_ Hm']];
        [done|by eapply Ho]. }
    destruct (mr_onstop m) as [q|] eqn:Eon; [|same_orphaned].
    unfold exec, when_some, onstop, resolve, update_recorder, modify, get,
      mbind, M_bind, orphaned. cbn. split; [done|]. split; [|done].
    rewrite lookup_alter_ne; [done|]. intros ->.
    destruct (Ho r m Em Eon) as [Hq _]. congruence.
  - unfold step, orphaned. msimpl. split; [done|]. split; [done|].
    intros r m. rewrite lookup_fmap.
    destruct (recorders (plat w) !! r) as [m0|] eqn:Em; [|done].
    intros [= <-] Hon.
    assert (Hon0 : mr_onstop m0 = Some p).
    { revert Hon. unfold end_of_stream.
      destruct (mr_state m0); [done| |]; by case_decide. }
    destruct (Ho r m0 Em Hon0) as [Hq Hin]. unfold end_of_stream.
    by rewrite Hin.
  - same_orphaned.
Qed.

Lemma run_orphaned (p : positive) (es : list Event) (w : World) :
  orphaned p w → orphaned p (run es w).
Proof.
  revert w. induction es as [|e es IH]; intros w Ho; [done|].
  apply (IH (step e w)). by apply step_orphaned.
Qed.

(** ** Chunks *)

Lemma run_dataavailable (r : positive) (ds : list Blob) (w : World) :
  is_Some (recorders (plat w) !! r) →
  run (map (EDataAvailable r) ds) w =
  with_refs (λ rf, set_audioChunksRef (audioChunksRef rf ++ ds) rf) w.
Proof.
  revert w. induction ds as [|d ds IH]; intros w [m Hm].
  - cbn. apply world_ext_eq; cbn; by rewrite ?app_nil_r.
  - cbn [map run fold_left]. fold (run (map (EDataAvailable r) ds)).
    assert (E : step (EDataAvailable r d) w =
                with_refs (λ rf, set_audioChunksRef (audioChunksRef rf ++ [d]) rf) w).
    { unfold step. by rewrite Hm. }
    rewrite E, IH by (cbn; eauto).
    apply world_ext_eq; cbn; by rewrite <- ?app_assoc.
Qed.

(** ** The platform's own behaviour *)

(** No event changes what [recorder.stop()] does on an inactive recorder. *)
Lemma step_stopThrows (e : Event) (w : World) :
  stopThrows (plat (step e w)) = stopThrows (plat w).
Proof.
  destruct e as [ |k o| | | |i|f|r d|r|s|d].
  - by rewrite step_start.
  - rewrite step_device.
    destruct (requests (plat w) !! k) as [c|]; by destruct o.
  - rewrite step_stop. unfold stopped.
    destruct (mediaRecorderRef (refs w)) as [r|]; [|done].
    destruct (recorder_state r w); destruct (stopThrows (plat w)) eqn:Et;
      exact Et.
  - unfold step, exec. rewrite pauseRecording_eq.
    destruct (mediaRecorderRef (refs w)) as [r|]; [|done].
    destruct (c_isRecording _); [|done]. by destruct (recorder_state r w).
  - unfold step, exec. rewrite resumeRecording_eq.
    destruct (mediaRecorderRef (refs w)) as [r|]; [|done].
    destruct (c_isPaused _); [|done].
    destruct (recorder_state r w); [done| |];
      rewrite updateAudioLevel_eq;
      (destruct (analyserRef _); [|done]);
      (destruct (frequencyBinCount _ _); [done|]);
      unfold sampled; by destruct (loops _).
  - unfold step. by destruct (decide _).
  - unfold step, exec. destruct (frames (plat w) !! f) as [c|]; [|done].
    rewrite updateAudioLevel_eq.
    destruct (analyserRef _); [|done].
    destruct (frequencyBinCount _ _); [done|].
    unfold sampled. by destruct (loops _).
  - unfold step. by destruct (recorders (plat w) !! r).
  - unfold step. destruct (recorders (plat w) !! r) as [m|]; [|done].
    destruct (mr_stopQueued m); [|done]. by destruct (mr_onstop m).
  - done.
  - done.
Qed.

Lemma run_stopThrows (throws : bool) (es : list Event) :
  stopThrows (plat (run es (initialWorld throws))) = throws.
Proof.
  induction es as [|e es IH] using rev_ind; [done|].
  by rewrite run_snoc, step_stopThrows.
Qed.

(** ** Time *)

Lemma div_succ_1000 (x : nat) :
  S x / 1000 = x / 1000 + (if S x mod 1000 =? 0 then 1 else 0).
Proof.
  pose proof (Nat.div_mod_eq x 1000) as H1.
  pose proof (Nat.div_mod_eq (S x) 1000) as H2.
  assert (Hnz : 1000 ≠ 0) by discriminate.
  pose proof (Nat.mod_upper_bound x 1000 Hnz) as B1.
  pose proof (Nat.mod_upper_bound (S x) 1000 Hnz) as B2.
  destruct (Nat.eqb_spec (S x mod 1000) 0) as [E|E]; lia.
Qed.

Lemma sampled_timing (c : Closure) (n : nat) (w : World) :
  intervalRef (refs (sampled c n w)) = intervalRef (refs w) ∧
  intervals (plat (sampled c n w)) = intervals (plat w) ∧
  timers (plat (sampled c n w)) = timers (plat w) ∧
  clock (plat (sampled c n w)) = clock (plat w).
Proof. unfold sampled. by destruct (loops c). Qed.

Lemma updateAudioLevel_timing (c : Closure) (w : World) :
  intervalRef (refs (snd (updateAudioLevel c w))) = intervalRef (refs w) ∧
  intervals (plat (snd (updateAudioLevel c w))) = intervals (plat w) ∧
  timers (plat (snd (updateAudioLevel c w))) = timers (plat w) ∧
  clock (plat (snd (updateAudioLevel c w))) = clock (plat w).
Proof.
  rewrite updateAudioLevel_eq.
  destruct (analyserRef (refs w)) as [a|]; [|done].
  destruct (frequencyBinCount a w); [done|]. apply sampled_timing.
Qed.

(** The hook never touches the clock. *)
Lemma step_clock (e : Event) (w : World) :
  clock (plat (step e w)) = clock (plat w).
Proof.
  destruct e as [ |k o| | | |i|f|r d|r|s|d].
  - by rewrite step_start.
  - rewrite step_device.
    destruct (requests (plat w) !! k) as [c|]; by destruct o.
  - rewrite step_stop. unfold stopped.
    destruct (mediaRecorderRef (refs w)) as [r|]; [|done].
    by destruct (recorder_state r w), (stopThrows (plat w)).
  - unfold step, exec. rewrite pauseRecording_eq.
    destruct (mediaRecorderRef (refs w)) as [r|]; [|done].
    destruct (c_isRecording _); [|done]. by destruct (recorder_state r w).
  - unfold step, exec. rewrite resumeRecording_eq.
    destruct (mediaRecorderRef (refs w)) as [r|]; [|done].
    destruct (c_isPaused _); [|done].
    destruct (recorder_state r w) eqn:Es; [done| |];
      by destruct (updateAudioLevel_timing (render (state w))
                     (resumed_world r w)) as (_ & _ & _ & ->).
  - unfold step. by destruct (decide _).
  - unfold step, exec. destruct (frames (plat w) !! f) as [c|]; [|done].
    by destruct (updateAudioLevel_timing c
      (with_plat (λ p, set_frames (delete f (frames p)) p) w))
      as (_ & _ & _ & ->).
  - unfold step. by destruct (recorders (plat w) !! r).
  - unfold step. destruct (recorders (plat w) !! r) as [m|]; [|done].
    destruct (mr_stopQueued m); [|done]. by destruct (mr_onstop m).
  - done.
  - done.
Qed.

Lemma session_clock_frame (w w' : World) :
  (isRecording (state w') = true → isRecording (state w) = true) →
  recordingTime (state w') = recordingTime (state w) →
  intervalRef (refs w') = intervalRef (refs w) →
  timers (plat w') = timers (plat w) →
  clock (plat w') = clock (plat w) →
  session_clock w → session_clock w'.
Proof.
  intros Hr Ht Hi Htm Hc Hs Hrec.
  destruct (Hs (Hr Hrec)) as (i & t0 & H1 & H2 & H3 & H4).
  exists i, t0. by rewrite Ht, Hi, Htm, Hc.
Qed.

(** Every task but a tick keeps the count of a session in step with the
    clock; a granted start begins a new count. *)
Lemma step_session_clock (e : Event) (w : World) :
  (∀ i, e ≠ ETick i) → session_clock w → session_clock (step e w).
Proof.
  intros Hne Hs. destruct e as [ |k o| | | |i|f|r d|r|s|d].
  - rewrite step_start. by apply (session_clock_frame w).
  - rewrite step_device.
    destruct (requests (plat w) !! k) as [c|]; [|done].
    destruct o; [|by apply (session_clock_frame w)].
    intros _. unfold started.
    cbn [state refs plat intervalRef timers clock recordingTime with_plat].
    eexists _, _. split; [reflexivity|]. split; [apply lookup_insert_eq|].
    split; [done|]. by rewrite Nat.sub_diag.
  - rewrite step_stop. unfold stopped.
    destruct (mediaRecorderRef (refs w)) as [r|];
      [|by apply (session_clock_frame w)].
    destruct (recorder_state r w), (stopThrows (plat w));
      by apply (session_clock_frame w).
  - unfold step, exec. rewrite pauseRecording_eq.
    destruct (mediaRecorderRef (refs w)) as [r|]; [|done].
    destruct (c_isRecording _); [|done].
    destruct (recorder_state r w); by apply (session_clock_frame w).
  - unfold step, exec. rewrite resumeRecording_eq.
    destruct (mediaRecorderRef (refs w)) as [r|]; [|done].
    destruct (c_isPaused _); [|done].
    destruct (recorder_state r w) eqn:Es;
      [by apply (session_clock_frame w)| |];
      destruct (updateAudioLevel_timing (render (state w))
                  (resumed_world r w)) as (E1 & _ & E2 & E3);
      destruct (updateAudioLevel_fields (render (state w))
                  (resumed_world r w)) as (E4 & _ & E5);
      apply (session_clock_frame w); by rewrite ?E1, ?E2, ?E3, ?E4, ?E5.
  - by destruct (Hne i).
  - unfold step, exec. destruct (frames (plat w) !! f) as [c|]; [|done].
    destruct (updateAudioLevel_timing c
      (with_plat (λ p, set_frames (delete f (frames p)) p) w))
      as (E1 & _ & E2 & E3).
    destruct (updateAudioLevel_fields c
      (with_plat (λ p, set_frames (delete f (frames p)) p) w))
      as (E4 & _ & E5).
    apply (session_clock_frame w); by rewrite ?E1, ?E2, ?E3, ?E4, ?E5.
  - unfold step. destruct (recorders (plat w) !! r); [|done].
    by apply (session_clock_frame w).
  - unfold step. destruct (recorders (plat w) !! r) as [m|]; [|done].
    destruct (mr_stopQueued m); [|done].
    destruct (mr_onstop m); by apply (session_clock_frame w).
  - by apply (session_clock_frame w).
  - by apply (session_clock_frame w).
Qed.

Lemma single_session_clock (n : nat) (w : World) :
  single_session w → single_session (with_plat (set_clock n) w).
Proof. intros [Hf Hi Hr Hc Ht Hii Hir Hic Hil Hp Hq]. by split. Qed.

Lemma session_intervals (w : World) :
  single_session w → isRecording (state w) = true →
  ∃ i, intervalRef (refs w) = Some i ∧ intervals (plat w) = {[i]}.
Proof.
  intros Hs Hrec. destruct (ss_ticking w Hs Hrec) as (i & Ei & Hin).
  exists i. split; [done|]. apply set_eq. intros j.
  rewrite elem_of_singleton. split.
  - intros Hj. apply (ss_interval w Hs) in Hj. congruence.
  - by intros ->.
Qed.

Lemma elapse_idle (w : World) :
  single_session w → isRecording (state w) = false →
  elapse w = with_plat (λ p, set_clock (S (clock p)) p) w.
Proof.
  intros Hs Hrec. unfold elapse.
  by rewrite (ss_idle_intervals w Hs Hrec), elements_empty.
Qed.

Lemma elapse_session (w : World) (i : positive) :
  intervals (plat w) = {[i]} →
  elapse w = fire i (with_plat (λ p, set_clock (S (clock p)) p) w).
Proof. intros E. unfold elapse. by rewrite E, elements_singleton. Qed.

Lemma waited_refl (w : World) : waited w w 0.
Proof. unfold waited. by rewrite Nat.add_0_r. Qed.

Lemma waited_trans (w1 w2 w3 : World) (n m : nat) :
  waited w1 w2 n → waited w2 w3 m → waited w1 w3 (n + m).
Proof.
  intros (A1 & A2 & A3 & A4 & A5 & A6 & A7 & A8)
         (B1 & B2 & B3 & B4 & B5 & B6 & B7 & B8).
  unfold waited. rewrite B1, B2, B3, B4, B5, B6, B7, A1, A2, A3, A4, A5, A6, A7.
  repeat split; try done; [lia|].
  intros H. rewrite B8 by congruence. by apply A8.
Qed.

(** One millisecond of a single session. *)
Lemma elapse_inv (w : World) :
  single_session w → session_clock w →
  single_session (elapse w) ∧ session_clock (elapse w) ∧ waited w (elapse w) 1.
Proof.
  intros Hs Hc.
  set (w' := with_plat (λ p, set_clock (S (clock p)) p) w).
  assert (Hs' : single_session w').
  { by apply (single_session_clock (S (clock (plat w))) w). }
  assert (Hw' : waited w w' 1).
  { unfold waited, w'. cbn. repeat split; try done. lia. }
  destruct (isRecording (state w)) eqn:Hrec.
  - destruct (session_intervals w Hs Hrec) as (i & Ei & Eint).
    rewrite (elapse_session w i Eint). fold w'.
    destruct (Hc Hrec) as (i' & t0 & Ei' & Et & Hle & Htime).
    assert (i' = i) as -> by congruence.
    unfold fire, due.
    change (timers (plat w')) with (timers (plat w)).
    change (clock (plat w')) with (S (clock (plat w))).
    rewrite Et.
    assert (Elt : (t0 <? S (clock (plat w))) = true)
      by (apply Nat.ltb_lt; lia).
    rewrite Elt. cbv beta iota. rewrite andb_true_l.
    replace (S (clock (plat w)) - t0) with (S (clock (plat w) - t0)) by lia.
    pose proof (div_succ_1000 (clock (plat w) - t0)) as Hdiv.
    destruct (S (clock (plat w) - t0) mod 1000 =? 0) eqn:Edue.
    + assert (Estep : step (ETick i) w' = with_state
                (λ s, mkState (isRecording s) (isPaused s)
                              (recordingTime s + 1) (audioLevel s)) w').
      { unfold step. change (intervals (plat w')) with (intervals (plat w)).
        rewrite Eint. destruct (decide _) as [|Hn]; [done|].
        by destruct Hn; apply elem_of_singleton. }
      rewrite Estep. split; [|split].
      * destruct Hs' as [Hf Hi Hr Hcx Ht Hii Hir Hic Hil Hp Hq]. by split.
      * intros _. exists i, t0.
        split; [done|]. split; [done|].
        change (clock (plat (with_state _ w'))) with (S (clock (plat w))).
        split; [lia|].
        replace (S (clock (plat w)) - t0) with (S (clock (plat w) - t0))
          by lia.
        rewrite Hdiv. cbn [state with_state recordingTime w' with_plat].
        by rewrite Htime.
      * unfold waited. cbn. repeat split; try done; [lia|].
        intros H. congruence.
    + split; [done|]. split; [|done].
      intros _. exists i, t0.
      split; [done|]. split; [done|].
      change (clock (plat w')) with (S (clock (plat w))).
      split; [lia|].
      replace (S (clock (plat w)) - t0) with (S (clock (plat w) - t0)) by lia.
      rewrite Hdiv. cbn [state with_state recordingTime w' with_plat].
      rewrite Htime. lia.
  - rewrite (elapse_idle w Hs Hrec). fold w'.
    split; [done|]. split; [|done]. intros H.
    change (isRecording (state w')) with (isRecording (state w)) in H.
    congruence.
Qed.

Lemma wait_inv (n : nat) (w : World) :
  single_session w → session_clock w →
  single_session (Nat.iter n elapse w) ∧
  session_clock (Nat.iter n elapse w) ∧
  waited w (Nat.iter n elapse w) n.
Proof.
  intros Hs Hc. induction n as [|n (IH1 & IH2 & IH3)].
  - cbn. split; [done|]. split; [done|]. apply waited_refl.
  - change (Nat.iter (S n) elapse w) with (elapse (Nat.iter n elapse w)).
    destruct (elapse_inv _ IH1 IH2) as (H1 & H2 & H3).
    split; [done|]. split; [done|].
    replace (S n) with (n + 1) by lia. exact (waited_trans _ _ _ _ _ IH3 H3).
Qed.

Lemma timed_run_snoc (ts : list Timed) (t : Timed) (w : World) :
  timed_run (ts ++ [t]) w = timed_step t (timed_run ts w).
Proof. unfold timed_run. by rewrite fold_left_app. Qed.

Lemma timed_trace_snoc (ts : list Timed) (t : Timed) (w : World) :
  timed_trace (ts ++ [t]) w =
  timed_trace ts w && timed_allows (timed_run ts w) t.
Proof.
  revert w. induction ts as [|t' ts IH]; intros w; cbn.
  - by rewrite andb_true_r.
  - rewrite IH. by rewrite andb_assoc.
Qed.

Lemma timed_step_inv (t : Timed) (w : World) :
  timed_allows w t = true → single_session w → session_clock w →
  single_session (timed_step t w) ∧ session_clock (timed_step t w).
Proof.
  intros Ha Hs Hc. destruct t as [e|n].
  - cbn [timed_step]. split.
    + apply step_single_session; [done|]. by destruct e.
    + apply step_session_clock; [|done]. intros i ->. done.
  - destruct (wait_inv n w Hs Hc) as (H1 & H2 & _). done.
Qed.

Lemma timed_run_inv (throws : bool) (ts : list Timed) :
  timed_trace ts (initialWorld throws) = true →
  single_session (timed_run ts (initialWorld throws)) ∧
  session_clock (timed_run ts (initialWorld throws)).
Proof.
  induction ts as [|t ts IH] using rev_ind; intros Hui.
  - split; [apply initial_single_session|]. intros H. discriminate H.
  - rewrite timed_trace_snoc in Hui. apply andb_true_iff in Hui as [H1 H2].
    rewrite timed_run_snoc. destruct (IH H1) as [Hs Hc].
    by apply timed_step_inv.
Qed.

(** Whole seconds of a single session: the count is the number of whole
    seconds since the interval was set, paused or not. *)
Lemma session_seconds (w : World) (k : nat) :
  single_session w → session_clock w → isRecording (state w) = true →
  state (Nat.iter (1000 * k) elapse w) =
  mkState true (isPaused (state w)) (recordingTime (state w) + k)
          (audioLevel (state w)).
Proof.
  intros Hs Hc Hrec.
  destruct (wait_inv (1000 * k) w Hs Hc)
    as (_ & Hc' & E1 & E2 & E3 & E4 & E5 & E6 & E7 & _).
  destruct (Hc Hrec) as (i & t0 & Ei & Et & Hle & Htime).
  assert (Hrec' : isRecording (state (Nat.iter (1000 * k) elapse w)) = true)
    by congruence.
  destruct (Hc' Hrec') as (i' & t0' & Ei' & Et' & Hle' & Htime').
  rewrite E1, Ei in Ei'. injection Ei' as <-.
  rewrite E3, Et in Et'. injection Et' as <-.
  rewrite E4 in Htime'.
  replace (clock (plat w) + 1000 * k - t0)
    with (clock (plat w) - t0 + k * 1000) in Htime' by lia.
  rewrite Nat.div_add in Htime' by discriminate.
  rewrite <- Htime in Htime'.
  destruct (state (Nat.iter (1000 * k) elapse w)) as [a b c d].
  cbn in Hrec', E6, E7, Htime'. by subst.
Qed.

(** ** The wait of a stop *)

Lemma sampled_session_refs (c : Closure) (n : nat) (w : World) :
  mediaRecorderRef (refs (sampled c n w)) = mediaRecorderRef (refs w) ∧
  audioChunksRef (refs (sampled c n w)) = audioChunksRef (refs w).
Proof. unfold sampled. by destruct (loops c). Qed.

Lemma updateAudioLevel_session_refs (c : Closure) (w : World) :
  mediaRecorderRef (refs (snd (updateAudioLevel c w)))
  = mediaRecorderRef (refs w) ∧
  audioChunksRef (refs (snd (updateAudioLevel c w)))
  = audioChunksRef (refs w).
Proof.
  rewrite updateAudioLevel_eq.
  destruct (analyserRef (refs w)) as [a|]; [|done].
  destruct (frequencyBinCount a w); [done|]. apply sampled_session_refs.
Qed.

(** Only the rest of a granted start puts a recorder into
    [mediaRecorderRef]. *)
Lemma step_recorder_ref (e : Event) (w : World) :
  grants w e = false →
  mediaRecorderRef (refs (step e w)) = mediaRecorderRef (refs w).
Proof.
  intros Hg. destruct e as [ |k o| | | |i|f|r d|r|s|d].
  - by rewrite step_start.
  - rewrite step_device.
    destruct o; cbn in Hg; by destruct (requests (plat w) !! k) as [c|].
  - rewrite step_stop. unfold stopped.
    destruct (mediaRecorderRef (refs w)) as [r|] eqn:Er; [|exact Er].
    destruct (recorder_state r w), (stopThrows (plat w)); exact Er.
  - unfold step, exec. rewrite pauseRecording_eq.
    destruct (mediaRecorderRef (refs w)) as [r|] eqn:Er; [|exact Er].
    destruct (c_isRecording _); [|exact Er].
    destruct (recorder_state r w); exact Er.
  - unfold step, exec. rewrite resumeRecording_eq.
    destruct (mediaRecorderRef (refs w)) as [r|] eqn:Er; [|exact Er].
    destruct (c_isPaused _); [|exact Er].
    destruct (recorder_state r w) eqn:Es; [exact Er| |];
      destruct (updateAudioLevel_session_refs (render (state w))
                  (resumed_world r w)) as (-> & _); exact Er.
  - unfold step. by destruct (decide _).
  - unfold step, exec. destruct (frames (plat w) !! f) as [c|]; [|done].
    by destruct (updateAudioLevel_session_refs c
      (with_plat (λ p, set_frames (delete f (frames p)) p) w)) as (-> & _).
  - unfold step. by destruct (recorders (plat w) !! r).
  - unfold step. destruct (recorders (plat w) !! r) as [m|]; [|done].
    destruct (mr_stopQueued m); [|done]. by destruct (mr_onstop m).
  - done.
  - done.
Qed.

(** What an event does to the chunk list: the rest of a granted start
    empties it, a data event appends its chunk, nothing else touches it. *)
Lemma step_chunks (e : Event) (w : World) :
  audioChunksRef (refs (step e w)) =
  (if grants w e then [] else audioChunksRef (refs w)) ++ chunk w e.
Proof.
  destruct e as [ |k o| | | |i|f|r d|r|s|d]; cbn [grants chunk];
    rewrite ?app_nil_r.
  - by rewrite step_start.
  - rewrite step_device.
    destruct (requests (plat w) !! k) as [c|]; by destruct o.
  - rewrite step_stop. unfold stopped.
    destruct (mediaRecorderRef (refs w)) as [r|]; [|done].
    by destruct (recorder_state r w), (stopThrows (plat w)).
  - unfold step, exec. rewrite pauseRecording_eq.
    destruct (mediaRecorderRef (refs w)) as [r|]; [|done].
    destruct (c_isRecording _); [|done]. by destruct (recorder_state r w).
  - unfold step, exec. rewrite resumeRecording_eq.
    destruct (mediaRecorderRef (refs w)) as [r|] eqn:Er; [|done].
    destruct (c_isPaused _); [|done].
    destruct (recorder_state r w) eqn:Es; [done| |];
      by destruct (updateAudioLevel_session_refs (render (state w))
                     (resumed_world r w)) as (_ & ->).
  - unfold step. by destruct (decide _).
  - unfold step, exec. destruct (frames (plat w) !! f) as [c|]; [|done].
    by destruct (updateAudioLevel_session_refs c
      (with_plat (λ p, set_frames (delete f (frames p)) p) w)) as (_ & ->).
  - unfold step. destruct (recorders (plat w) !! r); [done|].
    by rewrite app_nil_r.
  - unfold step. destruct (recorders (plat w) !! r) as [m|]; [|done].
    destruct (mr_stopQueued m); [|done]. by destruct (mr_onstop m).
  - done.
  - done.
Qed.

Lemma run_collect (es : list Event) (w : World) :
  audioChunksRef (refs (run es w)) = collect es w (audioChunksRef (refs w)).
Proof.
  revert w. induction es as [|e es IH]; intros w; [done|].
  cbn [run fold_left collect]. fold (run es (step e w)).
  by rewrite IH, step_chunks.
Qed.

Lemma collect_no_restart (es : list Event) (w : World) (acc : list Blob) :
  no_restart es w = true → collect es w acc = acc ++ delivered es w.
Proof.
  revert w acc. induction es as [|e es IH]; intros w acc H; cbn.
  - by rewrite app_nil_r.
  - cbn in H. apply andb_true_iff in H as [Hg Hn].
    apply negb_true_iff in Hg. rewrite Hg, IH by done.
    by rewrite app_assoc.
Qed.

Lemma run_recorder_ref (es : list Event) (w : World) :
  no_restart es w = true →
  mediaRecorderRef (refs (run es w)) = mediaRecorderRef (refs w).
Proof.
  revert w. induction es as [|e es IH]; intros w H; [done|].
  cbn in H. apply andb_true_iff in H as [Hg Hn].
  apply negb_true_iff in Hg.
  cbn [run fold_left]. fold (run es (step e w)).
  by rewrite IH, step_recorder_ref.
Qed.

(** While [isRecording] is true a recorder is in [mediaRecorderRef]. *)
Lemma run_recording_recorder (throws : bool) (es : list Event) :
  isRecording (state (run es (initialWorld throws))) = true →
  is_Some (mediaRecorderRef (refs (run es (initialWorld throws)))).
Proof.
  induction es as [|e es IH] using rev_ind; [done|].
  rewrite run_snoc. generalize dependent (run es (initialWorld throws)).
  intros w IH. destruct (grants w e) eqn:Hg.
  - destruct e as [ |k o| | | |i|f|r d|r|s|d]; try done.
    destruct o; [|done]. cbn in Hg. rewrite step_device.
    destruct (requests (plat w) !! k) as [c|]; [|done]. by eauto.
  - rewrite step_recorder_ref by done. intros Hrec. apply IH.
    destruct e as [ |k o| | | |i|f|r d|r|s|d].
    + by rewrite step_start in Hrec.
    + rewrite step_device in Hrec.
      destruct o; cbn in Hg; by destruct (requests (plat w) !! k) as [c|].
    + rewrite step_stop in Hrec. unfold stopped in Hrec.
      destruct (mediaRecorderRef (refs w)) as [r|]; [|done].
      by destruct (recorder_state r w), (stopThrows (plat w)).
    + unfold step, exec in Hrec. rewrite pauseRecording_eq in Hrec.
      destruct (mediaRecorderRef (refs w)) as [r|]; [|done].
      destruct (c_isRecording _); [|done]. by destruct (recorder_state r w).
    + unfold step, exec in Hrec. rewrite resumeRecording_eq in Hrec.
      destruct (mediaRecorderRef (refs w)) as [r|]; [|done].
      destruct (c_isPaused _); [|done].
      destruct (recorder_state r w) eqn:Es; [done| |];
        destruct (updateAudioLevel_fields (render (state w))
                    (resumed_world r w)) as (E & _ & _);
        by rewrite E in Hrec.
    + unfold step in Hrec. by destruct (decide _).
    + unfold step, exec in Hrec.
      destruct (frames (plat w) !! f) as [c|]; [|done].
      destruct (updateAudioLevel_fields c
        (with_plat (λ p, set_frames (delete f (frames p)) p) w))
        as (E & _ & _).
      by rewrite E in Hrec.
    + unfold step in Hrec. by destruct (recorders (plat w) !! r).
    + unfold step in Hrec. destruct (recorders (plat w) !! r) as [m|]; [|done].
      destruct (mr_stopQueued m); [|done]. by destruct (mr_onstop m).
    + done.
    + done.
Qed.

Lemma end_of_stream_onstop (s : positive) (m : MediaRecorder) :
  mr_onstop (end_of_stream s m) = mr_onstop m.
Proof.
  unfold end_of_stream. destruct (mr_state m); [done| |]; by case_decide.
Qed.

(** Handles are handed out in increasing order. *)
Lemma step_nextHandle (e : Event) (w : World) :
  (nextHandle (plat w) ≤ nextHandle (plat (step e w)))%positive.
Proof.
  destruct e as [ |k o| | | |i|f|r d|r|s|d].
  - by rewrite step_start.
  - rewrite step_device.
    destruct (requests (plat w) !! k) as [c|]; [|done].
    destruct o; [|done]. unfold started. cbn. destruct (loops c); lia.
  - rewrite step_stop. unfold stopped.
    destruct (mediaRecorderRef (refs w)) as [r|];
      [destruct (recorder_state r w), (stopThrows (plat w))|]; cbn; lia.
  - unfold step, exec. rewrite pauseRecording_eq.
    destruct (mediaRecorderRef (refs w)) as [r|]; [|done].
    destruct (c_isRecording _); [|done]. by destruct (recorder_state r w).
  - unfold step, exec. rewrite resumeRecording_eq.
    destruct (mediaRecorderRef (refs w)) as [r|]; [|done].
    destruct (c_isPaused _); [|done].
    destruct (recorder_state r w) eqn:Es; [done| |];
      by destruct (updateAudioLevel_plat (render (state w))
                     (resumed_world r w)) as [_ Hle].
  - unfold step. by destruct (decide _).
  - unfold step, exec. destruct (frames (plat w) !! f) as [c|]; [|done].
    by destruct (updateAudioLevel_plat c
      (with_plat (λ p, set_frames (delete f (frames p)) p) w)) as [_ Hle].
  - unfold step. by destruct (recorders (plat w) !! r).
  - unfold step. destruct (recorders (plat w) !! r) as [m|]; [|done].
    destruct (mr_stopQueued m); [|done]. by destruct (mr_onstop m).
  - done.
  - done.
Qed.

Lemma handles_fresh_mono (w w' : World) :
  handles_fresh w →
  (nextHandle (plat w) ≤ nextHandle (plat w'))%positive →
  (∀ r m', recorders (plat w') !! r = Some m' →
           ∃ m, recorders (plat w) !! r = Some m ∧
                (mr_onstop m' = mr_onstop m ∨
                 ∃ p, mr_onstop m' = Some p ∧
                      (p < nextHandle (plat w'))%positive)) →
  handles_fresh w'.
Proof.
  intros Hf Hle Hrec r m' Hm'.
  destruct (Hrec r m' Hm') as (m & Hm & Hon).
  destruct (Hf r m Hm) as [Hr Hp]. split; [lia|].
  intros p Ep. destruct Hon as [E|(q & Eq & Hq)].
  - rewrite E in Ep. apply Hp in Ep. lia.
  - congruence.
Qed.

Lemma alter_recorder_origin
    (f : MediaRecorder → MediaRecorder) (r r' : positive)
    (recs : gmap positive MediaRecorder) (m' : MediaRecorder) :
  (∀ x, mr_onstop (f x) = mr_onstop x) →
  alter f r recs !! r' = Some m' →
  ∃ m, recs !! r' = Some m ∧ mr_onstop m' = mr_onstop m.
Proof.
  intros Hf Hm.
  apply lookup_alter_Some in Hm as [(-> & m & Hm & ->)|[_ Hm]]; eauto.
Qed.

Lemma step_handles_fresh (e : Event) (w : World) :
  handles_fresh w → handles_fresh (step e w).
Proof.
  intros Hf.
  assert (Hsame : ∀ w', recorders (plat w') = recorders (plat w) →
            (nextHandle (plat w) ≤ nextHandle (plat w'))%positive →
            handles_fresh w').
  { intros w' E Hle. apply (handles_fresh_mono w); [done|done|].
    intros r m'. rewrite E. by eauto. }
  destruct e as [ |k o| | | |i|f|r d|r|s|d].
  - rewrite step_start. by apply Hsame.
  - rewrite step_device.
    destruct (requests (plat w) !! k) as [c|]; [|done].
    destruct o; [|by apply Hsame].
    intros r m Hm. unfold started in Hm |- *. cbn in Hm |- *.
    apply lookup_insert_Some in Hm as [[<- <-]|[_ Hm]].
    + split; [destruct (loops c); lia|done].
    + destruct (Hf r m Hm) as [Hr Hp].
      split; [destruct (loops c); lia|].
      intros p Ep. apply Hp in Ep. destruct (loops c); lia.
  - rewrite step_stop. unfold stopped.
    destruct (mediaRecorderRef (refs w)) as [r|];
      [|apply Hsame; cbn; [done|lia]].
    assert (Hon : ∀ g r' m',
      (∀ x, mr_onstop (g x) = mr_onstop x) →
      alter g r (alter (set_mr_onstop (Some (nextHandle (plat w)))) r
                   (recorders (plat w))) !! r' = Some m' →
      ∃ m, recorders (plat w) !! r' = Some m ∧
           (mr_onstop m' = mr_onstop m ∨
            ∃ p, mr_onstop m' = Some p ∧
                 (p < Pos.succ (nextHandle (plat w)))%positive)).
    { intros g r' m' Hg Hm'.
      apply (alter_recorder_origin g) in Hm' as (m1 & Hm1 & E1); [|done].
      apply lookup_alter_Some in Hm1 as [(-> & m & Hm & ->)|[_ Hm1]].
      - exists m. split; [done|]. right. exists (nextHandle (plat w)).
        split; [by rewrite E1|lia].
      - exists m1. split; [done|]. by left. }
    destruct (recorder_state r w), (stopThrows (plat w));
      apply (handles_fresh_mono w); try done; cbn; try lia;
      intros r' m' Hm';
      first [ by apply (Hon (set_mr_state inactive true) r' m')
            | apply (Hon id r' m'); [done|];
              by rewrite alter_id ].
  - unfold step, exec. rewrite pauseRecording_eq.
    destruct (mediaRecorderRef (refs w)) as [r|]; [|done].
    destruct (c_isRecording _); [|done].
    destruct (recorder_state r w) eqn:Es; cbn [snd];
      [by apply Hsame| |by apply Hsame; cbn; rewrite ?Es].
    apply (handles_fresh_mono w); [done|done|].
    intros r' m'. cbn. rewrite Es. intros Hm'.
    apply alter_recorder_origin in Hm' as (m & Hm & E); [|done]. by eauto.
  - unfold step, exec. rewrite resumeRecording_eq.
    destruct (mediaRecorderRef (refs w)) as [r|]; [|done].
    destruct (c_isPaused _); [|done].
    assert (Hres : handles_fresh (resumed_world r w)).
    { apply (handles_fresh_mono w); [done|done|].
      intros r' m'. cbn. destruct (recorder_state r w); [by eauto|by eauto|].
      intros Hm'.
      apply alter_recorder_origin in Hm' as (m & Hm & E); [|done]. by eauto. }
    destruct (recorder_state r w) eqn:Es; cbn [snd]; [by apply Hsame| |];
      destruct (updateAudioLevel_plat (render (state w))
                  (resumed_world r w)) as [_ Hle];
      (apply (handles_fresh_mono (resumed_world r w)); [done|done|]);
      rewrite updateAudioLevel_recorders; by eauto.
  - unfold step. destruct (decide _); [|done]. by apply Hsame.
  - unfold step, exec. destruct (frames (plat w) !! f) as [c|]; [|done].
    destruct (updateAudioLevel_plat c
      (with_plat (λ p, set_frames (delete f (frames p)) p) w)) as [_ Hle].
    apply Hsame; [|done]. by rewrite updateAudioLevel_recorders.
  - unfold step. destruct (recorders (plat w) !! r); [|done]. by apply Hsame.
  - unfold step. destruct (recorders (plat w) !! r) as [m|]; [|done].
    destruct (mr_stopQueued m); [|done].
    apply (handles_fresh_mono w); [done| |].
    + by destruct (mr_onstop m).
    + intros r' m' Hm'.
      assert (Hm'' : alter (set_mr_state inactive false) r
                       (recorders (plat w)) !! r' = Some m')
        by (by destruct (mr_onstop m)).
      apply alter_recorder_origin in Hm'' as (m0 & Hm0 & E); [|done].
      by eauto.
  - unfold step. apply (handles_fresh_mono w); [done|done|].
    intros r m'. cbn. rewrite lookup_fmap.
    destruct (recorders (plat w) !! r) as [m|]; [|done].
    intros [= <-]. exists m. split; [done|]. left.
    apply end_of_stream_onstop.
  - unfold step. by apply Hsame.
Qed.

Lemma run_handles_fresh (throws : bool) (es : list Event) :
  handles_fresh (run es (initialWorld throws)).
Proof.
  induction es as [|e es IH] using rev_ind.
  - intros r m Hm. cbn in Hm. by rewrite lookup_empty in Hm.
  - rewrite run_snoc. by apply step_handles_fresh.
Qed.

Lemma awaits_stop_mono (p r : positive) (w w' : World) :
  awaits_stop p r w →
  (nextHandle (plat w) ≤ nextHandle (plat w'))%positive →
  promises (plat w') !! p = Some pending →
  recorders (plat w') !! r = recorders (plat w) !! r →
  (∀ r' m', r' ≠ r → recorders (plat w') !! r' = Some m' →
            mr_onstop m' = Some p →
            ∃ m, recorders (plat w) !! r' = Some m ∧ mr_onstop m = Some p) →
  awaits_stop p r w'.
Proof.
  intros (Hp & Hr & Hpend & Hm & Huniq) Hle Hpend' Hsame Hothers.
  split; [lia|]. split; [lia|]. split; [done|]. split; [by rewrite Hsame|].
  intros r' m' Hm' Hon. destruct (decide (r' = r)) as [|Hne]; [done|].
  destruct (Hothers r' m' Hne Hm' Hon) as (m0 & Hm0 & Hon0).
  by eapply Huniq.
Qed.

(** The wait goes on across every event that does not take the handler. *)
Lemma step_awaits_stop (p r : positive) (e : Event) (w : World) :
  awaits_stop p r w → takes_onstop r w e = false →
  awaits_stop p r (step e w).
Proof.
  intros Ha Htake.
  pose proof Ha as (Hp & Hr & Hpend & (m & Hm & Hon & Hq & Hst) & Huniq).
  assert (Hsame : ∀ w', recorders (plat w') = recorders (plat w) →
            promises (plat w') = promises (plat w) →
            (nextHandle (plat w) ≤ nextHandle (plat w'))%positive →
            awaits_stop p r w').
  { intros w' E1 E2 Hle. apply (awaits_stop_mono p r w); try done.
    - by rewrite E2.
    - by rewrite E1.
    - intros r' m'. rewrite E1. by eauto. }
  assert (Hstate : recorder_state r w = inactive).
  { unfold recorder_state. by rewrite Hm. }
  assert (Halter : ∀ g r0 w',
    (∀ x, mr_onstop (g x) = mr_onstop x) → r0 ≠ r →
    recorders (plat w') = alter g r0 (recorders (plat w)) →
    promises (plat w') = promises (plat w) →
    (nextHandle (plat w) ≤ nextHandle (plat w'))%positive →
    awaits_stop p r w').
  { intros g r0 w' Hg Hne E1 E2 Hle. apply (awaits_stop_mono p r w); try done.
    - by rewrite E2.
    - by rewrite E1, lookup_alter_ne.
    - intros r' m' _. rewrite E1. intros Hm' Hon'.
      apply alter_recorder_origin in Hm' as (m0 & Hm0 & E); [|done].
      exists m0. split; [done|]. by rewrite <- E. }
  destruct e as [ |k o| | | |i|f|r0 d|r0|s|d].
  - rewrite step_start. by apply Hsame.
  - rewrite step_device.
    destruct (requests (plat w) !! k) as [c|]; [|done].
    destruct o; [|by apply Hsame].
    apply (awaits_stop_mono p r w); try done.
    + unfold started. cbn. destruct (loops c); lia.
    + unfold started. cbn. rewrite lookup_insert_ne; [done|]. lia.
    + intros r' m' Hne. unfold started. cbn. intros Hm' Hon'.
      apply lookup_insert_Some in Hm' as [[_ <-]|[_ Hm']]; [done|by eauto].
  - rewrite step_stop. unfold stopped. cbn in Htake.
    assert (Hnp : nextHandle (plat w) ≠ p) by lia.
    destruct (mediaRecorderRef (refs w)) as [r0|].
    + apply Pos.eqb_neq in Htake.
      assert (Hon' : ∀ g r' m',
        (∀ x, mr_onstop (g x) = mr_onstop x) →
        alter g r0 (alter (set_mr_onstop (Some (nextHandle (plat w)))) r0
                      (recorders (plat w))) !! r' = Some m' →
        mr_onstop m' = Some p →
        ∃ m0, recorders (plat w) !! r' = Some m0 ∧ mr_onstop m0 = Some p).
      { intros g r' m' Hg Hm' Ep.
        apply (alter_recorder_origin g) in Hm' as (m1 & Hm1 & E1); [|done].
        apply lookup_alter_Some in Hm1 as [(-> & m0 & Hm0 & ->)|[_ Hm1]].
        - rewrite E1 in Ep. cbn in Ep. congruence.
        - exists m1. split; [done|]. by rewrite <- E1. }
      destruct (recorder_state r0 w), (stopThrows (plat w));
        apply (awaits_stop_mono p r w); try done; cbn; try lia;
        rewrite ?lookup_insert_ne by done; try done;
        rewrite ?lookup_alter_ne by done; try done;
        intros r' m' _ Hm' Ep;
        first [ by apply (Hon' (set_mr_state inactive true) r' m')
              | apply (Hon' id r' m'); [done| |done]; by rewrite alter_id ].
    + apply (awaits_stop_mono p r w); try done; cbn; try lia.
      * by rewrite lookup_insert_ne.
      * by eauto.
  - unfold step, exec. rewrite pauseRecording_eq.
    destruct (mediaRecorderRef (refs w)) as [r0|]; [|done].
    destruct (c_isRecording _); [|done].
    destruct (recorder_state r0 w) eqn:Es; cbn [snd];
      [by apply Hsame| |by apply Hsame; cbn; rewrite ?Es].
    apply (Halter (set_mr_state paused false) r0); try done.
    + intros ->. congruence.
    + cbn. by rewrite Es.
  - unfold step, exec. rewrite resumeRecording_eq.
    destruct (mediaRecorderRef (refs w)) as [r0|]; [|done].
    destruct (c_isPaused _); [|done].
    assert (Hres : awaits_stop p r (resumed_world r0 w)).
    { destruct (recorder_state r0 w) eqn:Es;
        [by apply Hsame; cbn; rewrite ?Es
        |by apply Hsame; cbn; rewrite ?Es|].
      apply (Halter (set_mr_state recording false) r0); try done.
      - intros ->. congruence.
      - cbn. by rewrite Es. }
    destruct (recorder_state r0 w) eqn:Es; cbn [snd]; [by apply Hsame| |];
      destruct (updateAudioLevel_plat (render (state w))
                  (resumed_world r0 w)) as [Epr Hle];
      (apply (awaits_stop_mono p r (resumed_world r0 w)); [done|done| | |]);
      rewrite ?Epr, ?updateAudioLevel_recorders;
      first [ by destruct Hres as (_ & _ & ? & _) | done | by eauto ].
  - unfold step. destruct (decide _); [|done]. by apply Hsame.
  - unfold step, exec. destruct (frames (plat w) !! f) as [c|]; [|done].
    destruct (updateAudioLevel_plat c
      (with_plat (λ p, set_frames (delete f (frames p)) p) w)) as [Epr Hle].
    apply Hsame; [|done|done]. by rewrite updateAudioLevel_recorders.
  - unfold step. destruct (recorders (plat w) !! r0); [|done]. by apply Hsame.
  - cbn in Htake. apply Pos.eqb_neq in Htake. unfold step.
    destruct (recorders (plat w) !! r0) as [m0|] eqn:Em0; [|done].
    destruct (mr_stopQueued m0); [|done].
    assert (Hmid : awaits_stop p r
      (exec (update_recorder r0 (set_mr_state inactive false)) w)).
    { by apply (Halter (set_mr_state inactive false) r0). }
    destruct (mr_onstop m0) as [q|] eqn:Eq; [|done].
    assert (Hqp : q ≠ p).
    { intros ->. by apply Htake, (Huniq r0 m0). }
    apply (awaits_stop_mono p r
             (exec (update_recorder r0 (set_mr_state inactive false)) w));
      try done.
    + unfold exec, when_some, onstop, resolve, update_recorder, modify, get,
        mbind, M_bind. cbn. rewrite lookup_alter_ne by done. done.
    + by eauto.
  - unfold step. apply (awaits_stop_mono p r w); try done.
    + cbn. rewrite !lookup_fmap, Hm. cbn. unfold end_of_stream.
      by rewrite Hst.
    + intros r' m' _. cbn. rewrite lookup_fmap.
      destruct (recorders (plat w) !! r') as [m0|]; [|done].
      intros [= <-] Ep. exists m0. split; [done|].
      by rewrite end_of_stream_onstop in Ep.
  - unfold step. by apply Hsame.
Qed.

Lemma run_awaits_stop (p r : positive) (es : list Event) (w : World) :
  awaits_stop p r w → onstop_kept r es w = true →
  awaits_stop p r (run es w).
Proof.
  revert w. induction es as [|e es IH]; intros w Ha Hk; [done|].
  cbn in Hk. apply andb_true_iff in Hk as [H1 H2].
  apply negb_true_iff in H1.
  apply (IH (step e w)); [by apply step_awaits_stop|done].
Qed.

(** [stopRecording] on an active recorder starts the wait. *)
Lemma stop_awaits (r : positive) (w : World) :
  handles_fresh w →
  mediaRecorderRef (refs w) = Some r → recorder_state r w ≠ inactive →
  awaits_stop (nextHandle (plat w)) r (step EStop w).
Proof.
  intros Hf Er Hs. rewrite step_stop. unfold stopped. rewrite Er.
  unfold recorder_state in Hs |- *.
  destruct (recorders (plat w) !! r) as [m|] eqn:Em; [|done].
  destruct (Hf r m Em) as [Hr Hp].
  set (p := nextHandle (plat w)) in *.
  assert (H : awaits_stop p r
    (cleaned r p (alter (set_mr_state inactive true) r
                    (alter (set_mr_onstop (Some p)) r (recorders (plat w))))
       w)).
  { split; [cbn; lia|]. split; [cbn; lia|].
    split; [cbn; by rewrite lookup_insert_eq|]. split.
    - cbn. rewrite !lookup_alter_eq, Em. cbn. by eauto.
    - intros r' m'. cbn. intros Hm' Hon.
      destruct (decide (r' = r)) as [|Hne]; [done|].
      rewrite !lookup_alter_ne in Hm' by done.
      destruct (Hf r' m' Hm') as [_ Hp']. apply Hp' in Hon. lia. }
  by destruct (mr_state m).
Qed.

(** The stop event ends the wait: the promise gets the chunks the ref holds
    at that moment. *)
Lemma stop_event_fulfils (p r : positive) (w : World) :
  awaits_stop p r w →
  promises (plat (step (EStopEvent r) w)) !! p =
  Some (fulfilled (Some (newBlob (audioChunksRef (refs w)) "audio/wav"))).
Proof.
  intros (Hp & Hr & Hpend & (m & Hm & Hon & Hq & Hst) & Huniq).
  unfold step. rewrite Hm, Hq, Hon.
  unfold exec, when_some, onstop, resolve, update_recorder, modify, get,
    mbind, M_bind. cbn. by rewrite lookup_alter_eq, Hpend.
Qed.

(** Another [stopRecording] on the same recorder ends the wait too: the
    handler now holds the new promise, and nothing will settle the old
    one. *)
Lemma second_stop_orphans (p r : positive) (w : World) :
  awaits_stop p r w → mediaRecorderRef (refs w) = Some r →
  orphaned p (step EStop w).
Proof.
  intros (Hp & Hr & Hpend & (m & Hm & Hon & Hq & Hst) & Huniq) Er.
  rewrite step_stop. unfold stopped. rewrite Er.
  assert (Hnp : nextHandle (plat w) ≠ p) by lia.
  assert (Hs : recorder_state r w = inactive).
  { unfold recorder_state. by rewrite Hm. }
  rewrite Hs.
  assert (Hnone : ∀ r' m',
    alter (set_mr_onstop (Some (nextHandle (plat w)))) r (recorders (plat w))
      !! r' = Some m' → mr_onstop m' = Some p → False).
  { intros r' m' Hm' Ep.
    apply lookup_alter_Some in Hm' as [(-> & m0 & Hm0 & ->)|[Hne Hm']].
    - cbn in Ep. congruence.
    - by apply Hne; symmetry; apply (Huniq r' m'). }
  destruct (stopThrows (plat w)); unfold orphaned; cbn;
    (split; [lia|]); (split; [by rewrite lookup_insert_ne|]);
    intros r' m' Hm' Ep; by destruct (Hnone r' m' Hm' Ep).
Qed.

(** ** The claims *)

(** After start, stop and a second stop, where [recorder.stop()] does
    nothing on an inactive recorder, the second promise is orphaned. *)
Lemma second_stop_orphaned :
  orphaned 7 (run (granted_start ++ [EStop; EStopEvent 4; EStop])
                (initialWorld false)).
Proof.
  split; [by vm_compute|]. split; [by vm_compute|].
  intros r m Hm Hon.
  destruct (decide (r = 4%positive)) as [->|Hne].
  - vm_compute in Hm. by injection Hm as <-.
  - exfalso. revert Hm.
    change (recorders _) with
      (<[4%positive:=mkRecorder 1 inactive (Some 7%positive) false]>
         (∅ : gmap positive MediaRecorder)).
    by rewrite lookup_insert_ne, lookup_empty.
Qed.

(** C1 (as the code has it). While every start is issued when
    [isRecording] is false and no device request is pending, and on a
    platform that fires its intervals on time: during a session exactly one
    interval is live, it was set with a delay of 1000 ms, and
    [recordingTime] is the number of whole seconds since it was set; each
    firing adds exactly 1 and changes nothing else, so a second of
    wall-clock time adds exactly 1, whether or not the session is paused.
    When [isRecording] is false no interval is live and neither a timer
    event nor the passing of time changes the status.  A [stopRecording]
    that is rejected, because the recorder has gone inactive by itself and
    [recorder.stop()] throws, ends nothing: the status and the interval
    stay, and the count goes on. *)
Theorem C1_elapsed_ticks (throws : bool) (ts : list Timed) :
  timed_trace ts (initialWorld throws) = true →
  let w := timed_run ts (initialWorld throws) in
  (isRecording (state w) = true →
   ∃ i t0,
     intervals (plat w) = {[i]} ∧
     timers (plat w) !! i = Some (1000, t0) ∧
     t0 ≤ clock (plat w) ∧
     recordingTime (state w) = (clock (plat w) - t0) / 1000 ∧
     step (ETick i) w =
       with_state (λ s, mkState (isRecording s) (isPaused s)
                                (recordingTime s + 1) (audioLevel s)) w ∧
     ∀ k, state (timed_step (Wait (1000 * k)) w) =
          mkState true (isPaused (state w)) (recordingTime (state w) + k)
                  (audioLevel (state w))) ∧
  (isRecording (state w) = false →
   intervals (plat w) = ∅ ∧
   (∀ j, step (ETick j) w = w) ∧
   ∀ ms, state (timed_step (Wait ms) w) = state w) ∧
  (∀ r, isRecording (state w) = true →
        mediaRecorderRef (refs w) = Some r →
        recorder_state r w = inactive → stopThrows (plat w) = true →
        state (step EStop w) = state w ∧
        intervals (plat (step EStop w)) = intervals (plat w) ∧
        ∀ k, state (timed_step (Wait (1000 * k)) (step EStop w)) =
             mkState true (isPaused (state w)) (recordingTime (state w) + k)
                     (audioLevel (state w))).
Proof.
  intros Hui w. destruct (timed_run_inv throws ts Hui) as [Hs Hc].
  fold w in Hs, Hc. split; [|split].
  - intros Hrec. destruct (session_intervals w Hs Hrec) as (i & Ei & Eint).
    destruct (Hc Hrec) as (i' & t0 & Ei' & Et & Hle & Htime).
    assert (i' = i) as -> by congruence.
    exists i, t0. repeat (split; [done|]). split.
    + unfold step. rewrite Eint. destruct (decide _) as [|Hn]; [done|].
      by destruct Hn; apply elem_of_singleton.
    + intros k. by apply session_seconds.
  - intros Hrec. split; [by apply (ss_idle_intervals w Hs)|]. split.
    + intros j. unfold step. rewrite (ss_idle_intervals w Hs Hrec).
      by destruct (decide _).
    + intros ms. cbn [timed_step].
      destruct (wait_inv ms w Hs Hc)
        as (_ & _ & _ & _ & _ & _ & E5 & E6 & E7 & E8).
      specialize (E8 Hrec).
      destruct (state (Nat.iter ms elapse w)) as [a b c d], (state w).
      cbn in E5, E6, E7, E8. by subst.
  - intros r Hrec Er Hin Hth.
    assert (Est : state (step EStop w) = state w).
    { rewrite step_stop. unfold stopped. by rewrite Er, Hin, Hth. }
    split; [done|]. split.
    { rewrite step_stop. unfold stopped. by rewrite Er, Hin, Hth. }
    intros k.
    destruct (timed_step_inv (Task EStop) w eq_refl Hs Hc) as [Hs' Hc'].
    cbn [timed_step] in Hs', Hc' |- *.
    rewrite (session_seconds (step EStop w) k Hs' Hc') by by rewrite Est.
    by rewrite Est.
Qed.

Lemma C1_elapsed_ticks_witness :
  recordingTime
    (state (timed_step (Wait (1000 * 2))
              (timed_run (map Task granted_start ++
                          [Wait 400; Task EPause; Wait 700])
                 (initialWorld false)))) = 1 + 2 ∧
  isPaused
    (state (timed_step (Wait (1000 * 2))
              (timed_run (map Task granted_start ++
                          [Wait 400; Task EPause; Wait 700])
                 (initialWorld false)))) = true ∧
  recordingTime
    (state (timed_step (Wait (1000 * 2))
              (step EStop
                 (timed_run (map Task granted_start ++
                             [Wait 1500; Task (ETrackEnded 1)])
                    (initialWorld true))))) = 1 + 2 ∧
  intervals
    (plat (timed_run (map Task granted_start ++ [Wait 1500; Task EStop])
             (initialWorld false))) = ∅.
Proof.
  assert (T1 : timed_trace (map Task granted_start ++
                            [Wait 400; Task EPause; Wait 700])
                 (initialWorld false) = true) by (vm_compute; reflexivity).
  assert (T2 : timed_trace (map Task granted_start ++
                            [Wait 1500; Task (ETrackEnded 1)])
                 (initialWorld true) = true) by (vm_compute; reflexivity).
  assert (T3 : timed_trace (map Task granted_start ++
                            [Wait 1500; Task EStop])
                 (initialWorld false) = true) by (vm_compute; reflexivity).
  assert (R1 : isRecording
                 (state (timed_run (map Task granted_start ++
                                    [Wait 400; Task EPause; Wait 700])
                           (initialWorld false))) = true)
    by (vm_compute; reflexivity).
  assert (R2 : isRecording
                 (state (timed_run (map Task granted_start ++
                                    [Wait 1500; Task (ETrackEnded 1)])
                           (initialWorld true))) = true)
    by (vm_compute; reflexivity).
  assert (R3 : isRecording
                 (state (timed_run (map Task granted_start ++
                                    [Wait 1500; Task EStop])
                           (initialWorld false))) = false)
    by (vm_compute; reflexivity).
  assert (M2 : mediaRecorderRef
                 (refs (timed_run (map Task granted_start ++
                                   [Wait 1500; Task (ETrackEnded 1)])
                          (initialWorld true))) = Some 4%positive)
    by (vm_compute; reflexivity).
  assert (S2 : recorder_state 4
                 (timed_run (map Task granted_start ++
                             [Wait 1500; Task (ETrackEnded 1)])
                    (initialWorld true)) = inactive)
    by (vm_compute; reflexivity).
  assert (P2 : stopThrows
                 (plat (timed_run (map Task granted_start ++
                                   [Wait 1500; Task (ETrackEnded 1)])
                          (initialWorld true))) = true)
    by (vm_compute; reflexivity).
  pose proof (proj1 (C1_elapsed_ticks false _ T1) R1) as (i & t0 & H1).
  pose proof (proj2 (proj2 (C1_elapsed_ticks true _ T2))
                4%positive R2 M2 S2 P2) as (_ & _ & H2).
  pose proof (proj1 (proj2 (C1_elapsed_ticks false _ T3)) R3) as (H3 & _).
  destruct H1 as (_ & _ & _ & _ & _ & H1).
  split; [rewrite (H1 2); vm_compute; reflexivity|].
  split; [rewrite (H1 2); vm_compute; reflexivity|].
  split; [rewrite (H2 2); vm_compute; reflexivity|exact H3].
Defined.

(** C1, the claim as stated fails: the session is paused and a second of
    wall-clock time still adds a second; and on a platform where
    [recorder.stop()] throws on an inactive recorder, a session whose device
    was unplugged goes on counting after [stopRecording]. *)
Lemma C1_elapsed_ticks_counterexample :
  isRecording (state (timed_run (map Task granted_start ++ [Task EPause])
                        (initialWorld false))) = true ∧
  isPaused (state (timed_run (map Task granted_start ++ [Task EPause])
                     (initialWorld false))) = true ∧
  recordingTime (state (timed_run (map Task granted_start ++ [Task EPause])
                          (initialWorld false))) = 0 ∧
  recordingTime
    (state (timed_run (map Task granted_start ++ [Task EPause; Wait 1000])
              (initialWorld false))) = 1 ∧
  recordingTime
    (state (timed_run (map Task granted_start ++
                       [Task (ETrackEnded 1); Task EStop])
              (initialWorld true))) = 0 ∧
  recordingTime
    (state (timed_run (map Task granted_start ++
                       [Task (ETrackEnded 1); Task EStop; Wait 1000])
              (initialWorld true))) = 1.
Proof. by vm_compute. Qed.

(** C2 (as the code has it). With a recorder in [mediaRecorderRef]:
    when that recorder is active, [stopRecording] stops it, clears the
    interval in [intervalRef], cancels the frame request in
    [animationFrameRef] and closes the context in [audioContextRef], each by
    one call, so the log gains exactly one [close] of that context; when
    [recorder.stop()] throws, the promise is rejected and no cleanup step
    runs: status, intervals, frame requests and contexts are as before. *)
Theorem C2_stop_cleanup (w : World) (r : positive) :
  mediaRecorderRef (refs w) = Some r →
  (recorder_state r w ≠ inactive →
   recorder_state r (step EStop w) = inactive ∧
   intervals (plat (step EStop w)) =
     intervals (plat w) ∖ opt_set (intervalRef (refs w)) ∧
   frames (plat (step EStop w)) =
     opt_delete (animationFrameRef (refs w)) (frames (plat w)) ∧
   contexts (plat (step EStop w)) =
     opt_close (audioContextRef (refs w)) (contexts (plat w)) ∧
   calls (plat (step EStop w)) =
     calls (plat w) ++ [RecorderStop r] ++
     opt_call ClearInterval (intervalRef (refs w)) ++
     opt_call CancelAnimationFrame (animationFrameRef (refs w)) ++
     opt_call ContextClose (audioContextRef (refs w)) ∧
   (∀ x, audioContextRef (refs w) = Some x →
         count_call (ContextClose x) (calls (plat (step EStop w))) =
         S (count_call (ContextClose x) (calls (plat w))))) ∧
  (recorder_state r w = inactive → stopThrows (plat w) = true →
   promises (plat (step EStop w)) !! nextHandle (plat w) = Some rejected ∧
   state (step EStop w) = state w ∧
   intervals (plat (step EStop w)) = intervals (plat w) ∧
   frames (plat (step EStop w)) = frames (plat w) ∧
   contexts (plat (step EStop w)) = contexts (plat w) ∧
   calls (plat (step EStop w)) = calls (plat w) ++ [RecorderStop r]).
Proof.
  intros Er. rewrite step_stop. unfold stopped. rewrite Er. split.
  - intros Hs.
    assert (E : match recorder_state r w with
                | inactive =>
                    if stopThrows (plat w)
                    then stop_thrown r (nextHandle (plat w)) w
                    else cleaned r (nextHandle (plat w))
                           (alter (set_mr_onstop (Some (nextHandle (plat w))))
                              r (recorders (plat w))) w
                | _ => cleaned r (nextHandle (plat w))
                         (alter (set_mr_state inactive true) r
                            (alter (set_mr_onstop (Some (nextHandle (plat w))))
                               r (recorders (plat w)))) w
                end
                = cleaned r (nextHandle (plat w))
                    (alter (set_mr_state inactive true) r
                       (alter (set_mr_onstop (Some (nextHandle (plat w))))
                          r (recorders (plat w)))) w).
    { by destruct (recorder_state r w). }
    rewrite E. clear E. split; [apply cleaned_recorder_state|].
    repeat (split; [reflexivity|]).
    intros x Ex. cbn [cleaned plat calls]. rewrite Ex.
    rewrite !count_call_app, !count_call_opt by done.
    cbn [opt_call count_call foldr Call_eqb]. rewrite Pos.eqb_refl. lia.
  - intros Hs Ht. rewrite Hs, Ht. cbn.
    split; [by rewrite lookup_insert_eq|done].
Qed.

Lemma C2_stop_cleanup_witness :
  recorder_state 4 (step EStop (run granted_start (initialWorld false)))
  = inactive ∧
  count_call (ContextClose 2)
    (calls (plat (step EStop (run granted_start (initialWorld false))))) = 1 ∧
  promises
    (plat (step EStop
             (run (granted_start ++ [ETrackEnded 1]) (initialWorld true))))
    !! 6%positive = Some rejected ∧
  intervals
    (plat (step EStop
             (run (granted_start ++ [ETrackEnded 1]) (initialWorld true))))
  = intervals
      (plat (run (granted_start ++ [ETrackEnded 1]) (initialWorld true))).
Proof.
  pose proof (C2_stop_cleanup (run granted_start (initialWorld false))
                4%positive eq_refl) as [Hactive _].
  pose proof (C2_stop_cleanup
                (run (granted_start ++ [ETrackEnded 1]) (initialWorld true))
                4%positive eq_refl) as [_ Hthrow].
  destruct Hactive as (H1 & _ & _ & _ & _ & H6);
    [vm_compute; discriminate|].
  destruct Hthrow as (H7 & _ & H8 & _); [reflexivity|reflexivity|].
  split; [exact H1|]. split; [exact (H6 2%positive eq_refl)|].
  split; [exact H7|exact H8].
Defined.

(** C2, the claim as stated fails.  After a complete session the stream, 1,
    is still live and no call ever stopped its track.  And where
    [recorder.stop()] throws on an inactive recorder, a stop after the
    device was unplugged is rejected and releases nothing: interval 5 still
    fires, context 2 still runs, the status still says recording. *)
Lemma C2_stop_cleanup_counterexample :
  1%positive ∈ streams (plat (run (granted_start ++ [EStop; EStopEvent 4])
                                (initialWorld false))) ∧
  count_call (TrackStop 1)
    (calls (plat (run (granted_start ++ [EStop; EStopEvent 4])
                    (initialWorld false)))) = 0 ∧
  promises (plat (run (granted_start ++ [ETrackEnded 1; EStop])
                    (initialWorld true))) !! 6%positive = Some rejected ∧
  elements (intervals (plat (run (granted_start ++ [ETrackEnded 1; EStop])
                               (initialWorld true)))) = [5%positive] ∧
  contexts (plat (run (granted_start ++ [ETrackEnded 1; EStop])
                    (initialWorld true))) !! 2%positive = Some true ∧
  isRecording (state (run (granted_start ++ [ETrackEnded 1; EStop])
                        (initialWorld true))) = true.
Proof.
  split; [|by vm_compute].
  apply elem_of_elements. vm_compute. left.
Qed.

(** C3, at the failing input start, stop, stop: the first stop is fulfilled
    with the payload once the stop event of the recorder, 4, has fired; the
    promise of the second stop, 7, is left pending, or rejected where
    [recorder.stop()] throws on an inactive recorder, and whatever happens
    later it stays so: it is never fulfilled, with [null] or otherwise. *)
Theorem C3_second_stop (throws : bool) (es : list Event) :
  promises (plat (run (granted_start ++ [EStop; EStopEvent 4; EStop])
                    (initialWorld throws))) !! 6%positive
  = Some (fulfilled (Some (newBlob [] "audio/wav"))) ∧
  promises (plat (run es
                    (run (granted_start ++ [EStop; EStopEvent 4; EStop])
                       (initialWorld throws)))) !! 7%positive
  = Some (if throws then rejected else pending).
Proof.
  split; [by destruct throws; vm_compute|]. destruct throws.
  - apply run_promise_settled; by vm_compute.
  - apply run_orphaned, second_stop_orphaned.
Qed.

(** C4 (as the code has it). After a granted [startRecording] the status is
    [isRecording:true], [recordingTime:0], [isPaused] as it was before the
    call, and [audioLevel] the first sample of the 128-bin frame; the
    operation itself returns normally. *)
Theorem C4_start_status (c : Closure) (w : World) :
  fst (startRecording c Granted w) = Ret tt ∧
  state (exec (startRecording c Granted) w) =
  mkState true (isPaused (state w)) 0
    (normalizedLevel
       (byte_sum (getByteFrequencyData 128 (spectrum (plat w)))) 128).
Proof. unfold exec. by rewrite startRecording_granted. Qed.

(** C4, the claim as stated fails: started while paused, the new session
    still shows [isPaused:true]. *)
Lemma C4_start_status_counterexample :
  state (run (granted_start ++ [EPause] ++ granted_start)
           (initialWorld false))
  ≠ mkState true false 0 0%Q ∧
  isPaused (state (run (granted_start ++ [EPause] ++ granted_start)
                     (initialWorld false))) = true.
Proof.
  split; [|by vm_compute].
  intros E. apply (f_equal isPaused) in E. vm_compute in E. discriminate.
Qed.

(** C5 (as the code has it). After every sequence of events the level lies
    in [0,1]; a sample taken in any such state is
    [min(average / 128, 1)] over the 128-byte frame the analyser holds; and
    while every start is issued when [isRecording] is false and no device
    request is pending, [isRecording] false implies level 0. *)
Theorem C5_level (throws : bool) (es : list Event) (c : Closure) :
  (0 <= audioLevel (state (run es (initialWorld throws))) <= 1)%Q ∧
  (analyserRef (refs (run es (initialWorld throws))) ≠ None →
   fst (updateAudioLevel c (run es (initialWorld throws))) = Ret tt ∧
   audioLevel (state (exec (updateAudioLevel c)
                        (run es (initialWorld throws)))) =
   Qmin (inject_Z (Z.of_N (byte_sum
            (getByteFrequencyData 128
               (spectrum (plat (run es (initialWorld throws)))))))
         / inject_Z (Z.of_nat (length
            (getByteFrequencyData 128
               (spectrum (plat (run es (initialWorld throws)))))))
         / 128) 1) ∧
  (ui_trace es (initialWorld throws) = true →
   isRecording (state (run es (initialWorld throws))) = false →
   (audioLevel (state (run es (initialWorld throws))) == 0)%Q).
Proof.
  pose proof (run_reachable_inv throws es) as [Hp Hl Hb Hn Hr].
  split; [done|]. split.
  - intros Ha. unfold exec. rewrite updateAudioLevel_eq.
    destruct (analyserRef _) as [a|] eqn:Ea; [|done].
    unfold frequencyBinCount. rewrite (Hb a eq_refl).
    change (default 0 (Some 256) / 2) with 128.
    split; [done|]. rewrite getByteFrequencyData_length.
    unfold sampled. by destruct (loops c).
  - intros Hui. apply run_single_session in Hui. by destruct Hui.
Qed.

Lemma C5_level_witness :
  (audioLevel (state (run (EAudio [xff] :: granted_start ++ [EStop])
                        (initialWorld false))) == 0)%Q ∧
  fst (updateAudioLevel (mkClosure true false)
         (run (EAudio [xff] :: granted_start ++ [EStop])
            (initialWorld false)))
  = Ret tt.
Proof.
  pose proof (C5_level false (EAudio [xff] :: granted_start ++ [EStop])
                (mkClosure true false)) as (_ & Hs & Hz).
  split.
  - apply Hz; reflexivity.
  - apply Hs. vm_compute. discriminate.
Defined.

(** C5, the claim as stated fails: two more starts during a session leave
    two metering loops behind, frame requests 11 and 17, which reschedule
    themselves as 18 and 19; [stopRecording] cancels 19, the one in
    [animationFrameRef], and 18 publishes a level above 0 after the stop. *)
Lemma C5_level_counterexample :
  frames (plat (run (granted_start ++ granted_start ++ granted_start ++
                     [EAudio [xff]; EFrame 11; EFrame 17; EStop])
                  (initialWorld false))) !! 18%positive
  = Some (mkClosure true false) ∧
  isRecording (state (run (granted_start ++ granted_start ++ granted_start ++
                           [EAudio [xff]; EFrame 11; EFrame 17; EStop;
                            EFrame 18])
                        (initialWorld false))) = false ∧
  ¬ (audioLevel
       (state (run (granted_start ++ granted_start ++ granted_start ++
                    [EAudio [xff]; EFrame 11; EFrame 17; EStop; EFrame 18])
                 (initialWorld false))) == 0)%Q.
Proof.
  split; [by vm_compute|]. split; [by vm_compute|].
  intros E. vm_compute in E. discriminate.
Qed.

(** C6 (as the code has it). When the device request is rejected,
    [startRecording] logs the error and returns normally; the status, the
    refs and every timer, frame request, recorder, context, stream, promise
    and pending request are as before. *)
Theorem C6_denied_start (c : Closure) (w : World) :
  fst (startRecording c Denied w) = Ret tt ∧
  state (exec (startRecording c Denied) w) = state w ∧
  refs (exec (startRecording c Denied) w) = refs w ∧
  intervals (plat (exec (startRecording c Denied) w)) = intervals (plat w) ∧
  frames (plat (exec (startRecording c Denied) w)) = frames (plat w) ∧
  recorders (plat (exec (startRecording c Denied) w)) = recorders (plat w) ∧
  contexts (plat (exec (startRecording c Denied) w)) = contexts (plat w) ∧
  streams (plat (exec (startRecording c Denied) w)) = streams (plat w) ∧
  promises (plat (exec (startRecording c Denied) w)) = promises (plat w) ∧
  requests (plat (exec (startRecording c Denied) w)) = requests (plat w) ∧
  calls (plat (exec (startRecording c Denied) w)) =
  calls (plat w) ++ [ConsoleError].
Proof. unfold exec. by rewrite startRecording_denied. Qed.

(** C6, the claim as stated fails: the caller of a denied start gets the
    same normal return as the caller of a granted one, and no error value. *)
Lemma C6_denied_start_counterexample :
  fst (startRecording (render initialState) Denied (initialWorld false))
  = Ret tt ∧
  fst (startRecording (render initialState) Denied (initialWorld false))
  = fst (startRecording (render initialState) Granted (initialWorld false)) ∧
  (∀ e, fst (startRecording (render initialState) Denied (initialWorld false))
        ≠ Throw e).
Proof.
  rewrite startRecording_denied, startRecording_granted. by repeat split.
Qed.

(** C7 (as the code has it). [startRecording] tears nothing down: every
    interval that was live before it is live after it.  Resources of two
    sessions are never live together only while every start is issued when
    [isRecording] is false and no device request is pending: then every live
    interval is the one in [intervalRef], every active recorder the one in
    [mediaRecorderRef], every running context the one in [audioContextRef],
    and no frame request is pending. *)
Theorem C7_one_session_at_a_time
    (throws : bool) (es : list Event) (c : Closure) (o : Outcome) (w : World) :
  intervals (plat w) ⊆ intervals (plat (exec (startRecording c o) w)) ∧
  (ui_trace es (initialWorld throws) = true →
   (∀ i, i ∈ intervals (plat (run es (initialWorld throws))) →
         intervalRef (refs (run es (initialWorld throws))) = Some i) ∧
   (∀ r m, recorders (plat (run es (initialWorld throws))) !! r = Some m →
           mr_state m ≠ inactive →
           mediaRecorderRef (refs (run es (initialWorld throws))) = Some r) ∧
   (∀ x, contexts (plat (run es (initialWorld throws))) !! x = Some true →
         audioContextRef (refs (run es (initialWorld throws))) = Some x) ∧
   frames (plat (run es (initialWorld throws))) = ∅).
Proof.
  split.
  - unfold exec. destruct o.
    + rewrite startRecording_granted. cbn. apply union_subseteq_r.
    + by rewrite startRecording_denied.
  - intros Hui. apply run_single_session in Hui. by destruct Hui.
Qed.

Lemma C7_one_session_at_a_time_witness :
  (∀ i, i ∈ intervals (plat (run (granted_start ++ [EStop] ++ granted_start)
                               (initialWorld false))) →
        intervalRef (refs (run (granted_start ++ [EStop] ++ granted_start)
                             (initialWorld false))) = Some i) ∧
  frames (plat (run (granted_start ++ [EStop] ++ granted_start)
                  (initialWorld false))) = ∅.
Proof.
  pose proof (proj2 (C7_one_session_at_a_time false
    (granted_start ++ [EStop] ++ granted_start)
    (render initialState) Granted (initialWorld false)) eq_refl)
    as (H1 & _ & _ & H4).
  by split.
Defined.

(** C7, the claim as stated fails: a second start during a session leaves
    two intervals (5, 10), two recorders (4, 9) and two contexts (2, 7)
    live, and a second of wall-clock time adds 2.  So do two starts issued
    before the device answers the first, both while [isRecording] is
    false. *)
Lemma C7_one_session_at_a_time_counterexample :
  elements (intervals (plat (run (granted_start ++ granted_start)
                               (initialWorld false)))) = [5; 10]%positive ∧
  recorder_state 4 (run (granted_start ++ granted_start) (initialWorld false))
  = recording ∧
  recorder_state 9 (run (granted_start ++ granted_start) (initialWorld false))
  = recording ∧
  contexts (plat (run (granted_start ++ granted_start) (initialWorld false)))
    !! 2%positive = Some true ∧
  contexts (plat (run (granted_start ++ granted_start) (initialWorld false)))
    !! 7%positive = Some true ∧
  recordingTime (state (run (granted_start ++ granted_start ++
                             [ETick 5; ETick 10]) (initialWorld false))) = 2 ∧
  isRecording (state (run [EStart] (initialWorld false))) = false ∧
  elements (intervals (plat (run [EStart; EStart; EDevice 0 Granted;
                                  EDevice 0 Granted] (initialWorld false))))
  = [5; 10]%positive.
Proof. by vm_compute. Qed.

(** C8. [isPaused] true implies [isRecording] true: in the initial status,
    across every operation and callback from any status where it holds, and
    therefore after every sequence of calls and callbacks. *)
Theorem C8_paused_implies_recording
    (throws : bool) (es : list Event) (w : World) (e : Event) :
  (isPaused (state (initialWorld throws)) = true →
   isRecording (state (initialWorld throws)) = true) ∧
  ((isPaused (state w) = true → isRecording (state w) = true) →
   isPaused (state (step e w)) = true →
   isRecording (state (step e w)) = true) ∧
  (isPaused (state (run es (initialWorld throws))) = true →
   isRecording (state (run es (initialWorld throws))) = true).
Proof.
  split; [done|]. split; [apply step_paused_recording|].
  apply run_reachable_inv.
Qed.

Lemma C8_paused_implies_recording_witness :
  isRecording (state (run (granted_start ++ [EPause]) (initialWorld false)))
  = true.
Proof.
  apply (proj2 (proj2 (C8_paused_implies_recording false
           (granted_start ++ [EPause]) (initialWorld false) EPause))).
  vm_compute. reflexivity.
Defined.

(** C9 (as the code has it). [stopRecording] leaves
    [{isRecording:false, isPaused:false, audioLevel:0}] and the
    [recordingTime] it found whenever it gets past [recorder.stop()]: a
    recorder is in [mediaRecorderRef], as in every session, and it is still
    active or [recorder.stop()] does nothing on an inactive recorder.  When
    the session's recorder has gone inactive by itself and
    [recorder.stop()] throws, the status stays as it was, [isRecording]
    true.  [recordingTime] becomes 0 when the device request of a start is
    granted, and at no other event: every other event leaves it as it is, or
    adds one when it is a live tick. *)
Theorem C9_stop_keeps_elapsed
    (throws : bool) (es : list Event) (w : World) (e : Event) :
  state (step EStop w) =
    match mediaRecorderRef (refs w) with
    | Some r =>
        match recorder_state r w, stopThrows (plat w) with
        | inactive, true => state w
        | _, _ => mkState false false (recordingTime (state w)) 0%Q
        end
    | None => state w
    end ∧
  (isRecording (state (run es (initialWorld throws))) = true →
   ∃ r,
     mediaRecorderRef (refs (run es (initialWorld throws))) = Some r ∧
     (recorder_state r (run es (initialWorld throws)) ≠ inactive ∨
      throws = false →
      state (step EStop (run es (initialWorld throws))) =
      mkState false false
        (recordingTime (state (run es (initialWorld throws)))) 0%Q) ∧
     (recorder_state r (run es (initialWorld throws)) = inactive →
      throws = true →
      state (step EStop (run es (initialWorld throws))) =
      state (run es (initialWorld throws)))) ∧
  recordingTime (state (step e w)) =
  match e with
  | EDevice k Granted =>
      match requests (plat w) !! k with
      | Some _ => 0
      | None => recordingTime (state w)
      end
  | ETick i =>
      if decide (i ∈ intervals (plat w)) then S (recordingTime (state w))
      else recordingTime (state w)
  | _ => recordingTime (state w)
  end.
Proof.
  assert (Hstop : ∀ w', state (step EStop w') =
    match mediaRecorderRef (refs w') with
    | Some r =>
        match recorder_state r w', stopThrows (plat w') with
        | inactive, true => state w'
        | _, _ => mkState false false (recordingTime (state w')) 0%Q
        end
    | None => state w'
    end).
  { intros w'. rewrite step_stop. unfold stopped.
    destruct (mediaRecorderRef (refs w')) as [r|]; [|done].
    by destruct (recorder_state r w'), (stopThrows (plat w')). }
  split; [apply Hstop|]. split; [|apply step_recordingTime].
  intros Hrec. destruct (run_recording_recorder throws es Hrec) as [r Er].
  pose proof (run_stopThrows throws es) as Hth.
  exists r. split; [done|]. rewrite Hstop, Er, Hth. split.
  - intros [Hs| ->].
    + by destruct (recorder_state r _), throws.
    + by destruct (recorder_state r _).
  - by intros -> ->.
Qed.

Lemma C9_stop_keeps_elapsed_witness :
  state (step EStop (run (granted_start ++ [ETick 5; ETick 5])
                       (initialWorld false)))
  = mkState false false 2 0%Q ∧
  state (step EStop (run (granted_start ++ [ETick 5; ETrackEnded 1])
                       (initialWorld true)))
  = state (run (granted_start ++ [ETick 5; ETrackEnded 1])
             (initialWorld true)) ∧
  recordingTime
    (state (step EPause (run (granted_start ++ [ETick 5; ETick 5])
                           (initialWorld false)))) = 2.
Proof.
  pose proof (C9_stop_keeps_elapsed false
    (granted_start ++ [ETick 5; ETick 5])
    (run (granted_start ++ [ETick 5; ETick 5]) (initialWorld false))
    EPause) as (_ & Hstop & Hother).
  pose proof (C9_stop_keeps_elapsed true
    (granted_start ++ [ETick 5; ETrackEnded 1])
    (initialWorld true) EPause) as (_ & Hdead & _).
  destruct Hstop as (r & Er & Hreset & _); [reflexivity|].
  destruct Hdead as (r' & Er' & _ & Hkept); [reflexivity|].
  split; [|split].
  - rewrite Hreset; [reflexivity|]. by right.
  - apply Hkept; [|reflexivity].
    vm_compute in Er'. injection Er' as <-. reflexivity.
  - rewrite Hother. reflexivity.
Defined.

(** C9, the claim as stated fails: the session is active, its device was
    unplugged, and where [recorder.stop()] throws on an inactive recorder
    [stopRecording] resets nothing: [isRecording] is still true. *)
Lemma C9_stop_keeps_elapsed_counterexample :
  isRecording (state (run (granted_start ++ [ETrackEnded 1])
                        (initialWorld true))) = true ∧
  state (step EStop (run (granted_start ++ [ETrackEnded 1])
                       (initialWorld true)))
  ≠ mkState false false
      (recordingTime (state (run (granted_start ++ [ETrackEnded 1])
                               (initialWorld true)))) 0%Q ∧
  isRecording (state (step EStop (run (granted_start ++ [ETrackEnded 1])
                                    (initialWorld true)))) = true.
Proof.
  split; [by vm_compute|]. split; [|by vm_compute].
  intros E. apply (f_equal isRecording) in E. vm_compute in E. discriminate.
Qed.

(** C10 (as the code has it). When the recorder in [mediaRecorderRef] is
    active, the promise of [stopRecording] stays pending until the
    recorder's stop event and is then fulfilled with the blob of the chunks
    [audioChunksRef] holds at that moment, the ones collected until then: a
    non-null payload even when there is no chunk at all, and it stays.  This
    is so as long as [stopRecording] is not called again while
    [mediaRecorderRef] holds the same recorder: such a call, before the stop
    event, takes the [onstop] handler for its own promise and the first
    promise stays pending whatever follows.  The promise is fulfilled with
    [null] exactly when [mediaRecorderRef] is empty, which after any
    sequence of events means that no recorder was ever created. *)
Theorem C10_stop_payload
    (throws : bool) (es0 es es' : list Event) (r : positive) (w : World) :
  let w0 := run es0 (initialWorld throws) in
  let p := nextHandle (plat w0) in
  (mediaRecorderRef (refs w0) = Some r → recorder_state r w0 ≠ inactive →
   onstop_kept r es (step EStop w0) = true →
   promises (plat (run es (step EStop w0))) !! p = Some pending ∧
   promises (plat (step (EStopEvent r) (run es (step EStop w0)))) !! p =
     Some (fulfilled (Some (newBlob
       (collect es (step EStop w0) (audioChunksRef (refs w0)))
       "audio/wav"))) ∧
   promises (plat (run es' (step (EStopEvent r) (run es (step EStop w0)))))
     !! p =
     Some (fulfilled (Some (newBlob
       (collect es (step EStop w0) (audioChunksRef (refs w0)))
       "audio/wav"))) ∧
   (mediaRecorderRef (refs (run es (step EStop w0))) = Some r →
    promises (plat (run es' (step EStop (run es (step EStop w0))))) !! p =
      Some pending)) ∧
  (promises (plat (step EStop w)) !! nextHandle (plat w)
   = Some (fulfilled None) ↔ mediaRecorderRef (refs w) = None) ∧
  (mediaRecorderRef (refs w0) = None → recorders (plat w0) = ∅).
Proof.
  intros w0 p. split; [|split].
  - intros Er Hs Hk.
    pose proof (stop_awaits r w0 (run_handles_fresh throws es0) Er Hs) as Ha.
    fold p in Ha.
    pose proof (run_awaits_stop p r es _ Ha Hk) as Ha'.
    pose proof (stop_event_fulfils p r _ Ha') as Hful.
    rewrite run_collect, step_chunks in Hful.
    cbn [grants chunk] in Hful. rewrite app_nil_r in Hful.
    split; [by destruct Ha' as (_ & _ & ? & _)|]. split; [done|]. split.
    + apply run_promise_settled; [|done|done].
      destruct Ha' as (Hlt & _).
      pose proof (step_nextHandle (EStopEvent r) (run es (step EStop w0))).
      lia.
    + intros Er'. by apply run_orphaned, (second_stop_orphans p r).
  - rewrite step_stop. unfold stopped.
    destruct (mediaRecorderRef (refs w)) as [r'|].
    + destruct (recorder_state r' w), (stopThrows (plat w)); cbn;
        rewrite lookup_insert_eq; split; discriminate.
    + cbn. by rewrite lookup_insert_eq.
  - apply run_reachable_inv.
Qed.

Lemma C10_stop_payload_witness :
  promises
    (plat (step (EStopEvent 4)
             (run [ETick 5; EDataAvailable 4 (mkBlob [x01] "audio/webm")]
                (step EStop (run granted_start (initialWorld false))))))
    !! nextHandle (plat (run granted_start (initialWorld false)))
  = Some (fulfilled (Some (newBlob [mkBlob [x01] "audio/webm"]
                             "audio/wav"))) ∧
  promises
    (plat (step (EStopEvent 4)
             (run [] (step EStop (run granted_start (initialWorld false))))))
    !! nextHandle (plat (run granted_start (initialWorld false)))
  = Some (fulfilled (Some (newBlob [] "audio/wav"))) ∧
  promises
    (plat (run [EStopEvent 4]
             (step EStop
                (run [] (step EStop (run granted_start (initialWorld false)))))))
    !! nextHandle (plat (run granted_start (initialWorld false)))
  = Some pending ∧
  recorders (plat (run [] (initialWorld false))) = ∅.
Proof.
  pose proof (C10_stop_payload false granted_start
                [ETick 5; EDataAvailable 4 (mkBlob [x01] "audio/webm")]
                [] 4%positive (initialWorld false)) as H.
  cbv zeta in H. destruct H as (H1 & _ & _).
  pose proof (C10_stop_payload false granted_start [] [EStopEvent 4]
                4%positive (initialWorld false)) as H'.
  cbv zeta in H'. destruct H' as (H2 & _ & _).
  pose proof (C10_stop_payload false [] [] [] 1%positive (initialWorld false))
    as H''.
  cbv zeta in H''. destruct H'' as (_ & _ & H3).
  destruct H1 as (_ & H1 & _);
    [reflexivity|vm_compute; discriminate|reflexivity|].
  destruct H2 as (_ & H2 & _ & H2');
    [reflexivity|vm_compute; discriminate|reflexivity|].
  split; [rewrite H1; reflexivity|]. split; [rewrite H2; reflexivity|].
  split; [apply H2'; reflexivity|]. apply H3. reflexivity.
Defined.

(** C10, the claim as stated fails.  After start and stop the recorder, 4,
    exists, and the promise of another stop, 7, is never fulfilled with any
    payload, whatever events follow: it stays pending, or rejected where
    [recorder.stop()] throws.  And the promise of the first stop, 6, issued
    while the recorder was active, is lost when that second stop comes
    before the stop event: it is still pending after the event. *)
Lemma C10_stop_payload_counterexample :
  mediaRecorderRef (refs (run (granted_start ++ [EStop; EStopEvent 4])
                            (initialWorld false))) = Some 4%positive ∧
  (∀ es, promises (plat (run es
            (run (granted_start ++ [EStop; EStopEvent 4; EStop])
               (initialWorld false)))) !! 7%positive = Some pending) ∧
  (∀ es, promises (plat (run es
            (run (granted_start ++ [EStop; EStopEvent 4; EStop])
               (initialWorld true)))) !! 7%positive = Some rejected) ∧
  recorder_state 4 (run granted_start (initialWorld false)) = recording ∧
  promises (plat (run (granted_start ++ [EStop; EStop; EStopEvent 4])
                    (initialWorld false))) !! 6%positive = Some pending ∧
  promises (plat (run (granted_start ++ [EStop; EStop; EStopEvent 4])
                    (initialWorld true))) !! 6%positive = Some pending.
Proof.
  split; [by vm_compute|]. split; [|split; [|by vm_compute]]; intros es.
  - apply run_orphaned, second_stop_orphaned.
  - apply run_promise_settled; by vm_compute.
Qed.

(** ** Pause and resume *)

(** [pauseRecording] as the caller runs it, with the closure of the latest
    render. *)
Lemma step_pause (w : World) :
  step EPause w =
  match mediaRecorderRef (refs w) with
  | Some r =>
      if isRecording (state w) then
        match recorder_state r w with
        | inactive =>
            with_plat (λ p, set_calls (calls p ++ [RecorderPause r]) p) w
        | _ => paused_world r w
        end
      else w
  | None => w
  end.
Proof.
  unfold step, exec. rewrite pauseRecording_eq. cbn [render c_isRecording].
  destruct (mediaRecorderRef (refs w)) as [r|]; [|done].
  destruct (isRecording (state w)); [|done]. by destruct (recorder_state r w).
Qed.

(** The sample [resumeRecording] takes: its closure has [isPaused] true, so
    it asks for no frame. *)
Lemma sampled_paused_closure (b : bool) (n : nat) (w : World) :
  sampled (mkClosure b true) n w =
  with_state (λ s, mkState (isRecording s) (isPaused s) (recordingTime s)
    (normalizedLevel (byte_sum (getByteFrequencyData n (spectrum (plat w)))) n))
    w.
Proof.
  unfold sampled, loops. cbn [c_isRecording c_isPaused negb].
  by rewrite andb_false_r.
Qed.

(** [resumeRecording] as the caller runs it. *)
Lemma step_resume (w : World) :
  step EResume w =
  match mediaRecorderRef (refs w) with
  | Some r =>
      if isPaused (state w) then
        match recorder_state r w with
        | inactive =>
            with_plat (λ p, set_calls (calls p ++ [RecorderResume r]) p) w
        | _ =>
            match analyserRef (refs w) with
            | None => resumed_world r w
            | Some a =>
                match frequencyBinCount a w with
                | 0 => resumed_world r w
                | S n => sampled (mkClosure (isRecording (state w)) true) (S n)
                           (resumed_world r w)
                end
            end
        end
      else w
  | None => w
  end.
Proof.
  unfold step, exec. rewrite resumeRecording_eq. unfold render.
  cbn [c_isPaused].
  destruct (mediaRecorderRef (refs w)) as [r|]; [|done].
  destruct (isPaused (state w)) eqn:Ep; [|done].
  destruct (recorder_state r w) eqn:Es; [done| |];
    rewrite updateAudioLevel_eq; cbn [resumed_world refs];
    (destruct (analyserRef (refs w)) as [a|]; [|done]);
    change (frequencyBinCount a (resumed_world r w))
      with (frequencyBinCount a w);
    by destruct (frequencyBinCount a w).
Qed.

Lemma paused_world_recorder_state (r : positive) (w : World) :
  recorder_state r w ≠ inactive →
  recorder_state r (paused_world r w) = paused.
Proof.
  unfold paused_world, recorder_state. cbn.
  destruct (recorders (plat w) !! r) as [m|] eqn:Em; [|done].
  destruct (mr_state m) eqn:Hs; [done| |]; intros _;
    by rewrite ?lookup_alter_eq, Em.
Qed.

Lemma resumed_world_recorder_state (r : positive) (w : World) :
  recorder_state r w ≠ inactive →
  recorder_state r (resumed_world r w) = recording.
Proof.
  unfold resumed_world, recorder_state. cbn.
  destruct (recorders (plat w) !! r) as [m|] eqn:Em; [|done].
  destruct (mr_state m) eqn:Hs; [done| |]; intros _;
    by rewrite ?lookup_alter_eq, Em.
Qed.

(** X1. While [isRecording] is false, so before the first granted start and
    after every stop, [pauseRecording] and [resumeRecording] do nothing at
    all: no status change, no platform call. *)
Theorem X1_idle_pause_resume (throws : bool) (es : list Event) :
  isRecording (state (run es (initialWorld throws))) = false →
  step EPause (run es (initialWorld throws)) = run es (initialWorld throws) ∧
  step EResume (run es (initialWorld throws)) = run es (initialWorld throws).
Proof.
  intros Hrec. pose proof (run_reachable_inv throws es) as [Hp _ _ _ _].
  rewrite step_pause, step_resume, Hrec.
  destruct (isPaused (state (run es (initialWorld throws)))) eqn:Ep.
  - rewrite Hp in Hrec; done.
  - by destruct (mediaRecorderRef _).
Qed.

Lemma X1_idle_pause_resume_witness :
  step EPause (run (granted_start ++ [EPause; EStop]) (initialWorld false))
  = run (granted_start ++ [EPause; EStop]) (initialWorld false) ∧
  step EResume (run (granted_start ++ [EPause; EStop]) (initialWorld false))
  = run (granted_start ++ [EPause; EStop]) (initialWorld false).
Proof.
  apply (X1_idle_pause_resume false (granted_start ++ [EPause; EStop])).
  reflexivity.
Defined.

(** X2. [pauseRecording] on a recording session sets [isPaused], pauses the
    recorder itself and cancels the frame request held in
    [animationFrameRef].  It leaves [isRecording], the elapsed time, the
    level, every ref, the interval timer, the audio context and the stream
    as they are. *)
Theorem X2_pause_session (w : World) (r : positive) :
  mediaRecorderRef (refs w) = Some r →
  isRecording (state w) = true →
  recorder_state r w = recording →
  state (step EPause w) =
    mkState true true (recordingTime (state w)) (audioLevel (state w)) ∧
  recorder_state r (step EPause w) = paused ∧
  frames (plat (step EPause w)) =
    opt_delete (animationFrameRef (refs w)) (frames (plat w)) ∧
  refs (step EPause w) = refs w ∧
  intervals (plat (step EPause w)) = intervals (plat w) ∧
  contexts (plat (step EPause w)) = contexts (plat w) ∧
  streams (plat (step EPause w)) = streams (plat w) ∧
  calls (plat (step EPause w)) =
    calls (plat w) ++ [RecorderPause r] ++
    opt_call CancelAnimationFrame (animationFrameRef (refs w)).
Proof.
  intros Er Hrec Hs. rewrite step_pause, Er, Hrec, Hs.
  split; [unfold paused_world; by rewrite Hrec|].
  split; [apply paused_world_recorder_state; by rewrite Hs|].
  unfold paused_world. by rewrite Hs.
Qed.

Lemma X2_pause_session_witness :
  isPaused
    (state (step EPause
              (run (granted_start ++ [ETick 5]) (initialWorld false))))
  = true ∧
  recordingTime
    (state (step EPause
              (run (granted_start ++ [ETick 5]) (initialWorld false))))
  = 1 ∧
  recorder_state 4
    (step EPause (run (granted_start ++ [ETick 5]) (initialWorld false)))
  = paused.
Proof.
  pose proof (X2_pause_session
    (run (granted_start ++ [ETick 5]) (initialWorld false)) 4%positive
    eq_refl eq_refl eq_refl) as (H1 & H2 & _).
  rewrite H1. split; [reflexivity|]. split; [reflexivity|exact H2].
Defined.

(** X3. A second [pauseRecording] in a row changes nothing but the call log:
    status, refs, recorders, frame requests, timers, contexts, streams and
    promises are as the first one left them.  This holds from every state,
    also where the first call does nothing or throws. *)
Theorem X3_pause_twice (w : World) :
  state (step EPause (step EPause w)) = state (step EPause w) ∧
  refs (step EPause (step EPause w)) = refs (step EPause w) ∧
  recorders (plat (step EPause (step EPause w))) =
    recorders (plat (step EPause w)) ∧
  frames (plat (step EPause (step EPause w))) =
    frames (plat (step EPause w)) ∧
  intervals (plat (step EPause (step EPause w))) =
    intervals (plat (step EPause w)) ∧
  contexts (plat (step EPause (step EPause w))) =
    contexts (plat (step EPause w)) ∧
  streams (plat (step EPause (step EPause w))) =
    streams (plat (step EPause w)) ∧
  promises (plat (step EPause (step EPause w))) =
    promises (plat (step EPause w)).
Proof.
  rewrite (step_pause w).
  destruct (mediaRecorderRef (refs w)) as [r|] eqn:Er;
    [|by rewrite step_pause, Er].
  destruct (isRecording (state w)) eqn:Hrec;
    [|by rewrite step_pause, Er, Hrec].
  pose proof (paused_world_recorder_state r w) as Hp.
  destruct (recorder_state r w) eqn:Hs.
  - rewrite step_pause. cbn [with_plat refs state]. rewrite Er, Hrec.
    change (recorder_state r (with_plat _ w)) with (recorder_state r w).
    by rewrite Hs.
  - rewrite step_pause. cbn [paused_world refs state isRecording].
    rewrite Er, Hrec, Hp by done. unfold paused_world at 1 3 5 7 9 11.
    rewrite Hp by done. cbn. rewrite Hrec.
    repeat split; try done.
    destruct (animationFrameRef (refs w)); cbn; by rewrite ?delete_delete_eq.
  - rewrite step_pause. cbn [paused_world refs state isRecording].
    rewrite Er, Hrec, Hp by done. unfold paused_world at 1 3 5 7 9 11.
    rewrite Hp by done. cbn. rewrite Hrec.
    repeat split; try done.
    destruct (animationFrameRef (refs w)); cbn; by rewrite ?delete_delete_eq.
Qed.

(** X4. [resumeRecording] on a paused session clears [isPaused], resumes the
    recorder and publishes one level sample of the current frame; it makes
    one platform call, [recorder.resume()], and leaves [isRecording], the
    elapsed time, the refs, the timers and the frame requests as they
    are. *)
Theorem X4_resume_session (w : World) (r a : positive) :
  mediaRecorderRef (refs w) = Some r →
  isPaused (state w) = true →
  recorder_state r w = paused →
  analyserRef (refs w) = Some a →
  analysers (plat w) !! a = Some 256 →
  state (step EResume w) =
    mkState (isRecording (state w)) false (recordingTime (state w))
      (normalizedLevel
         (byte_sum (getByteFrequencyData 128 (spectrum (plat w)))) 128) ∧
  recorder_state r (step EResume w) = recording ∧
  refs (step EResume w) = refs w ∧
  intervals (plat (step EResume w)) = intervals (plat w) ∧
  frames (plat (step EResume w)) = frames (plat w) ∧
  calls (plat (step EResume w)) = calls (plat w) ++ [RecorderResume r].
Proof.
  intros Er Hp Hs Ea Hbins. rewrite step_resume, Er, Hp, Hs, Ea.
  unfold frequencyBinCount. rewrite Hbins.
  change (default 0 (Some 256) / 2) with 128. cbv beta iota.
  rewrite sampled_paused_closure.
  split; [done|].
  split; [apply resumed_world_recorder_state; by rewrite Hs|].
  unfold resumed_world. by rewrite Hs.
Qed.

Lemma X4_resume_session_witness :
  isPaused
    (state (step EResume
              (run (granted_start ++ [EPause]) (initialWorld false))))
  = false ∧
  recorder_state 4
    (step EResume (run (granted_start ++ [EPause]) (initialWorld false)))
  = recording.
Proof.
  pose proof (X4_resume_session
    (run (granted_start ++ [EPause]) (initialWorld false))
    4%positive 3%positive eq_refl eq_refl eq_refl eq_refl eq_refl)
    as (H1 & H2 & _).
  rewrite H1. split; [reflexivity|exact H2].
Defined.

(** X5. [resumeRecording] never restarts the metering loop: from every
    state, it requests no animation frame, so the pending frame requests,
    [animationFrameRef] and the number of [requestAnimationFrame] calls in
    the log are as before.  The sample it takes runs in a closure whose
    [isPaused] is true. *)
Theorem X5_resume_requests_no_frame (w : World) (f : positive) :
  frames (plat (step EResume w)) = frames (plat w) ∧
  animationFrameRef (refs (step EResume w)) = animationFrameRef (refs w) ∧
  count_call (RequestAnimationFrame f) (calls (plat (step EResume w))) =
  count_call (RequestAnimationFrame f) (calls (plat w)).
Proof.
  rewrite step_resume.
  destruct (mediaRecorderRef (refs w)) as [r|]; [|done].
  destruct (isPaused (state w)); [|done].
  assert (Hres : frames (plat (resumed_world r w)) = frames (plat w) ∧
    animationFrameRef (refs (resumed_world r w)) =
      animationFrameRef (refs w) ∧
    count_call (RequestAnimationFrame f) (calls (plat (resumed_world r w))) =
    count_call (RequestAnimationFrame f) (calls (plat w))).
  { unfold resumed_world.
    cbn [plat refs frames calls animationFrameRef set_calls set_recorders].
    repeat split. rewrite count_call_app. cbn. lia. }
  destruct (recorder_state r w);
    [cbn [with_plat plat refs frames calls set_calls];
     rewrite count_call_app; cbn; repeat split; lia| |];
    (destruct (analyserRef (refs w)) as [a|]; [|done]);
    (destruct (frequencyBinCount a w); [done|]);
    by rewrite sampled_paused_closure.
Qed.

(** X6. Pause followed by resume on a recording session: the session records
    again ([isPaused] false, recorder recording) with the elapsed time, the
    refs and the interval timer untouched, but the frame request that
    [pauseRecording] cancelled is not replaced. *)
Theorem X6_pause_then_resume (w : World) (r a : positive) :
  mediaRecorderRef (refs w) = Some r →
  isRecording (state w) = true →
  recorder_state r w = recording →
  analyserRef (refs w) = Some a →
  analysers (plat w) !! a = Some 256 →
  isRecording (state (step EResume (step EPause w))) = true ∧
  isPaused (state (step EResume (step EPause w))) = false ∧
  recordingTime (state (step EResume (step EPause w))) =
    recordingTime (state w) ∧
  recorder_state r (step EResume (step EPause w)) = recording ∧
  refs (step EResume (step EPause w)) = refs w ∧
  intervals (plat (step EResume (step EPause w))) = intervals (plat w) ∧
  frames (plat (step EResume (step EPause w))) =
    opt_delete (animationFrameRef (refs w)) (frames (plat w)).
Proof.
  intros Er Hrec Hs Ea Hbins. rewrite step_pause, Er, Hrec, Hs.
  assert (Hps : recorder_state r (paused_world r w) = paused)
    by (apply paused_world_recorder_state; by rewrite Hs).
  rewrite step_resume. cbn [paused_world refs state isPaused].
  rewrite Er, Hps, Ea.
  change (frequencyBinCount a (paused_world r w))
    with (frequencyBinCount a w).
  unfold frequencyBinCount. rewrite Hbins.
  change (default 0 (Some 256) / 2) with 128. cbv beta iota.
  rewrite sampled_paused_closure.
  split; [done|]. split; [done|]. split; [done|].
  split; [apply resumed_world_recorder_state; by rewrite Hps|].
  unfold resumed_world. by rewrite Hps.
Qed.

Lemma X6_pause_then_resume_witness :
  isPaused
    (state (step EResume
              (step EPause (run granted_start (initialWorld false)))))
  = false ∧
  recorder_state 4
    (step EResume (step EPause (run granted_start (initialWorld false))))
  = recording.
Proof.
  pose proof (X6_pause_then_resume (run granted_start (initialWorld false))
    4%positive 3%positive eq_refl eq_refl eq_refl eq_refl eq_refl)
    as (_ & H2 & _ & H4 & _).
  split; [exact H2|exact H4].
Defined.

(** ** The metering loop *)

(** X7. Whether a frame callback asks for the next frame is decided by the
    closure it was created with, not by the status at the time it runs: a
    callback created while recording and not paused puts itself back, with
    the same closure, under a new request id that it stores in
    [animationFrameRef]; any other callback just ends.  Either way
    [isRecording] and [isPaused] are not touched. *)
Theorem X7_frame_callback_closure
    (w : World) (f a : positive) (c : Closure) :
  frames (plat w) !! f = Some c →
  analyserRef (refs w) = Some a →
  analysers (plat w) !! a = Some 256 →
  frames (plat (step (EFrame f) w)) =
    (if c_isRecording c && negb (c_isPaused c)
     then <[nextHandle (plat w):=c]> (delete f (frames (plat w)))
     else delete f (frames (plat w))) ∧
  animationFrameRef (refs (step (EFrame f) w)) =
    (if c_isRecording c && negb (c_isPaused c)
     then Some (nextHandle (plat w))
     else animationFrameRef (refs w)) ∧
  isRecording (state (step (EFrame f) w)) = isRecording (state w) ∧
  isPaused (state (step (EFrame f) w)) = isPaused (state w).
Proof.
  intros Hf Ea Hbins. unfold step, exec. rewrite Hf, updateAudioLevel_eq.
  cbn [with_plat refs]. rewrite Ea. unfold frequencyBinCount.
  cbn [with_plat plat analysers set_frames]. rewrite Hbins.
  change (default 0 (Some 256) / 2) with 128. cbv beta iota.
  unfold sampled, loops. cbn [snd].
  by destruct (c_isRecording c && negb (c_isPaused c)).
Qed.

Lemma X7_frame_callback_closure_witness :
  frames
    (plat (step (EFrame 11)
             (run (granted_start ++ granted_start ++ granted_start ++ [EStop])
                (initialWorld false))))
  !! 19%positive = Some (mkClosure true false) ∧
  isRecording
    (state (step (EFrame 11)
              (run (granted_start ++ granted_start ++ granted_start ++ [EStop])
                 (initialWorld false))))
  = false.
Proof.
  pose proof (X7_frame_callback_closure
    (run (granted_start ++ granted_start ++ granted_start ++ [EStop])
       (initialWorld false))
    11%positive 14%positive (mkClosure true false) eq_refl eq_refl eq_refl)
    as (H1 & _ & H3 & _).
  split; [rewrite H1; apply lookup_insert_eq|exact H3].
Defined.

(** X8. The callbacks the platform runs (timer tick, frame callback, data
    and stop events of a recorder, the end of a track, a change of the
    signal) never change [isRecording] or [isPaused]: a stale callback
    cannot bring a stopped session back to life or end a pause. *)
Theorem X8_callbacks_keep_flags (e : Event) (w : World) :
  platform_callback e = true →
  isRecording (state (step e w)) = isRecording (state w) ∧
  isPaused (state (step e w)) = isPaused (state w).
Proof.
  destruct e as [ |k o| | | |i|f|r d|r|s|d]; try discriminate; intros _.
  - unfold step. by destruct (decide _).
  - unfold step, exec. destruct (frames (plat w) !! f) as [c|]; [|done].
    by destruct (updateAudioLevel_fields c
      (with_plat (λ p, set_frames (delete f (frames p)) p) w))
      as (-> & -> & _).
  - unfold step. by destruct (recorders (plat w) !! r).
  - unfold step. destruct (recorders (plat w) !! r) as [m|]; [|done].
    destruct (mr_stopQueued m); [|done]. by destruct (mr_onstop m).
  - done.
  - done.
Qed.

Lemma X8_callbacks_keep_flags_witness :
  isRecording
    (state (step (ETick 5) (run (granted_start ++ [EStop])
                              (initialWorld false))))
  = false.
Proof.
  pose proof (X8_callbacks_keep_flags (ETick 5)
    (run (granted_start ++ [EStop]) (initialWorld false)) eq_refl)
    as [H1 _].
  rewrite H1. reflexivity.
Defined.

(** ** Independent writers *)

Lemma step_tick (i : positive) (w : World) :
  step (ETick i) w =
  if decide (i ∈ intervals (plat w)) then with_state ticked w else w.
Proof. reflexivity. Qed.

Lemma sampled_ticked (c : Closure) (n : nat) (w : World) :
  sampled c n (with_state ticked w) = with_state ticked (sampled c n w).
Proof. unfold sampled. destruct (loops c); reflexivity. Qed.

Lemma pause_ticked (w : World) :
  step EPause (with_state ticked w) = with_state ticked (step EPause w).
Proof.
  rewrite !step_pause. cbn [with_state refs state ticked isRecording].
  destruct (mediaRecorderRef (refs w)) as [r|]; [|done].
  destruct (isRecording (state w)); [|done].
  change (recorder_state r (with_state ticked w)) with (recorder_state r w).
  unfold paused_world.
  change (recorder_state r (with_state ticked w)) with (recorder_state r w).
  by destruct (recorder_state r w).
Qed.

Lemma resume_ticked (w : World) :
  step EResume (with_state ticked w) = with_state ticked (step EResume w).
Proof.
  rewrite !step_resume. cbn [with_state refs state ticked isRecording isPaused].
  destruct (mediaRecorderRef (refs w)) as [r|]; [|done].
  destruct (isPaused (state w)); [|done].
  change (recorder_state r (with_state ticked w)) with (recorder_state r w).
  assert (E : resumed_world r (with_state ticked w) =
              with_state ticked (resumed_world r w)) by reflexivity.
  destruct (recorder_state r w); [done| |];
    (destruct (analyserRef (refs w)) as [a|]; [|done]);
    change (frequencyBinCount a (with_state ticked w))
      with (frequencyBinCount a w);
    (destruct (frequencyBinCount a w); [done|]);
    by rewrite E, sampled_ticked.
Qed.

Lemma frame_ticked (f : positive) (w : World) :
  step (EFrame f) (with_state ticked w) =
  with_state ticked (step (EFrame f) w).
Proof.
  unfold step, exec. cbn [with_state plat].
  destruct (frames (plat w) !! f) as [c|]; [|done].
  rewrite !updateAudioLevel_eq. cbn [with_state with_plat refs].
  destruct (analyserRef (refs w)) as [a|]; [|done].
  change (frequencyBinCount a (with_plat _ (with_state ticked w)))
    with (frequencyBinCount a w).
  change (frequencyBinCount a (with_plat _ w)) with (frequencyBinCount a w).
  destruct (frequencyBinCount a w); [done|]. cbn [snd].
  change (with_plat ?g (with_state ticked w))
    with (with_state ticked (with_plat g w)).
  by rewrite sampled_ticked.
Qed.

(** X9. The one-second tick and the other writers of the status do not lose
    each other's updates: a tick followed by a frame callback, a pause or a
    resume leaves exactly the state that the opposite order leaves.  Each
    writes through [setState(prev => ...)] and touches its own fields. *)
Theorem X9_tick_commutes (w : World) (i f : positive) :
  step (ETick i) (step (EFrame f) w) = step (EFrame f) (step (ETick i) w) ∧
  step (ETick i) (step EPause w) = step EPause (step (ETick i) w) ∧
  step (ETick i) (step EResume w) = step EResume (step (ETick i) w).
Proof.
  assert (Hf : intervals (plat (step (EFrame f) w)) = intervals (plat w)).
  { unfold step, exec. destruct (frames (plat w) !! f) as [c|]; [|done].
    rewrite updateAudioLevel_eq. cbn [with_plat refs].
    destruct (analyserRef (refs w)) as [a|]; [|done].
    destruct (frequencyBinCount _ _); [done|].
    unfold sampled. by destruct (loops c). }
  assert (Hp : intervals (plat (step EPause w)) = intervals (plat w)).
  { rewrite step_pause. destruct (mediaRecorderRef (refs w)) as [r|]; [|done].
    destruct (isRecording (state w)); [|done].
    by destruct (recorder_state r w). }
  assert (Hr : intervals (plat (step EResume w)) = intervals (plat w)).
  { rewrite step_resume. destruct (mediaRecorderRef (refs w)) as [r|]; [|done].
    destruct (isPaused (state w)); [|done].
    destruct (recorder_state r w); [done| |];
      (destruct (analyserRef (refs w)) as [a|]; [|done]);
      (destruct (frequencyBinCount a w); [done|]);
      by rewrite sampled_paused_closure. }
  rewrite !step_tick, Hf, Hp, Hr.
  destruct (decide (i ∈ intervals (plat w))); [|done].
  by rewrite frame_ticked, pause_ticked, resume_ticked.
Qed.

(** ** Silence and saturation of the level *)

Lemma byte_sum_app (l l' : list byte) :
  byte_sum (l ++ l') = (byte_sum l + byte_sum l')%N.
Proof.
  unfold byte_sum. induction l as [|b l IH]; cbn [app foldr]; [done|].
  rewrite IH. lia.
Qed.

Lemma byte_sum_zeros (n : nat) : byte_sum (replicate n x00) = 0%N.
Proof.
  unfold byte_sum. induction n as [|n IH]; cbn; [done|]. by rewrite IH.
Qed.

(** The zeros that fill the array beyond the spectrum add nothing. *)
Lemma byte_sum_frame (n : nat) (d : list byte) :
  byte_sum (getByteFrequencyData n d) = byte_sum (take n d).
Proof.
  unfold getByteFrequencyData.
  destruct (decide (n ≤ length d)) as [Hle|Hgt].
  - by rewrite take_app_le.
  - rewrite take_app_ge, take_replicate, byte_sum_app, byte_sum_zeros by lia.
    rewrite take_ge by lia. lia.
Qed.

Lemma byte_sum_zero (l : list byte) :
  byte_sum l = 0%N ↔ Forall (λ b, b = x00) l.
Proof.
  unfold byte_sum. induction l as [|b l IH]; cbn [foldr].
  - split; [constructor|done].
  - rewrite Forall_cons, <- IH. split.
    + intros H. split; [|lia].
      assert (E : Byte.to_N b = 0%N) by lia.
      pose proof (Byte.of_to_N b) as Hb. rewrite E in Hb. cbn in Hb.
      congruence.
    + intros [-> ->]. reflexivity.
Qed.

Lemma normalizedLevel_zero (sum : N) :
  (normalizedLevel sum 128 == 0)%Q ↔ sum = 0%N.
Proof.
  rewrite normalizedLevel_dyadic.
  destruct (Q.min_spec (Z.of_N sum # 16384) 1) as [[Hlt ->]|[Hle ->]].
  - unfold Qeq. cbn. lia.
  - split; [discriminate|]. intros ->. revert Hle. unfold Qle. cbn. lia.
Qed.

Lemma normalizedLevel_one (sum : N) :
  (normalizedLevel sum 128 == 1)%Q ↔ (16384 ≤ sum)%N.
Proof.
  rewrite normalizedLevel_dyadic.
  destruct (Q.min_spec (Z.of_N sum # 16384) 1) as [[Hlt ->]|[Hle ->]].
  - revert Hlt. unfold Qeq, Qlt. cbn. lia.
  - split; [|done]. intros _. revert Hle. unfold Qle. cbn. lia.
Qed.

(** X10. A level sample over the 128 bins is 0 exactly when all of the first
    128 bytes of the spectrum are zero, and it is 1, the cap, exactly when
    their sum is at least 16384, which is an average magnitude of 128, half
    of the byte range, or more. *)
Theorem X10_level_silence_saturation (c : Closure) (w : World) (a : positive) :
  analyserRef (refs w) = Some a →
  analysers (plat w) !! a = Some 256 →
  ((audioLevel (state (exec (updateAudioLevel c) w)) == 0)%Q ↔
   Forall (λ b, b = x00) (take 128 (spectrum (plat w)))) ∧
  ((audioLevel (state (exec (updateAudioLevel c) w)) == 1)%Q ↔
   (16384 ≤ byte_sum (take 128 (spectrum (plat w))))%N).
Proof.
  intros Ea Hbins. unfold exec. rewrite updateAudioLevel_eq, Ea.
  unfold frequencyBinCount. rewrite Hbins.
  change (default 0 (Some 256) / 2) with 128. cbv beta iota. cbn [snd].
  assert (E : audioLevel (state (sampled c 128 w)) =
              normalizedLevel (byte_sum (take 128 (spectrum (plat w)))) 128).
  { unfold sampled. rewrite byte_sum_frame. by destruct (loops c). }
  rewrite E, normalizedLevel_zero, normalizedLevel_one, byte_sum_zero.
  done.
Qed.

Lemma X10_level_silence_saturation_witness :
  (audioLevel
     (state (exec (updateAudioLevel (mkClosure true false))
               (run (granted_start ++ [EAudio (replicate 200 xff)])
                  (initialWorld false)))) == 1)%Q.
Proof.
  apply (X10_level_silence_saturation (mkClosure true false)
    (run (granted_start ++ [EAudio (replicate 200 xff)]) (initialWorld false))
    3%positive eq_refl eq_refl).
  vm_compute. discriminate.
Defined.

(** ** What is never undone *)

Lemma refs_kept_refl (r : Refs) : refs_kept r r.
Proof. by repeat split. Qed.

Lemma refs_kept_trans (r1 r2 r3 : Refs) :
  refs_kept r1 r2 → refs_kept r2 r3 → refs_kept r1 r3.
Proof.
  intros (A1 & A2 & A3 & A4 & A5) (B1 & B2 & B3 & B4 & B5).
  repeat split; eauto.
Qed.

Lemma sampled_refs_kept (c : Closure) (n : nat) (w : World) :
  refs_kept (refs w) (refs (sampled c n w)).
Proof.
  unfold sampled.
  destruct (loops c); [|apply refs_kept_refl].
  repeat split; cbn; eauto.
Qed.

Lemma updateAudioLevel_refs_kept (c : Closure) (w : World) :
  refs_kept (refs w) (refs (snd (updateAudioLevel c w))).
Proof.
  rewrite updateAudioLevel_eq.
  destruct (analyserRef (refs w)) as [a|]; [|apply refs_kept_refl].
  destruct (frequencyBinCount a w); [apply refs_kept_refl|].
  apply sampled_refs_kept.
Qed.

Lemma stop_refs (w : World) : refs (step EStop w) = refs w.
Proof.
  rewrite step_stop. unfold stopped.
  destruct (mediaRecorderRef (refs w)) as [r|]; [|done].
  by destruct (recorder_state r w), (stopThrows (plat w)).
Qed.

Lemma step_refs_kept (e : Event) (w : World) :
  refs_kept (refs w) (refs (step e w)).
Proof.
  destruct e as [ |k o| | | |i|f|r d|r|s|d].
  - rewrite step_start. apply refs_kept_refl.
  - rewrite step_device.
    destruct (requests (plat w) !! k) as [c|]; [|apply refs_kept_refl].
    destruct o; [|apply refs_kept_refl].
    unfold started. cbn [refs]. repeat split; cbn; eauto.
    by destruct (loops c).
  - rewrite stop_refs. apply refs_kept_refl.
  - rewrite step_pause.
    destruct (mediaRecorderRef (refs w)) as [r|]; [|apply refs_kept_refl].
    destruct (isRecording (state w)); [|apply refs_kept_refl].
    destruct (recorder_state r w); apply refs_kept_refl.
  - rewrite step_resume.
    destruct (mediaRecorderRef (refs w)) as [r|]; [|apply refs_kept_refl].
    destruct (isPaused (state w)); [|apply refs_kept_refl].
    destruct (recorder_state r w); [apply refs_kept_refl| |];
      (destruct (analyserRef (refs w)) as [a|]; [|apply refs_kept_refl]);
      (destruct (frequencyBinCount a w); [apply refs_kept_refl|]);
      rewrite sampled_paused_closure; apply refs_kept_refl.
  - unfold step. destruct (decide _); apply refs_kept_refl.
  - unfold step, exec.
    destruct (frames (plat w) !! f) as [c|]; [|apply refs_kept_refl].
    apply (updateAudioLevel_refs_kept c
             (with_plat (λ p, set_frames (delete f (frames p)) p) w)).
  - unfold step. destruct (recorders (plat w) !! r); [|apply refs_kept_refl].
    repeat split; cbn; eauto.
  - unfold step.
    destruct (recorders (plat w) !! r) as [m|]; [|apply refs_kept_refl].
    destruct (mr_stopQueued m); [|apply refs_kept_refl].
    destruct (mr_onstop m); apply refs_kept_refl.
  - apply refs_kept_refl.
  - apply refs_kept_refl.
Qed.

(** X11. No ref is ever reset to [null]: a ref that holds a recorder, a
    context, an analyser, a frame request id or a timer id holds one after
    every further sequence of events; and [stopRecording] in particular
    leaves all six refs exactly as they are, so after a stop they still
    name the stopped recorder, the closed context and the cleared timer. *)
Theorem X11_refs_never_reset (es : list Event) (w : World) :
  refs_kept (refs w) (refs (run es w)) ∧
  refs (step EStop w) = refs w.
Proof.
  split; [|apply stop_refs].
  revert w. induction es as [|e es IH]; intros w; [apply refs_kept_refl|].
  eapply refs_kept_trans; [apply (step_refs_kept e w)|apply (IH (step e w))].
Qed.

Lemma step_isRecording_origin (e : Event) (w : World) :
  isRecording (state (step e w)) = true →
  isRecording (state w) = true ∨
  ∃ k c, e = EDevice k Granted ∧ requests (plat w) !! k = Some c.
Proof.
  destruct e as [ |k o| | | |i|f|r d|r|s|d].
  - rewrite step_start. by left.
  - rewrite step_device.
    destruct (requests (plat w) !! k) as [c|] eqn:Ek; [|by left].
    destruct o; [right; eauto|by left].
  - rewrite step_stop. unfold stopped.
    destruct (mediaRecorderRef (refs w)) as [r|]; [|by left].
    destruct (recorder_state r w), (stopThrows (plat w)); cbn; by eauto.
  - rewrite step_pause.
    destruct (mediaRecorderRef (refs w)) as [r|]; [|by left].
    destruct (isRecording (state w)) eqn:E; [by left|by rewrite E; left].
  - intros H. left. rewrite <- H. symmetry.
    unfold step, exec. rewrite resumeRecording_eq.
    destruct (mediaRecorderRef (refs w)) as [r|]; [|done].
    destruct (c_isPaused _); [|done].
    destruct (recorder_state r w); [done| |];
      by destruct (updateAudioLevel_fields (render (state w))
                     (resumed_world r w)) as (-> & _ & _).
  - intros H. left. rewrite <- H. symmetry. unfold step.
    by destruct (decide _).
  - intros H. left. rewrite <- H. symmetry. unfold step, exec.
    destruct (frames (plat w) !! f) as [c|]; [|done].
    by destruct (updateAudioLevel_fields c
      (with_plat (λ p, set_frames (delete f (frames p)) p) w))
      as (-> & _ & _).
  - unfold step. destruct (recorders (plat w) !! r); by left.
  - unfold step. destruct (recorders (plat w) !! r) as [m|]; [|by left].
    destruct (mr_stopQueued m); [|by left]. destruct (mr_onstop m); by left.
  - by left.
  - by left.
Qed.

(** X12. Whenever [isRecording] is true, a session has been set up: the
    refs hold a recorder, an audio context, an analyser and a timer id.  So
    a caller who stops while [isRecording] is true never gets the [null] of
    the empty-ref branch. *)
Theorem X12_recording_has_session (throws : bool) (es : list Event) :
  isRecording (state (run es (initialWorld throws))) = true →
  is_Some (mediaRecorderRef (refs (run es (initialWorld throws)))) ∧
  is_Some (audioContextRef (refs (run es (initialWorld throws)))) ∧
  is_Some (analyserRef (refs (run es (initialWorld throws)))) ∧
  is_Some (intervalRef (refs (run es (initialWorld throws)))) ∧
  promises (plat (step EStop (run es (initialWorld throws))))
    !! nextHandle (plat (run es (initialWorld throws)))
  ≠ Some (fulfilled None).
Proof.
  intros Hrec.
  assert (H :
    is_Some (mediaRecorderRef (refs (run es (initialWorld throws)))) ∧
    is_Some (audioContextRef (refs (run es (initialWorld throws)))) ∧
    is_Some (analyserRef (refs (run es (initialWorld throws)))) ∧
    is_Some (intervalRef (refs (run es (initialWorld throws))))).
  { revert Hrec. induction es as [|e es IH] using rev_ind; [done|].
    rewrite run_snoc. intros Hrec.
    destruct (step_isRecording_origin _ _ Hrec) as [Hprev|(k & c & -> & Hk)].
    - destruct (IH Hprev) as (H1 & H2 & H3 & H4).
      destruct (step_refs_kept e (run es (initialWorld throws)))
        as (K1 & K2 & K3 & _ & K5).
      repeat split; eauto.
    - rewrite step_device, Hk. unfold started. cbn. repeat split; eauto. }
  destruct H as (H1 & H2 & H3 & H4). repeat (split; [done|]).
  destruct H1 as [r Er]. rewrite step_stop. unfold stopped. rewrite Er.
  generalize (run es (initialWorld throws)). intros w.
  destruct (recorder_state r w), (stopThrows (plat w)); cbn;
    by rewrite lookup_insert_eq.
Qed.

Lemma X12_recording_has_session_witness :
  is_Some (mediaRecorderRef
             (refs (run (granted_start ++ [ETrackEnded 1])
                      (initialWorld true)))) ∧
  promises (plat (step EStop (run (granted_start ++ [ETrackEnded 1])
                                (initialWorld true))))
    !! nextHandle (plat (run (granted_start ++ [ETrackEnded 1])
                           (initialWorld true)))
  ≠ Some (fulfilled None).
Proof.
  pose proof (X12_recording_has_session true
    (granted_start ++ [ETrackEnded 1]) eq_refl) as (H1 & _ & _ & _ & H5).
  split; [exact H1|exact H5].
Defined.

(** ** The input device *)

Lemma sampled_track_stop (s : positive) (c : Closure) (n : nat) (w : World) :
  count_call (TrackStop s) (calls (plat (sampled c n w))) =
  count_call (TrackStop s) (calls (plat w)) ∧
  streams (plat (sampled c n w)) = streams (plat w).
Proof.
  unfold sampled. destruct (loops c); [|done].
  cbn [plat calls streams set_calls set_frames set_nextHandle].
  rewrite count_call_app. cbn. split; [lia|done].
Qed.

Lemma updateAudioLevel_track_stop (s : positive) (c : Closure) (w : World) :
  count_call (TrackStop s) (calls (plat (snd (updateAudioLevel c w)))) =
  count_call (TrackStop s) (calls (plat w)) ∧
  streams (plat (snd (updateAudioLevel c w))) = streams (plat w).
Proof.
  rewrite updateAudioLevel_eq.
  destruct (analyserRef (refs w)) as [a|]; [|done].
  destruct (frequencyBinCount a w); [done|]. apply sampled_track_stop.
Qed.

(** No operation or callback stops a track, and only the end of a track
    takes a stream away. *)
Lemma step_track_stop (s : positive) (e : Event) (w : World) :
  count_call (TrackStop s) (calls (plat (step e w))) =
  count_call (TrackStop s) (calls (plat w)) ∧
  ((∀ s', e ≠ ETrackEnded s') →
   streams (plat w) ⊆ streams (plat (step e w))).
Proof.
  destruct e as [ |k o| | | |i|f|r d|r|s0|d].
  - rewrite step_start.
    cbn [with_plat plat calls set_requests set_calls streams].
    rewrite count_call_app. cbn. split; [lia|done].
  - rewrite step_device.
    destruct (requests (plat w) !! k) as [c|]; [|done].
    destruct o.
    + unfold started. cbn [plat calls streams].
      rewrite !count_call_app.
      split; [destruct (loops c); unfold count_call; cbn; lia|].
      intros _. cbn. apply union_subseteq_r.
    + cbn [with_plat plat calls set_requests set_calls streams].
      rewrite count_call_app. cbn. split; [lia|done].
  - rewrite step_stop. unfold stopped.
    destruct (mediaRecorderRef (refs w)) as [r|]; [|done].
    assert (Hc : ∀ recs, count_call (TrackStop s)
                   (calls (plat (cleaned r (nextHandle (plat w)) recs w))) =
                 count_call (TrackStop s) (calls (plat w))).
    { intros recs. cbn [cleaned plat calls].
      rewrite !count_call_app, !count_call_opt by done. cbn. lia. }
    assert (Ht : count_call (TrackStop s)
                   (calls (plat (stop_thrown r (nextHandle (plat w)) w))) =
                 count_call (TrackStop s) (calls (plat w))).
    { unfold stop_thrown.
      cbn [with_plat plat calls set_promises set_calls set_recorders
           set_nextHandle].
      rewrite count_call_app. cbn. lia. }
    destruct (recorder_state r w), (stopThrows (plat w));
      rewrite ?Hc, ?Ht; done.
  - rewrite step_pause.
    destruct (mediaRecorderRef (refs w)) as [r|]; [|done].
    destruct (isRecording (state w)); [|done].
    destruct (recorder_state r w);
      [cbn [with_plat plat calls set_calls streams]|
       unfold paused_world; cbn [plat calls set_calls set_frames
                                  set_recorders streams]..];
      rewrite !count_call_app, ?count_call_opt by done; cbn;
      (split; [lia|done]).
  - unfold step, exec. rewrite resumeRecording_eq.
    destruct (mediaRecorderRef (refs w)) as [r|]; [|done].
    destruct (c_isPaused _); [|done].
    assert (Hres : count_call (TrackStop s)
                     (calls (plat (resumed_world r w))) =
                   count_call (TrackStop s) (calls (plat w))).
    { unfold resumed_world. cbn [plat calls set_calls set_recorders].
      rewrite count_call_app. cbn. lia. }
    destruct (recorder_state r w);
      [cbn [snd with_plat plat calls set_calls streams];
       rewrite count_call_app; cbn; split; [lia|done]| |];
      destruct (updateAudioLevel_track_stop s (render (state w))
                  (resumed_world r w)) as [-> ->];
      by rewrite Hres.
  - unfold step. by destruct (decide _).
  - unfold step, exec. destruct (frames (plat w) !! f) as [c|]; [|done].
    by destruct (updateAudioLevel_track_stop s c
         (with_plat (λ p, set_frames (delete f (frames p)) p) w)) as [-> ->].
  - unfold step. by destruct (recorders (plat w) !! r).
  - unfold step. destruct (recorders (plat w) !! r) as [m|]; [|done].
    destruct (mr_stopQueued m); [|done]. by destruct (mr_onstop m).
  - split; [done|]. intros H. by destruct (H s0).
  - done.
Qed.

(** X13. The hook never gives the input device back: after every sequence
    of events the call log holds no [MediaStreamTrack.stop()], and a stream
    that was granted stays live across every sequence of events in which
    its tracks do not end by themselves; no operation of the hook, stop
    included, takes it away. *)
Theorem X13_device_never_released
    (throws : bool) (es es' : list Event) (s : positive) (w : World) :
  count_call (TrackStop s) (calls (plat (run es (initialWorld throws)))) = 0 ∧
  (Forall (λ e, ∀ s', e ≠ ETrackEnded s') es' →
   streams (plat w) ⊆ streams (plat (run es' w))).
Proof.
  split.
  - induction es as [|e es IH] using rev_ind; [done|].
    rewrite run_snoc. by destruct (step_track_stop s e
      (run es (initialWorld throws))) as [-> _].
  - revert w. induction es' as [|e es' IH]; intros w Hes; [done|].
    apply Forall_cons in Hes as [He Hes].
    destruct (step_track_stop s e w) as [_ Hsub].
    etrans; [by apply Hsub|]. by apply (IH (step e w)).
Qed.

Lemma X13_device_never_released_witness :
  streams (plat (run granted_start (initialWorld false))) ⊆
  streams (plat (run [EPause; EResume; EStop; EStopEvent 4]
                   (run granted_start (initialWorld false)))).
Proof.
  apply (X13_device_never_released false [] [EPause; EResume; EStop;
    EStopEvent 4] 1%positive (run granted_start (initialWorld false))).
  repeat constructor; discriminate.
Defined.

(** ** The payload of a session *)

(** X14. A session runs from the rest of a granted start to the stop event
    of the recorder that start created, with one [stopRecording] in
    between, issued while the recorder is active.  Whatever ticks, frames,
    pauses, resumes and other events come in between, as long as no
    [stopRecording] on the same recorder takes the handler first, the
    promise is fulfilled at the stop event with the blob, typed
    [audio/wav], of the chunks delivered since the latest start, by
    whichever recorder, since every handler pushes to the one list: if no
    further start is granted before the stop event, these are exactly the
    chunks delivered during the session, in the order of arrival, those
    before the stop followed by those between the stop and the stop event,
    and none of what the chunk list held before; a start granted after the
    stop and before the stop event empties the list, and the payload is
    left with the chunks delivered after it. *)
Theorem X14_session_payload
    (throws : bool) (es0 es1 es2 : list Event) (k : nat) (r : positive) :
  let w0 := step (EDevice k Granted) (run es0 (initialWorld throws)) in
  let w1 := run es1 w0 in
  let w2 := run es2 (step EStop w1) in
  grants (run es0 (initialWorld throws)) (EDevice k Granted) = true →
  mediaRecorderRef (refs w0) = Some r →
  no_restart es1 w0 = true →
  recorder_state r w1 ≠ inactive →
  onstop_kept r es2 (step EStop w1) = true →
  promises (plat (step (EStopEvent r) w2)) !! nextHandle (plat w1) =
    Some (fulfilled (Some (newBlob
      (collect es2 (step EStop w1) (delivered es1 w0)) "audio/wav"))) ∧
  (no_restart es2 (step EStop w1) = true →
   promises (plat (step (EStopEvent r) w2)) !! nextHandle (plat w1) =
     Some (fulfilled (Some (newBlob
       (delivered es1 w0 ++ delivered es2 (step EStop w1)) "audio/wav")))).
Proof.
  intros w0 w1 w2 Hg Er Hn1 Hs Hk.
  assert (Hf : handles_fresh w1).
  { unfold w1, w0. rewrite <- run_snoc, <- run_app.
    apply run_handles_fresh. }
  assert (Er1 : mediaRecorderRef (refs w1) = Some r).
  { unfold w1. by rewrite run_recorder_ref. }
  assert (Ec0 : audioChunksRef (refs w0) = []).
  { unfold w0. by rewrite step_chunks, Hg. }
  assert (Ec1 : audioChunksRef (refs w1) = delivered es1 w0).
  { unfold w1. by rewrite run_collect, Ec0, collect_no_restart. }
  pose proof (stop_awaits r w1 Hf Er1 Hs) as Ha.
  pose proof (run_awaits_stop _ r es2 _ Ha Hk) as Ha'.
  pose proof (stop_event_fulfils _ r _ Ha') as Hful. fold w2 in Hful.
  unfold w2 in Hful at 2. rewrite run_collect, step_chunks in Hful.
  cbn [grants chunk] in Hful. rewrite app_nil_r, Ec1 in Hful.
  split; [done|]. intros Hn2. by rewrite Hful, collect_no_restart.
Qed.

Lemma X14_session_payload_witness :
  promises
    (plat (step (EStopEvent 4)
             (run [EDataAvailable 4 (mkBlob [x03] "audio/webm"); ETick 5]
                (step EStop
                   (run [EDataAvailable 4 (mkBlob [x01; x02] "audio/webm");
                         ETick 5; EPause; EResume]
                      (step (EDevice 0 Granted)
                         (run [EStart] (initialWorld false)))))))) !! 6%positive
  = Some (fulfilled
            (Some (newBlob [mkBlob [x01; x02] "audio/webm";
                            mkBlob [x03] "audio/webm"] "audio/wav"))) ∧
  promises
    (plat (step (EStopEvent 4)
             (run [EStart; EDevice 0 Granted;
                   EDataAvailable 4 (mkBlob [x03] "audio/webm")]
                (step EStop
                   (run [EDataAvailable 4 (mkBlob [x01; x02] "audio/webm")]
                      (step (EDevice 0 Granted)
                         (run [EStart] (initialWorld false)))))))) !! 6%positive
  = Some (fulfilled
            (Some (newBlob [mkBlob [x03] "audio/webm"] "audio/wav"))).
Proof.
  pose proof (X14_session_payload false [EStart]
    [EDataAvailable 4 (mkBlob [x01; x02] "audio/webm"); ETick 5; EPause;
     EResume]
    [EDataAvailable 4 (mkBlob [x03] "audio/webm"); ETick 5]
    0 4%positive) as H1.
  pose proof (X14_session_payload false [EStart]
    [EDataAvailable 4 (mkBlob [x01; x02] "audio/webm")]
    [EStart; EDevice 0 Granted; EDataAvailable 4 (mkBlob [x03] "audio/webm")]
    0 4%positive) as H2.
  cbv zeta in H1, H2.
  destruct H1 as (_ & H1);
    [reflexivity|reflexivity|reflexivity|vm_compute; discriminate
    |reflexivity|].
  destruct H2 as (H2 & _);
    [reflexivity|reflexivity|reflexivity|vm_compute; discriminate
    |reflexivity|].
  split.
  - apply H1. reflexivity.
  - apply H2.
Defined.

(** ** The status and the recorder *)

Lemma updateAudioLevel_recorder_ref (c : Closure) (w : World) :
  mediaRecorderRef (refs (snd (updateAudioLevel c w))) =
  mediaRecorderRef (refs w).
Proof.
  rewrite updateAudioLevel_eq.
  destruct (analyserRef (refs w)) as [a|]; [|done].
  destruct (frequencyBinCount a w); [done|].
  unfold sampled. by destruct (loops c).
Qed.

Lemma end_of_stream_state (s : positive) (m : MediaRecorder) :
  mr_state (end_of_stream s m) = mr_state m ∨
  mr_state (end_of_stream s m) = inactive.
Proof.
  unfold end_of_stream. destruct (mr_state m) eqn:E; [by left| |];
    (case_decide; [by right|by left]).
Qed.

Lemma stop_thrown_recorder_state (r p : positive) (w : World) :
  recorder_state r (stop_thrown r p w) = recorder_state r w.
Proof.
  unfold recorder_state. cbn. rewrite lookup_alter_eq.
  by destruct (recorders (plat w) !! r).
Qed.

Lemma cleaned_onstop_recorder_state (r p : positive) (w : World) :
  recorder_state r
    (cleaned r p (alter (set_mr_onstop (Some p)) r (recorders (plat w))) w)
  = recorder_state r w.
Proof.
  unfold recorder_state. cbn. rewrite lookup_alter_eq.
  by destruct (recorders (plat w) !! r).
Qed.

Lemma step_flags_agree (e : Event) (w : World) :
  single_session w → ui_allows w e = true →
  flags_agree w → flags_agree (step e w).
Proof.
  intros Hss Hui Hfl.
  destruct e as [ |k o| | | |i|f|r0 d|r0|s|d].
  - rewrite step_start. exact Hfl.
  - rewrite step_device.
    destruct (requests (plat w) !! k) as [c|] eqn:Ek; [|done].
    destruct o; [|exact Hfl].
    destruct (ss_requests w Hss c (list_elem_of_lookup_2 _ _ _ Ek))
      as (_ & _ & Hidle).
    assert (Hp : isPaused (state w) = false).
    { destruct (isPaused (state w)) eqn:E; [|done].
      rewrite (ss_paused w Hss E) in Hidle. done. }
    intros r. unfold started.
    cbn [refs mediaRecorderRef state isPaused with_plat].
    intros [= <-]. rewrite Hp. split; [done|]. intros _.
    unfold recorder_state. cbn [plat recorders].
    by rewrite lookup_insert_eq.
  - rewrite step_stop. unfold stopped.
    destruct (mediaRecorderRef (refs w)) as [r|] eqn:Er; [|exact Hfl].
    destruct (Hfl r Er) as [H1 H2].
    destruct (recorder_state r w) eqn:Es.
    + destruct (stopThrows (plat w)).
      * intros r'.
        change (refs (stop_thrown r (nextHandle (plat w)) w)) with (refs w).
        change (state (stop_thrown r (nextHandle (plat w)) w)) with (state w).
        rewrite Er. intros [= <-].
        by rewrite stop_thrown_recorder_state, Es.
      * intros r'. cbn [cleaned refs state isPaused]. rewrite Er.
        intros [= <-]. split; [done|]. intros _.
        by rewrite cleaned_onstop_recorder_state, Es.
    + intros r'. cbn [cleaned refs state isPaused]. rewrite Er.
      intros [= <-]. split; [done|]. intros _.
      by rewrite cleaned_recorder_state.
    + intros r'. cbn [cleaned refs state isPaused]. rewrite Er.
      intros [= <-]. split; [done|]. intros _.
      by rewrite cleaned_recorder_state.
  - rewrite step_pause.
    destruct (mediaRecorderRef (refs w)) as [r|] eqn:Er; [|exact Hfl].
    destruct (isRecording (state w)); [|exact Hfl].
    destruct (recorder_state r w) eqn:Es; [exact Hfl| |];
      intros r'; cbn [paused_world refs state isPaused]; rewrite Er;
      intros [= <-]; (split; [|done]); intros _;
      rewrite paused_world_recorder_state; by rewrite ?Es.
  - rewrite step_resume.
    destruct (mediaRecorderRef (refs w)) as [r|] eqn:Er; [|exact Hfl].
    destruct (isPaused (state w)) eqn:Ep; [|exact Hfl].
    assert (Hres : recorder_state r w ≠ inactive →
                   flags_agree (resumed_world r w)).
    { intros Hs r'. cbn [resumed_world refs state isPaused]. rewrite Er.
      intros [= <-]. split; [done|]. intros _.
      by rewrite resumed_world_recorder_state. }
    destruct (recorder_state r w) eqn:Es; [exact Hfl| |];
      (destruct (analyserRef (refs w)) as [a|]; [|by apply Hres]);
      (destruct (frequencyBinCount a w); [by apply Hres|]);
      rewrite sampled_paused_closure; by apply Hres.
  - rewrite step_tick. destruct (decide _); exact Hfl.
  - unfold step, exec. destruct (frames (plat w) !! f) as [c|]; [|done].
    set (w' := with_plat (λ p, set_frames (delete f (frames p)) p) w).
    intros r. unfold recorder_state.
    rewrite updateAudioLevel_recorder_ref, updateAudioLevel_recorders.
    destruct (updateAudioLevel_fields c w') as (_ & -> & _).
    apply (Hfl r).
  - unfold step. destruct (recorders (plat w) !! r0); exact Hfl.
  - unfold step. destruct (recorders (plat w) !! r0) as [m|] eqn:Em; [|done].
    destruct (mr_stopQueued m); [|done].
    assert (Hst : flags_agree
              (exec (update_recorder r0 (set_mr_state inactive false)) w)).
    { intros r Er. unfold exec, update_recorder, modify, recorder_state. cbn.
      destruct (decide (r = r0)) as [->|Hne].
      - rewrite lookup_alter_eq, Em. cbn. done.
      - rewrite lookup_alter_ne by done. apply (Hfl r Er). }
    destruct (mr_onstop m) as [q|]; exact Hst.
  - unfold step. intros r Er. unfold recorder_state. cbn.
    rewrite lookup_fmap. destruct (Hfl r Er) as [H1 H2].
    unfold recorder_state in H1, H2.
    destruct (recorders (plat w) !! r) as [m|]; [|done]. cbn.
    destruct (end_of_stream_state s m) as [-> | ->]; done.
  - exact Hfl.
Qed.

(** X15. As long as every start is issued while [isRecording] is false and
    no device request is pending, [isPaused] agrees with the recorder in
    [mediaRecorderRef]: that recorder is never recording while [isPaused]
    is true and never paused while [isPaused] is false. *)
Theorem X15_paused_flag_agrees
    (throws : bool) (es : list Event) (r : positive) :
  ui_trace es (initialWorld throws) = true →
  mediaRecorderRef (refs (run es (initialWorld throws))) = Some r →
  (isPaused (state (run es (initialWorld throws))) = true →
   recorder_state r (run es (initialWorld throws)) ≠ recording) ∧
  (isPaused (state (run es (initialWorld throws))) = false →
   recorder_state r (run es (initialWorld throws)) ≠ paused).
Proof.
  intros Hui. revert r.
  change (flags_agree (run es (initialWorld throws))).
  induction es as [|e es IH] using rev_ind; [done|].
  rewrite ui_trace_snoc in Hui. apply andb_true_iff in Hui as [H1 H2].
  rewrite run_snoc.
  apply step_flags_agree; [by apply run_single_session|done|by apply IH].
Qed.

Lemma X15_paused_flag_agrees_witness :
  recorder_state 4 (run (granted_start ++ [EPause; ETrackEnded 1])
                      (initialWorld false)) ≠ recording.
Proof.
  pose proof (X15_paused_flag_agrees false
    (granted_start ++ [EPause; ETrackEnded 1]) 4%positive eq_refl eq_refl)
    as [H _].
  apply H. reflexivity.
Defined.

(** X16. As long as every start is issued while [isRecording] is false and
    no device request is pending, a hook that is not recording holds
    nothing but streams: no interval is live, no frame request is pending,
    every recorder is inactive and every audio context is closed. *)
Theorem X16_idle_holds_nothing (throws : bool) (es : list Event) :
  ui_trace es (initialWorld throws) = true →
  isRecording (state (run es (initialWorld throws))) = false →
  intervals (plat (run es (initialWorld throws))) = ∅ ∧
  frames (plat (run es (initialWorld throws))) = ∅ ∧
  (∀ r, recorder_state r (run es (initialWorld throws)) = inactive) ∧
  (∀ c, contexts (plat (run es (initialWorld throws))) !! c ≠ Some true).
Proof.
  intros Hui Hrec. apply run_single_session in Hui.
  split; [by apply (ss_idle_intervals _ Hui)|].
  split; [by apply (ss_frames _ Hui)|].
  split; [|by apply (ss_idle_contexts _ Hui)].
  intros r. unfold recorder_state.
  destruct (recorders _ !! r) as [m|] eqn:Em; [|done].
  by apply (ss_idle_recorders _ Hui Hrec r m).
Qed.

Lemma X16_idle_holds_nothing_witness :
  intervals (plat (run (granted_start ++ [EPause; EStop; EStopEvent 4])
                     (initialWorld false))) = ∅ ∧
  contexts (plat (run (granted_start ++ [EPause; EStop; EStopEvent 4])
                    (initialWorld false))) !! 2%positive ≠ Some true.
Proof.
  pose proof (X16_idle_holds_nothing false
    (granted_start ++ [EPause; EStop; EStopEvent 4]) eq_refl eq_refl)
    as (H1 & _ & _ & H4).
  split; [exact H1|apply H4].
Defined.

(** ** Doubles *)

Lemma pow2_pos (e : Z) : (0 < pow2 e)%Q.
Proof. apply Qpower_0_lt. reflexivity. Qed.

Lemma pow2_add (a b : Z) : (pow2 (a + b) == pow2 a * pow2 b)%Q.
Proof. apply Qpower_plus. discriminate. Qed.

Lemma pow2_le (a b : Z) : (a ≤ b)%Z → (pow2 a <= pow2 b)%Q.
Proof. intros H. apply Qpower_le_compat_l; [done|discriminate]. Qed.

Lemma pow2_lt (a b : Z) : (a < b)%Z → (pow2 a < pow2 b)%Q.
Proof. intros H. apply Qpower_lt_compat_l; [done|reflexivity]. Qed.

Lemma pow2_lt_inv (a b : Z) : (pow2 a < pow2 b)%Q → (a < b)%Z.
Proof. intros H. by apply (Qpower_lt_compat_l_inv 2); [|reflexivity]. Qed.

Lemma pow2_Z (n : Z) : (0 ≤ n)%Z → (pow2 n == inject_Z (2 ^ n))%Q.
Proof. intros H. unfold pow2. by rewrite Zpower_Qpower. Qed.


Lemma pow2_succ (e : Z) : (pow2 (e + 1) == 2 * pow2 e)%Q.
Proof. rewrite pow2_add. change (pow2 1) with 2%Q. ring. Qed.

Lemma pow2_pred (e : Z) : (pow2 e == 2 * pow2 (e - 1))%Q.
Proof. rewrite <- pow2_succ. by replace (e - 1 + 1)%Z with e by lia. Qed.

(** [ilog2 q] is the exponent of the binade of [q]. *)
Lemma ilog2_spec (q : Q) :
  (0 < q)%Q → (pow2 (ilog2 q) <= q)%Q ∧ (q < pow2 (ilog2 q + 1))%Q.
Proof.
  intros Hq. destruct q as [n d].
  assert (Hn : (0 < n)%Z) by (revert Hq; unfold Qlt; cbn; lia).
  unfold ilog2. cbn [Qnum Qden].
  set (a := Z.log2 n). set (b := Z.log2 (Z.pos d)).
  destruct (Z.log2_spec n Hn) as [Ha1 Ha2].
  destruct (Z.log2_spec (Z.pos d) ltac:(lia)) as [Hb1 Hb2].
  fold a in Ha1, Ha2. fold b in Hb1, Hb2.
  assert (Ha0 : (0 ≤ a)%Z) by apply Z.log2_nonneg.
  assert (Hb0 : (0 ≤ b)%Z) by apply Z.log2_nonneg.
  pose proof (pow2_pos a) as HA. pose proof (pow2_pos b) as HB.
  pose proof (pow2_pos (a - b)) as HP.
  assert (EA : (pow2 (a - b) * pow2 b == pow2 a)%Q).
  { rewrite <- pow2_add. by replace (a - b + b)%Z with a by lia. }
  assert (HN1 : (pow2 a <= inject_Z n)%Q).
  { rewrite pow2_Z by done. by rewrite <- Zle_Qle. }
  assert (HN2 : (inject_Z n < 2 * pow2 a)%Q).
  { rewrite <- pow2_succ, pow2_Z by lia. rewrite <- Zlt_Qlt.
    by replace (a + 1)%Z with (Z.succ a) by lia. }
  assert (HD1 : (pow2 b <= inject_Z (Z.pos d))%Q).
  { rewrite pow2_Z by done. by rewrite <- Zle_Qle. }
  assert (HD2 : (inject_Z (Z.pos d) < 2 * pow2 b)%Q).
  { rewrite <- pow2_succ, pow2_Z by lia. rewrite <- Zlt_Qlt.
    by replace (b + 1)%Z with (Z.succ b) by lia. }
  assert (EQ : ((n # d) * inject_Z (Z.pos d) == inject_Z n)%Q).
  { rewrite (Qmake_Qdiv n d). field. discriminate. }
  set (q := (n # d)%Q) in *.
  set (N := inject_Z n) in *. set (D := inject_Z (Z.pos d)) in *.
  set (A := pow2 a) in *. set (B := pow2 b) in *.
  set (P := pow2 (a - b)) in *.
  assert (HD : (0 < D)%Q) by lra.
  assert (Hup : (q < 2 * P)%Q).
  { apply (Qmult_lt_r _ _ D HD). rewrite EQ.
    apply Qlt_le_trans with (2 * A)%Q; [done|]. rewrite <- EA.
    assert (P * B <= P * D)%Q by (by apply Qmult_le_l).
    lra. }
  assert (Hlo : (P < 2 * q)%Q).
  { apply (Qmult_lt_r _ _ B HB). rewrite EA.
    apply Qle_lt_trans with N; [done|]. rewrite <- EQ.
    assert (q * D < q * (2 * B))%Q by (by apply Qmult_lt_l).
    lra. }
  destruct (Qle_bool P q) eqn:Hle.
  - apply Qle_bool_iff in Hle. split; [done|].
    by rewrite pow2_succ.
  - assert (Hlt : (q < P)%Q).
    { apply Qnot_le_lt. intros H. apply Qle_bool_iff in H. congruence. }
    replace (a - b - 1 + 1)%Z with (a - b)%Z by lia. split; [|done].
    pose proof (pow2_pred (a - b)) as Hp. fold P in Hp.
    set (P' := pow2 (a - b - 1)) in *. lra.
Qed.

Lemma ilog2_lt (q : Q) (k : Z) :
  (0 < q)%Q → (q < pow2 k)%Q → (ilog2 q < k)%Z.
Proof.
  intros Hq Hk. destruct (ilog2_spec q Hq) as [Hlo _].
  apply pow2_lt_inv. by apply Qle_lt_trans with q.
Qed.

Lemma ilog2_ge (q : Q) (k : Z) :
  (0 < q)%Q → (pow2 k <= q)%Q → (k ≤ ilog2 q)%Z.
Proof.
  intros Hq Hk. destruct (ilog2_spec q Hq) as [_ Hup].
  assert (k < ilog2 q + 1)%Z; [|lia].
  apply pow2_lt_inv. by apply Qle_lt_trans with q.
Qed.

Lemma ilog2_unique (q : Q) (e : Z) :
  (pow2 e <= q)%Q → (q < pow2 (e + 1))%Q → ilog2 q = e.
Proof.
  intros Hlo Hup.
  assert (Hq : (0 < q)%Q) by (pose proof (pow2_pos e); lra).
  pose proof (ilog2_lt q (e + 1) Hq Hup). pose proof (ilog2_ge q e Hq Hlo).
  lia.
Qed.

Lemma round_half_even_floor (q : Q) :
  round_half_even q = Qfloor q ∨
  (round_half_even q = (Qfloor q + 1)%Z ∧
   (1 # 2 <= q - inject_Z (Qfloor q))%Q).
Proof.
  unfold round_half_even.
  destruct (Qcompare_spec (q - inject_Z (Qfloor q)) (1 # 2)) as [E|L|G].
  - destruct (Z.even (Qfloor q)); [by left|right]. split; [done|].
    rewrite E. apply Qle_refl.
  - by left.
  - right. split; [done|]. by apply Qlt_le_weak.
Qed.

Lemma round_half_even_le (q : Q) (n : Z) :
  (q <= inject_Z n)%Q → (round_half_even q ≤ n)%Z.
Proof.
  intros Hq. pose proof (Qfloor_le q) as Hf.
  destruct (round_half_even_floor q) as [->|[-> Hh]].
  - rewrite Zle_Qle. lra.
  - assert (Qfloor q < n)%Z; [|lia]. rewrite Zlt_Qlt. lra.
Qed.

Lemma round_half_even_ge (q : Q) (n : Z) :
  (inject_Z n <= q)%Q → (n ≤ round_half_even q)%Z.
Proof.
  intros Hq. pose proof (Qfloor_resp_le _ _ Hq) as Hf.
  rewrite Qfloor_Z in Hf.
  destruct (round_half_even_floor q) as [->|[-> _]]; lia.
Qed.

Lemma round_half_even_upper (q : Q) :
  (inject_Z (round_half_even q) <= q + (1 # 2))%Q.
Proof.
  pose proof (Qfloor_le q) as Hf. pose proof (Qlt_floor q) as Hl.
  rewrite inject_Z_plus in Hl.
  unfold round_half_even.
  destruct (Qcompare_spec (q - inject_Z (Qfloor q)) (1 # 2)) as [E|L|G].
  - destruct (Z.even (Qfloor q)); [lra|]. rewrite inject_Z_plus.
    change (inject_Z 1) with 1%Q. lra.
  - lra.
  - rewrite inject_Z_plus. change (inject_Z 1) with 1%Q. lra.
Qed.

Lemma ulp_pos (q : Q) : (0 < ulp q)%Q.
Proof. apply pow2_pos. Qed.

Lemma nearest_double_gt (q : Q) :
  (0 < q)%Q → nearest_double q = nearest_double_pos q.
Proof.
  intros Hq. unfold nearest_double.
  by destruct (Qcompare_spec q 0) as [E|L|G]; [lra|lra|].
Qed.

Lemma nearest_double_nonneg (q : Q) : (0 <= q)%Q → (0 <= nearest_double q)%Q.
Proof.
  intros Hq. unfold nearest_double.
  destruct (Qcompare_spec q 0) as [E|L|G]; [apply Qle_refl|lra|].
  unfold nearest_double_pos. pose proof (ulp_pos q) as Hu.
  apply Qmult_le_0_compat; [|lra].
  change 0%Q with (inject_Z 0). rewrite <- Zle_Qle.
  apply round_half_even_ge. change (inject_Z 0) with 0%Q.
  apply Qle_shift_div_l; [done|]. lra.
Qed.

(** Rounding does not pass a bound that is a multiple of the unit in the
    last place. *)
Lemma nearest_double_le (q : Q) (M j : Z) :
  (0 < q)%Q → (q <= inject_Z M * pow2 j)%Q →
  (Z.max (ilog2 q) (-1022) - 52 ≤ j)%Z →
  (nearest_double q <= inject_Z M * pow2 j)%Q.
Proof.
  intros Hq Hb Hj. rewrite nearest_double_gt by done.
  unfold nearest_double_pos, ulp.
  set (k := (Z.max (ilog2 q) (-1022) - 52)%Z) in *.
  pose proof (pow2_pos k) as Hk.
  assert (Ej : (pow2 j == inject_Z (2 ^ (j - k)) * pow2 k)%Q).
  { rewrite <- pow2_Z, <- pow2_add by lia.
    by replace (j - k + k)%Z with j by lia. }
  assert (Hm : (round_half_even (q / pow2 k) ≤ M * 2 ^ (j - k))%Z).
  { apply round_half_even_le. rewrite inject_Z_mult.
    apply Qle_shift_div_r; [done|]. rewrite Ej in Hb. lra. }
  rewrite Zle_Qle, inject_Z_mult in Hm. rewrite Ej.
  assert (inject_Z (round_half_even (q / pow2 k)) * pow2 k <=
          inject_Z M * inject_Z (2 ^ (j - k)) * pow2 k)%Q
    by (apply Qmult_le_compat_r; [done|lra]).
  lra.
Qed.

(** Rounding moves by at most half a unit in the last place. *)
Lemma nearest_double_upper (q : Q) :
  (0 < q)%Q → (nearest_double q <= q + ulp q * (1 # 2))%Q.
Proof.
  intros Hq. rewrite nearest_double_gt by done. unfold nearest_double_pos.
  pose proof (ulp_pos q) as Hu.
  pose proof (round_half_even_upper (q / ulp q)) as Hr.
  assert (inject_Z (round_half_even (q / ulp q)) * ulp q <=
          (q / ulp q + (1 # 2)) * ulp q)%Q
    by (apply Qmult_le_compat_r; [done|lra]).
  assert ((q / ulp q + (1 # 2)) * ulp q == q + ulp q * (1 # 2))%Q
    by (field; lra).
  lra.
Qed.

(** The largest double below 1 is [1 - 2^-53]. *)
Lemma double_below_one (u : Q) :
  (0 <= u)%Q → (u < 1)%Q → is_double u → (u <= 1 - pow2 (-53))%Q.
Proof.
  intros H0 H1 Hd.
  destruct (Qlt_le_dec u (1 # 2)) as [Hlt|Hge].
  { assert (pow2 (-53) <= 1 # 2)%Q by (by vm_compute). lra. }
  assert (Hu : (0 < u)%Q) by lra.
  assert (He : ilog2 u = (-1)%Z) by (by apply ilog2_unique).
  unfold is_double in Hd. rewrite nearest_double_gt in Hd by done.
  unfold nearest_double_pos, ulp in Hd. rewrite He in Hd.
  change (Z.max (-1) (-1022) - 52)%Z with (-53)%Z in Hd.
  set (m := round_half_even (u / pow2 (-53))) in *.
  assert (E1 : (1 == inject_Z (2 ^ 53) * pow2 (-53))%Q) by (by vm_compute).
  assert (Hp : (0 < pow2 (-53))%Q) by apply pow2_pos.
  assert (Hm : (m < 2 ^ 53)%Z).
  { rewrite Zlt_Qlt. apply (Qmult_lt_r _ _ (pow2 (-53)) Hp).
    rewrite <- E1, Hd. done. }
  assert (Hm' : (inject_Z m <= inject_Z (2 ^ 53) - 1)%Q).
  { assert (Hz : (m ≤ 2 ^ 53 + -1)%Z) by lia.
    rewrite Zle_Qle, inject_Z_plus in Hz.
    change (inject_Z (-1)) with (-1)%Q in Hz. lra. }
  assert (inject_Z m * pow2 (-53) <= (inject_Z (2 ^ 53) - 1) * pow2 (-53))%Q
    by (apply Qmult_le_compat_r; [done|lra]).
  lra.
Qed.

(** A double that bounds [q >= 0] from above, and a multiple of the unit in
    the last place of everything below [2^(j+53)], bounds the rounded [q]
    too. *)
Lemma nearest_double_bound (q b : Q) (M j : Z) :
  (b == inject_Z M * pow2 j)%Q → (-1074 ≤ j)%Z → (b < pow2 (j + 53))%Q →
  (0 <= q)%Q → (q <= b)%Q → (nearest_double q <= b)%Q.
Proof.
  intros Eb Hj Hb H0 Hq.
  destruct (Qlt_le_dec 0 q) as [Hpos|Hle].
  - rewrite Eb. apply nearest_double_le; [done|by rewrite <- Eb|].
    assert (ilog2 q < j + 53)%Z by (apply ilog2_lt; [done|lra]). lia.
  - assert (E : nearest_double q = 0%Q).
    { unfold nearest_double.
      by destruct (Qcompare_spec q 0) as [E|L|G]; [|lra|lra]. }
    rewrite E. lra.
Qed.

Lemma nearest_double_le_100 (q : Q) :
  (0 <= q)%Q → (q <= 100)%Q → (nearest_double q <= 100)%Q.
Proof. by apply (nearest_double_bound q 100 100 0). Qed.

Lemma nearest_double_le_1 (q : Q) :
  (0 <= q)%Q → (q <= 1)%Q → (nearest_double q <= 1)%Q.
Proof. by apply (nearest_double_bound q 1 1 0). Qed.

Lemma nearest_double_le_half (q : Q) :
  (0 <= q)%Q → (q <= 1 # 2)%Q → (nearest_double q <= 1 # 2)%Q.
Proof. by apply (nearest_double_bound q (1 # 2) 1 (-1)). Qed.

(** Rounding does not fall below a bound that is a multiple of the unit in
    the last place. *)
Lemma nearest_double_ge (q : Q) (M j : Z) :
  (0 < q)%Q → (inject_Z M * pow2 j <= q)%Q →
  (Z.max (ilog2 q) (-1022) - 52 ≤ j)%Z →
  (inject_Z M * pow2 j <= nearest_double q)%Q.
Proof.
  intros Hq Hb Hj. rewrite nearest_double_gt by done.
  unfold nearest_double_pos, ulp.
  set (k := (Z.max (ilog2 q) (-1022) - 52)%Z) in *.
  pose proof (pow2_pos k) as Hk.
  assert (Ej : (pow2 j == inject_Z (2 ^ (j - k)) * pow2 k)%Q).
  { rewrite <- pow2_Z, <- pow2_add by lia.
    by replace (j - k + k)%Z with j by lia. }
  assert (Hm : (M * 2 ^ (j - k) ≤ round_half_even (q / pow2 k))%Z).
  { apply round_half_even_ge. rewrite inject_Z_mult.
    apply Qle_shift_div_l; [done|]. rewrite Ej in Hb. lra. }
  rewrite Zle_Qle, inject_Z_mult in Hm. rewrite Ej.
  assert (inject_Z M * inject_Z (2 ^ (j - k)) * pow2 k <=
          inject_Z (round_half_even (q / pow2 k)) * pow2 k)%Q
    by (apply Qmult_le_compat_r; [done|lra]).
  lra.
Qed.

(** [Math.floor(n / 60)] is the integer quotient for every whole number
    [n] below [2^53]: the quotient is at least 1/60 away from the next
    whole number, and rounding moves it by at most 1/64. *)
Lemma floor_divide_60 (n : Z) :
  (0 ≤ n < 2 ^ 53)%Z →
  Qfloor (Number_divide (inject_Z n) 60) = (n / 60)%Z.
Proof.
  intros [Hn0 Hn1]. unfold Number_divide.
  set (q := (inject_Z n / 60)%Q).
  pose proof (Z.div_mod n 60 ltac:(lia)) as Hdm.
  pose proof (Z.mod_pos_bound n 60 ltac:(lia)) as [Hr0 Hr1].
  set (k := (n / 60)%Z) in *. set (r := (n mod 60)%Z) in *.
  assert (Hk0 : (0 ≤ k)%Z) by (apply Z.div_pos; lia).
  assert (En : (inject_Z n == 60 * inject_Z k + inject_Z r)%Q).
  { rewrite Hdm, inject_Z_plus, inject_Z_mult. reflexivity. }
  assert (Hr0' : (0 <= inject_Z r)%Q)
    by (change 0%Q with (inject_Z 0); by rewrite <- Zle_Qle).
  assert (Hr1' : (inject_Z r <= 59)%Q)
    by (change 59%Q with (inject_Z 59); rewrite <- Zle_Qle; lia).
  assert (Hk0' : (0 <= inject_Z k)%Q)
    by (change 0%Q with (inject_Z 0); by rewrite <- Zle_Qle).
  assert (Eq : (q * 60 == inject_Z n)%Q) by (unfold q; field).
  assert (Hqk : (inject_Z k <= q)%Q) by lra.
  assert (Hqk' : (q <= inject_Z k + (59 # 60))%Q) by lra.
  assert (Hn1' : (inject_Z n < inject_Z (2 ^ 53))%Q) by (by rewrite <- Zlt_Qlt).
  destruct (Qlt_le_dec 0 q) as [Hpos|Hle].
  - assert (Hq48 : (q < pow2 48)%Q).
    { assert (E48 : (inject_Z (2 ^ 53) <= 60 * pow2 48)%Q) by (by vm_compute).
      lra. }
    assert (He : (ilog2 q < 48)%Z) by (by apply ilog2_lt).
    assert (Hlo : (inject_Z k <= nearest_double q)%Q).
    { assert (E : (inject_Z k == inject_Z k * pow2 0)%Q)
        by (change (pow2 0) with 1%Q; ring).
      rewrite E. apply nearest_double_ge; [done|by rewrite <- E|lia]. }
    assert (Hhi : (nearest_double q < inject_Z k + 1)%Q).
    { pose proof (nearest_double_upper q Hpos) as Hup.
      assert (Hu : (ulp q <= pow2 (-5))%Q) by (apply pow2_le; lia).
      assert (E5 : (pow2 (-5) == 1 # 32)%Q) by reflexivity.
      lra. }
    apply Z.le_antisymm.
    + assert (Qfloor (nearest_double q) < k + 1)%Z; [|lia].
      rewrite Zlt_Qlt, inject_Z_plus.
      pose proof (Qfloor_le (nearest_double q)).
      change (inject_Z 1) with 1%Q. lra.
    + rewrite <- (Qfloor_Z k). by apply Qfloor_resp_le.
  - assert (E : nearest_double q = 0%Q).
    { unfold nearest_double.
      by destruct (Qcompare_spec q 0) as [E|L|G]; [|lra|lra]. }
    rewrite E. change (Qfloor 0) with 0%Z.
    assert (inject_Z k <= 0)%Q by lra.
    assert (k ≤ 0)%Z by (by rewrite Zle_Qle). lia.
Qed.

(** ** The display of the elapsed time *)

Lemma append_cons (x : ascii) (a b : string) :
  String x a +:+ b = String x (a +:+ b).
Proof. reflexivity. Qed.

Lemma append_assoc (a b c : string) : (a +:+ b) +:+ c = a +:+ (b +:+ c).
Proof.
  induction a as [|x a IH]; [done|]. by rewrite !append_cons, IH.
Qed.

Lemma length_append (a b : string) :
  String.length (a +:+ b) = String.length a + String.length b.
Proof.
  induction a as [|x a IH]; [done|]. rewrite append_cons. cbn. by rewrite IH.
Qed.

Lemma append_inj_length (a a' b b' : string) :
  String.length a = String.length a' →
  a +:+ b = a' +:+ b' → a = a' ∧ b = b'.
Proof.
  revert a'. induction a as [|x a IH]; intros [|x' a']; try done.
  rewrite !append_cons. cbn. intros [= Hlen] [= -> Happ].
  destruct (IH a' Hlen Happ) as [-> ->]. done.
Qed.

Lemma pretty_N_go_app (x : N) (s : string) :
  pretty_N_go x s = pretty_N_go x "" +:+ s.
Proof.
  revert s. induction (N.lt_wf_0 x) as [x _ IH]; intros s.
  assert (x = 0 ∨ 0 < x)%N as [->|Hx] by lia; [done|].
  rewrite (pretty_N_go_step x s), (pretty_N_go_step x "") by done.
  assert (Hlt : (x `div` 10 < x)%N) by (by apply N.div_lt).
  rewrite (IH _ Hlt (String _ s)), (IH _ Hlt (String _ "")).
  by rewrite append_assoc.
Qed.

(** One digit below ten. *)
Lemma toString_digit (n : nat) :
  n < 10 → toString n = String (pretty_N_char (N.of_nat n)) "".
Proof.
  intros Hn. unfold toString, pretty, pretty_nat, pretty, pretty_N.
  case_decide as Hz.
  - by replace n with 0 by lia.
  - rewrite pretty_N_go_step by lia.
    rewrite N.div_small, N.mod_small by lia. done.
Qed.

(** From ten on, the digits of the tenth and then the last digit. *)
Lemma toString_step (n : nat) :
  10 ≤ n → toString n = toString (n / 10) +:+ toString (n mod 10).
Proof.
  intros Hn. rewrite (toString_digit (n mod 10))
    by (apply Nat.mod_upper_bound; lia).
  unfold toString, pretty, pretty_nat, pretty, pretty_N.
  assert (Hd : 0 < n / 10) by (apply Nat.div_str_pos; lia).
  rewrite !decide_False by lia.
  rewrite pretty_N_go_step, pretty_N_go_app by lia.
  by rewrite Nat2N.inj_div, Nat2N.inj_mod.
Qed.

Lemma toString_length_digit (n : nat) :
  n < 10 → String.length (toString n) = 1.
Proof. intros Hn. by rewrite toString_digit. Qed.

Lemma toString_length_pos (n : nat) : 1 ≤ String.length (toString n).
Proof.
  destruct (decide (n < 10)) as [Hn|Hn].
  - by rewrite toString_length_digit.
  - rewrite toString_step, length_append by lia.
    rewrite (toString_length_digit (n mod 10))
      by (apply Nat.mod_upper_bound; lia). lia.
Qed.

Lemma toString_length_ge (n : nat) :
  10 ≤ n → 2 ≤ String.length (toString n).
Proof.
  intros Hn. rewrite toString_step, length_append by lia.
  pose proof (toString_length_pos (n / 10)).
  pose proof (toString_length_pos (n mod 10)). lia.
Qed.

Lemma toString_length_two (n : nat) :
  10 ≤ n < 100 → String.length (toString n) = 2.
Proof.
  intros Hn. rewrite toString_step, length_append by lia.
  rewrite !toString_length_digit; [done|apply Nat.mod_upper_bound; lia|].
  apply Nat.Div0.div_lt_upper_bound. lia.
Qed.

Lemma toString_length_three (n : nat) :
  100 ≤ n → 3 ≤ String.length (toString n).
Proof.
  intros Hn. rewrite toString_step, length_append by lia.
  assert (10 ≤ n / 10) by (apply Nat.div_le_lower_bound; lia).
  pose proof (toString_length_ge (n / 10)).
  pose proof (toString_length_pos (n mod 10)). lia.
Qed.

Lemma padStart_short (n : nat) :
  n < 10 → padStart 2 "0" (toString n) = "0" +:+ toString n.
Proof.
  intros Hn. unfold padStart. by rewrite toString_length_digit.
Qed.

Lemma padStart_long (n : nat) :
  10 ≤ n → padStart 2 "0" (toString n) = toString n.
Proof.
  intros Hn. unfold padStart. pose proof (toString_length_ge n Hn).
  destruct (String.length (toString n)) as [|[|k]]; [lia..|done].
Qed.

Lemma mod_60_mod_10 (n : nat) : n mod 60 mod 10 = n mod 10.
Proof.
  rewrite (Nat.div_mod_eq n 60) at 2.
  replace (60 * (n / 60) + n mod 60) with (n mod 60 + 6 * (n / 60) * 10)
    by lia.
  by rewrite Nat.Div0.mod_add.
Qed.

(** The minutes as displayed: at least two digits. *)
Lemma padStart_minutes (m : nat) :
  padStart 2 "0" (toString m) =
  if m <? 10 then "0" +:+ toString m else toString m.
Proof.
  destruct (Nat.ltb_spec m 10);
    [by apply padStart_short|by apply padStart_long].
Qed.

(** The seconds as displayed: exactly two digits. *)
Lemma padStart_seconds (s : nat) :
  s < 60 →
  padStart 2 "0" (toString s) = toString (s / 10) +:+ toString (s mod 10).
Proof.
  intros Hs. destruct (decide (s < 10)) as [Hlt|Hge].
  - rewrite padStart_short, Nat.div_small, Nat.mod_small by done. done.
  - rewrite padStart_long, toString_step by lia. done.
Qed.

(** Below [2^53] seconds the minutes are the integer quotient. *)
Lemma formatTime_mins (seconds : nat) :
  (Z.of_nat seconds < 2 ^ 53)%Z →
  Z.to_nat (Qfloor (Number_divide (inject_Z (Z.of_nat seconds)) 60)) =
  seconds / 60.
Proof.
  intros H. rewrite floor_divide_60 by lia.
  change 60%Z with (Z.of_nat 60). by rewrite <- Nat2Z.inj_div, Nat2Z.id.
Qed.

Lemma formatTime_eq (seconds : nat) :
  (Z.of_nat seconds < 2 ^ 53)%Z →
  formatTime seconds =
  (if seconds / 60 <? 10 then "0" +:+ toString (seconds / 60)
   else toString (seconds / 60))
  +:+ ":" +:+ toString (seconds mod 60 / 10) +:+ toString (seconds mod 10).
Proof.
  intros H. unfold formatTime. cbv zeta. rewrite formatTime_mins by done.
  rewrite padStart_minutes, padStart_seconds, mod_60_mod_10; [done|].
  apply Nat.mod_upper_bound. lia.
Qed.

Lemma minutes_length (m : nat) :
  2 ≤ String.length (if m <? 10 then "0" +:+ toString m else toString m) ∧
  (String.length (if m <? 10 then "0" +:+ toString m else toString m) = 2
   ↔ m < 100).
Proof.
  destruct (Nat.ltb_spec m 10) as [Hlt|Hge].
  - rewrite length_append, toString_length_digit by done. cbn. lia.
  - destruct (decide (m < 100)) as [Hlt|Hge'].
    + rewrite toString_length_two by lia. lia.
    + pose proof (toString_length_three m). lia.
Qed.

Lemma formatTime_length (seconds : nat) :
  (Z.of_nat seconds < 2 ^ 53)%Z →
  String.length (formatTime seconds) =
  String.length (if seconds / 60 <? 10 then "0" +:+ toString (seconds / 60)
                 else toString (seconds / 60)) + 3.
Proof.
  intros H. rewrite formatTime_eq, !length_append by done.
  rewrite !toString_length_digit; [cbn; lia|apply Nat.mod_upper_bound; lia|].
  apply Nat.Div0.div_lt_upper_bound.
  pose proof (Nat.mod_upper_bound seconds 60). lia.
Qed.

(** X17. For every whole number of seconds below [2^53], the time display
    is the minutes, padded with a zero to two digits and never cut, a colon,
    and the two digits of the seconds, where the minutes, computed as
    [Math.floor] of a quotient of doubles, are the integer quotient by 60.
    The display is at least five characters long, and exactly five
    ([MM:SS]) as long as the time is under 100 minutes. *)
Theorem X17_formatTime_shape (seconds : nat) :
  (Z.of_nat seconds < 2 ^ 53)%Z →
  formatTime seconds =
    (if seconds / 60 <? 10 then "0" +:+ toString (seconds / 60)
     else toString (seconds / 60))
    +:+ ":" +:+ toString (seconds mod 60 / 10) +:+ toString (seconds mod 10) ∧
  5 ≤ String.length (formatTime seconds) ∧
  (String.length (formatTime seconds) = 5 ↔ seconds < 100 * 60).
Proof.
  intros H. split; [by apply formatTime_eq|].
  rewrite formatTime_length by done.
  destruct (minutes_length (seconds / 60)) as [Hge Hiff].
  split; [lia|].
  pose proof (Nat.div_mod_eq seconds 60).
  pose proof (Nat.mod_upper_bound seconds 60). lia.
Qed.

Lemma X17_formatTime_shape_witness :
  formatTime 754 = "12:34" ∧ formatTime (100 * 60) = "100:00".
Proof.
  pose proof (X17_formatTime_shape 754 eq_refl) as (H1 & _).
  pose proof (X17_formatTime_shape (100 * 60) eq_refl) as (H2 & _).
  rewrite H1, H2. split; vm_compute; reflexivity.
Defined.

Lemma toString_inj (a b : nat) : toString a = toString b → a = b.
Proof. apply (inj pretty). Qed.

(** The padded minutes tell the minutes. *)
Lemma minutes_inj (m m' : nat) :
  (if m <? 10 then "0" +:+ toString m else toString m) =
  (if m' <? 10 then "0" +:+ toString m' else toString m') → m = m'.
Proof.
  assert (Hmixed : ∀ a b, a < 10 → 10 ≤ b →
            "0" +:+ toString a ≠ toString b).
  { intros a b Ha Hb E.
    assert (Hlen : String.length (toString b) = 2).
    { rewrite <- E, length_append. by rewrite toString_length_digit. }
    assert (Hb' : b < 100).
    { destruct (decide (b < 100)); [done|].
      pose proof (toString_length_three b). lia. }
    assert (Hq : b / 10 < 10) by (apply Nat.Div0.div_lt_upper_bound; lia).
    rewrite (toString_step b) in E by done.
    apply append_inj_length in E as [E _];
      [|by rewrite toString_length_digit].
    assert (Hz : toString 0 = "0") by (by rewrite toString_digit by lia).
    rewrite <- Hz in E. apply toString_inj in E.
    assert (1 ≤ b / 10) by (apply Nat.div_le_lower_bound; lia). lia. }
  destruct (Nat.ltb_spec m 10) as [Hm|Hm], (Nat.ltb_spec m' 10) as [Hm'|Hm'];
    intros E.
  - apply (inj (String.app "0")) in E. by apply toString_inj.
  - by destruct (Hmixed m m').
  - by destruct (Hmixed m' m).
  - by apply toString_inj.
Qed.

(** X18. Different times are displayed differently: [formatTime] is
    injective on the whole numbers of seconds below [2^53]. *)
Theorem X18_formatTime_inj (a b : nat) :
  (Z.of_nat a < 2 ^ 53)%Z → (Z.of_nat b < 2 ^ 53)%Z →
  formatTime a = formatTime b → a = b.
Proof.
  intros Ha53 Hb53 E.
  pose proof (f_equal String.length E) as Hlen.
  rewrite !formatTime_length in Hlen by done.
  rewrite !formatTime_eq in E by done.
  apply append_inj_length in E as [Em E]; [|lia].
  apply (inj (String.app ":")) in E.
  assert (Ha : a mod 60 / 10 < 10).
  { apply Nat.Div0.div_lt_upper_bound.
    pose proof (Nat.mod_upper_bound a 60). lia. }
  assert (Hb : b mod 60 / 10 < 10).
  { apply Nat.Div0.div_lt_upper_bound.
    pose proof (Nat.mod_upper_bound b 60). lia. }
  apply append_inj_length in E as [Et Eu];
    [|by rewrite !toString_length_digit].
  apply minutes_inj in Em. apply toString_inj in Et, Eu.
  rewrite <- (mod_60_mod_10 a), <- (mod_60_mod_10 b) in Eu.
  rewrite (Nat.div_mod_eq a 60), (Nat.div_mod_eq b 60), Em.
  rewrite (Nat.div_mod_eq (a mod 60) 10), (Nat.div_mod_eq (b mod 60) 10).
  by rewrite Et, Eu.
Qed.

Lemma X18_formatTime_inj_witness : 60 + 15 = 75.
Proof.
  apply (X18_formatTime_inj (60 + 15) 75); [reflexivity|reflexivity|].
  vm_compute. reflexivity.
Defined.

(** ** The waveform *)

Lemma barHeight_range (isActive : bool) (audioLevel u : Q) :
  (0 <= audioLevel)%Q → (audioLevel <= 1)%Q → (0 <= u)%Q → (u < 1)%Q →
  (20 <= barHeight isActive audioLevel u)%Q ∧
  (barHeight isActive audioLevel u <= 100)%Q.
Proof.
  intros Hl0 Hl1 Hu0 Hu1. unfold barHeight.
  destruct isActive; [|split; discriminate].
  split; [apply Q.le_max_l|]. apply Q.max_lub; [discriminate|].
  unfold Number_multiply, Number_add.
  set (x1 := nearest_double (audioLevel * 100)).
  set (x2 := nearest_double (u * (1 # 2))).
  set (x3 := nearest_double ((1 # 2) + x2)).
  assert (H1 : (0 <= x1)%Q ∧ (x1 <= 100)%Q).
  { split; [apply nearest_double_nonneg|apply nearest_double_le_100]; lra. }
  assert (H2 : (0 <= x2)%Q ∧ (x2 <= 1 # 2)%Q).
  { split; [apply nearest_double_nonneg|apply nearest_double_le_half]; lra. }
  assert (H3 : (0 <= x3)%Q ∧ (x3 <= 1)%Q).
  { split; [apply nearest_double_nonneg|apply nearest_double_le_1]; lra. }
  assert (H4 : (0 <= x1 * x3)%Q) by (apply Qmult_le_0_compat; tauto).
  assert (H5 : (x1 * x3 <= 100 * 1)%Q)
    by (apply Qmult_le_compat_nonneg; split; tauto).
  apply nearest_double_le_100; lra.
Qed.

(** X19. The waveform always has twenty bars, and after every sequence of
    events each bar is between 20 and 100 per cent high, whatever
    [Math.random()] returns; while the meter is not active (not recording,
    or paused) every bar is exactly 20. *)
Theorem X19_waveform_heights
    (throws : bool) (es : list Event) (random : nat → Q) :
  (∀ i, (0 <= random i)%Q ∧ (random i < 1)%Q) →
  length (waveform (state (run es (initialWorld throws))) random) = 20 ∧
  Forall (λ h, (20 <= h)%Q ∧ (h <= 100)%Q)
    (waveform (state (run es (initialWorld throws))) random) ∧
  (isRecording (state (run es (initialWorld throws))) &&
   negb (isPaused (state (run es (initialWorld throws)))) = false →
   waveform (state (run es (initialWorld throws))) random
   = replicate 20 20%Q).
Proof.
  intros Hr. pose proof (run_reachable_inv throws es) as [_ [Hl0 Hl1] _ _ _].
  unfold waveform, AudioWaveform. split; [by rewrite length_map|]. split.
  - apply Forall_map, Forall_forall. intros i _.
    destruct (Hr i) as [Hu0 Hu1]. by apply barHeight_range.
  - intros ->. reflexivity.
Qed.

Lemma X19_waveform_heights_witness :
  Forall (λ h, (20 <= h)%Q ∧ (h <= 100)%Q)
    (waveform
       (state (run (granted_start ++ [EAudio (replicate 200 xff)] ++
                    granted_start) (initialWorld false)))
       (λ _, 1 # 2)).
Proof.
  assert (Hr : ∀ i : nat, (0 <= 1 # 2)%Q ∧ (1 # 2 < 1)%Q)
    by (intros _; split; [discriminate|reflexivity]).
  pose proof (X19_waveform_heights false
    (granted_start ++ [EAudio (replicate 200 xff)] ++ granted_start)
    (λ _, 1 # 2) Hr) as (_ & H & _).
  exact H.
Defined.

(** ** The mock analysis *)

(** [Math.floor(Math.random() * 30) + 70] lies between 70 and 99: the
    product of the largest double below 1 with 30 rounds to a double below
    30. *)
Lemma confidence_range (u : Q) :
  (0 <= u)%Q → (u < 1)%Q → is_double u →
  (70 ≤ Qfloor (Number_multiply u 30) + 70 ≤ 99)%Z.
Proof.
  intros H0 H1 Hd. pose proof (double_below_one u H0 H1 Hd) as Hu.
  unfold Number_multiply. set (q := (u * 30)%Q).
  assert (Hq0 : (0 <= q)%Q) by (unfold q; lra).
  assert (Hq1 : (q <= 30 - 30 * pow2 (-53))%Q) by (unfold q; lra).
  assert (Hlo : (0 ≤ Qfloor (nearest_double q))%Z).
  { change 0%Z with (Qfloor 0). apply Qfloor_resp_le.
    by apply nearest_double_nonneg. }
  assert (Hhi : (nearest_double q < 30)%Q).
  { destruct (Qlt_le_dec q 16) as [Hlt|Hge].
    - apply Qle_lt_trans with 16%Q; [|reflexivity].
      by apply (nearest_double_bound q 16 16 0); [| | | |lra].
    - assert (Hpos : (0 < q)%Q) by lra.
      assert (Hp : (0 < pow2 (-53))%Q) by apply pow2_pos.
      assert (He : ilog2 q = 4%Z).
      { apply ilog2_unique; [done|].
        apply Qle_lt_trans with 30%Q; [lra|reflexivity]. }
      pose proof (nearest_double_upper q Hpos) as Hup.
      unfold ulp in Hup. rewrite He in Hup.
      change (Z.max 4 (-1022) - 52)%Z with (-48)%Z in Hup.
      assert (E : (pow2 (-48) == 32 * pow2 (-53))%Q) by (by vm_compute).
      rewrite E in Hup. lra. }
  assert (Qfloor (nearest_double q) < 30)%Z; [|lia].
  rewrite Zlt_Qlt. pose proof (Qfloor_le (nearest_double q)).
  change (inject_Z 30) with 30%Q. lra.
Qed.

Lemma mockResult_range (random : nat → Q) :
  random_draws random →
  status (mockResult random) ≠ analyzing ∧
  (70 ≤ confidence (mockResult random) ≤ 99)%Z.
Proof.
  intros Hr. unfold mockResult.
  destruct (Qgtb (random 0) _); [|destruct (Qgtb (random 1) _)];
    cbn [status confidence]; (split; [done|]);
    apply confidence_range; apply Hr.
Qed.

(** ** The component *)

Lemma play_snoc (acts : list Action) (a : Action) (d : Detector) :
  play (acts ++ [a]) d = act a (play acts d).
Proof. unfold play. by rewrite fold_left_app. Qed.

(** [isRecording] true means a recorder has been created. *)
Lemma step_recording_ref (e : Event) (w : World) :
  (isRecording (state w) = true → is_Some (mediaRecorderRef (refs w))) →
  isRecording (state (step e w)) = true →
  is_Some (mediaRecorderRef (refs (step e w))).
Proof.
  intros Hw Hrec.
  destruct (step_isRecording_origin e w Hrec) as [Hprev|(k & c & -> & Hk)].
  - destruct (step_refs_kept e w) as [K _]. auto.
  - rewrite step_device, Hk. unfold started. cbn. eauto.
Qed.

(** A promise that was not fulfilled with [null] never will be: the hook
    resolves with [null] only a promise it has just created. *)
Lemma step_promise_not_null (p : positive) (e : Event) (w : World) :
  (p < nextHandle (plat w))%positive →
  promises (plat w) !! p ≠ Some (fulfilled None) →
  (p < nextHandle (plat (step e w)))%positive ∧
  promises (plat (step e w)) !! p ≠ Some (fulfilled None).
Proof.
  intros Hlt Hp. destruct e as [ |k o| | | |i|f|r d|r|s|d].
  - by rewrite step_start.
  - rewrite step_device.
    destruct (requests (plat w) !! k) as [c|]; [|done].
    destruct o; [|done]. unfold started. cbn.
    split; [destruct (loops _); lia|done].
  - rewrite step_stop. unfold stopped.
    assert (Hne : nextHandle (plat w) ≠ p) by lia.
    destruct (mediaRecorderRef (refs w)) as [r|];
      [destruct (recorder_state r w), (stopThrows (plat w))|];
      cbn; (split; [lia|by rewrite lookup_insert_ne]).
  - rewrite step_pause.
    destruct (mediaRecorderRef (refs w)) as [r|]; [|done].
    destruct (isRecording (state w)); [|done]. by destruct (recorder_state r w).
  - unfold step, exec. rewrite resumeRecording_eq.
    destruct (mediaRecorderRef (refs w)) as [r|]; [|done].
    destruct (c_isPaused _); [|done].
    destruct (recorder_state r w) eqn:Es; [done| |];
      destruct (updateAudioLevel_plat (render (state w))
                  (resumed_world r w)) as [-> Hle];
      (split; [cbn in Hle; lia|done]).
  - unfold step. by destruct (decide _).
  - unfold step, exec. destruct (frames (plat w) !! f) as [c|]; [|done].
    destruct (updateAudioLevel_plat c
      (with_plat (λ p, set_frames (delete f (frames p)) p) w)) as [-> Hle].
    split; [cbn in Hle; lia|done].
  - unfold step. by destruct (recorders (plat w) !! r).
  - unfold step. destruct (recorders (plat w) !! r) as [m|]; [|done].
    destruct (mr_stopQueued m); [|done].
    destruct (mr_onstop m) as [q|]; [|done].
    unfold exec, when_some, onstop, resolve, update_recorder, modify, get,
      mbind, M_bind. cbn. split; [done|].
    rewrite lookup_alter. destruct (decide (q = p)) as [->|]; [|done].
    destruct (promises (plat w) !! p) as [[ |v| ]|]; cbn; congruence.
  - done.
  - done.
Qed.

(** What every state of the component satisfies. *)
Lemma play_inv (throws : bool) (acts : list Action) :
  (isRecording (state (hook (play acts (initialDetector throws)))) = true →
   is_Some (mediaRecorderRef
              (refs (hook (play acts (initialDetector throws)))))) ∧
  (∀ p, p ∈ awaiting (play acts (initialDetector throws)) →
        (p < nextHandle
               (plat (hook (play acts (initialDetector throws)))))%positive ∧
        promises (plat (hook (play acts (initialDetector throws)))) !! p
        ≠ Some (fulfilled None)) ∧
  (isAnalyzing (play acts (initialDetector throws)) = true →
   timeouts (play acts (initialDetector throws)) ≠ ∅).
Proof.
  induction acts as [|a acts IH] using rev_ind.
  { split; [done|]. split; [|done]. intros p Hp. by apply elem_of_empty in Hp. }
  rewrite play_snoc. set (d := play acts (initialDetector throws)) in *.
  destruct IH as (Href & Haw & Han).
  assert (Hstep : ∀ e,
    (isRecording (state (step e (hook d))) = true →
     is_Some (mediaRecorderRef (refs (step e (hook d))))) ∧
    (∀ p, p ∈ awaiting d →
          (p < nextHandle (plat (step e (hook d))))%positive ∧
          promises (plat (step e (hook d))) !! p ≠ Some (fulfilled None))).
  { intros e. split; [by apply step_recording_ref|].
    intros p Hp. destruct (Haw p Hp). by apply step_promise_not_null. }
  pose proof (conj Href (conj Haw Han)) as Hd.
  destruct a as [ | | |p|t random|e]; unfold act.
  - destruct (isRecording (state (hook d))) eqn:Hrec;
      [cbv iota; rewrite ?Hrec; exact Hd|].
    cbn [hook awaiting isAnalyzing timeouts].
    destruct (Hstep EStart) as [H1 H2]. exact (conj H1 (conj H2 Han)).
  - destruct (isRecording (state (hook d))) eqn:Hrec;
      [|cbv iota; rewrite ?Hrec; exact Hd].
    unfold with_hook. cbn [hook awaiting isAnalyzing timeouts].
    destruct (Hstep (if isPaused (state (hook d)) then EResume else EPause))
      as [H1 H2]. exact (conj H1 (conj H2 Han)).
  - destruct (isRecording (state (hook d))) eqn:Hrec;
      [|cbv iota; rewrite ?Hrec; exact Hd].
    rewrite stopRecording_eq. cbn [hook awaiting isAnalyzing timeouts].
    rewrite <- step_stop. destruct (Hstep EStop) as [H1 H2].
    split; [done|]. split; [|done]. intros p Hp.
    apply elem_of_union in Hp as [Hp|Hp]; [|by apply H2].
    apply elem_of_singleton in Hp as ->.
    destruct (Href eq_refl) as [r Er].
    rewrite step_stop. unfold stopped. rewrite Er.
    destruct (recorder_state r (hook d)), (stopThrows (plat (hook d))); cbn;
      rewrite lookup_insert_eq; (split; [lia|done]).
  - destruct (decide (p ∈ awaiting d)) as [Hp|Hp]; [|exact Hd].
    assert (Hsub : ∀ q, q ∈ awaiting d ∖ {[p]} → q ∈ awaiting d).
    { intros q Hq. by apply elem_of_difference in Hq as [Hq _]. }
    destruct (promises (plat (hook d)) !! p) as [[ |v| ]|] eqn:Epr;
      [exact Hd| | |exact Hd].
    + destruct v as [b|];
        cbn [analyze fresh hook awaiting isAnalyzing timeouts].
      * split; [done|]. split.
        -- intros q Hq. destruct (Haw q (Hsub q Hq)) as [Hlt Hq'].
           cbn. split; [lia|done].
        -- intros _ E.
           assert (Hin : nextHandle (plat (hook d)) ∈ (∅ : gset positive)).
           { rewrite <- E. apply elem_of_union_l. by apply elem_of_singleton. }
           by apply elem_of_empty in Hin.
      * split; [done|]. split; [|done]. intros q Hq. by apply Haw, Hsub.
    + cbn [hook awaiting isAnalyzing timeouts].
      split; [done|]. split; [|done]. intros q Hq. by apply Haw, Hsub.
  - destruct (decide (t ∈ timeouts d)); [|exact Hd].
    cbn [hook awaiting isAnalyzing timeouts].
    split; [exact Href|]. split; [exact Haw|done].
  - destruct (platform_event e); [|exact Hd].
    unfold with_hook. cbn [hook awaiting isAnalyzing timeouts].
    destruct (Hstep e) as [H1 H2]. exact (conj H1 (conj H2 Han)).
Qed.



(** X21. Every result the component ever holds is one the timer callback
    made up: its status is scam, warning or safe, never analyzing, its
    confidence is a whole number from 70 to 99, and it lists three threats
    and three risk factors.  [Math.random()] is taken to return doubles in
    [0, 1). *)
Theorem X21_results
    (throws : bool) (acts : list Action) (r : AnalysisResult) :
  Forall drawn_well acts →
  analysisResult (play acts (initialDetector throws)) = Some r →
  status r ≠ analyzing ∧ (70 ≤ confidence r ≤ 99)%Z ∧
  length (threats r) = 3 ∧ length (riskFactors r) = 3.
Proof.
  revert r. induction acts as [|a acts IH] using rev_ind; [done|].
  intros r Hw. apply Forall_app in Hw as [Hw Ha].
  apply Forall_inv in Ha. rewrite play_snoc.
  set (d := play acts (initialDetector throws)) in *.
  specialize (λ r, IH r Hw).
  destruct a as [ | | |p|t random|e]; unfold act.
  - destruct (isRecording (state (hook d))); [apply IH|done].
  - destruct (isRecording (state (hook d))); apply IH.
  - destruct (isRecording (state (hook d))); [|apply IH].
    rewrite stopRecording_eq. apply IH.
  - destruct (decide (p ∈ awaiting d)); [|apply IH].
    destruct (promises (plat (hook d)) !! p) as [[ |[b|]| ]|]; apply IH.
  - destruct (decide (t ∈ timeouts d)); [|apply IH].
    cbn [analysisResult]. intros [= <-].
    destruct (mockResult_range random Ha) as [H1 H2].
    split; [done|]. split; [done|]. unfold mockResult.
    by destruct (Qgtb (random 0) _); [|destruct (Qgtb (random 1) _)].
  - destruct (platform_event e); apply IH.
Qed.

Lemma X21_results_witness :
  (70 ≤ confidence (mockResult (λ _, 1 # 2)) ≤ 99)%Z.
Proof.
  assert (Hr : random_draws (λ _, 1 # 2)).
  { intros _. split; [discriminate|]. split; [reflexivity|].
    vm_compute. reflexivity. }
  assert (Hw : Forall drawn_well
    [ClickStart; PlatformEvent (EDevice 0 Granted); ClickStop;
     PlatformEvent (EStopEvent 4); Continue 6; TimerFired 7 (λ _, 1 # 2)]).
  { repeat (constructor; [exact I|]). constructor; [exact Hr|constructor]. }
  pose proof (X21_results false
    [ClickStart; PlatformEvent (EDevice 0 Granted); ClickStop;
     PlatformEvent (EStopEvent 4); Continue 6; TimerFired 7 (λ _, 1 # 2)]
    (mockResult (λ _, 1 # 2)) Hw eq_refl) as (_ & H & _).
  exact H.
Defined.

(** X22. Through the buttons of the component [stopRecording] never yields
    [null]: the Stop button is there only while [isRecording] is true, and
    then a recorder exists.  So whenever a stop that the component awaits is
    fulfilled, the payload is a blob, the test [if (audioBlob)] succeeds
    and the analysis starts: [isAnalyzing] becomes true and a timer is
    set. *)
Theorem X22_stop_never_null
    (throws : bool) (acts : list Action) (p : positive) (v : option Blob) :
  p ∈ awaiting (play acts (initialDetector throws)) →
  promises (plat (hook (play acts (initialDetector throws)))) !! p
  = Some (fulfilled v) →
  v ≠ None ∧
  isAnalyzing (act (Continue p) (play acts (initialDetector throws))) = true ∧
  timeouts (act (Continue p) (play acts (initialDetector throws))) =
  {[nextHandle (plat (hook (play acts (initialDetector throws))))]} ∪
  timeouts (play acts (initialDetector throws)).
Proof.
  intros Hp Hv. destruct (play_inv throws acts) as (_ & H & _).
  destruct (H p Hp) as [_ Hn].
  assert (Hne : v ≠ None) by (intros ->; by rewrite Hv in Hn).
  split; [done|]. unfold act. rewrite decide_True, Hv by done.
  by destruct v.
Qed.

Lemma X22_stop_never_null_witness :
  isAnalyzing
    (act (Continue 6)
       (play [ClickStart; PlatformEvent (EDevice 0 Granted); ClickStop;
              PlatformEvent (EStopEvent 4)] (initialDetector false)))
  = true.
Proof.
  assert (Hp : 6%positive ∈
    awaiting (play [ClickStart; PlatformEvent (EDevice 0 Granted); ClickStop;
                    PlatformEvent (EStopEvent 4)] (initialDetector false))).
  { eapply (bool_decide_unpack _). vm_compute. exact I. }
  pose proof (X22_stop_never_null false
    [ClickStart; PlatformEvent (EDevice 0 Granted); ClickStop;
     PlatformEvent (EStopEvent 4)] 6%positive
    (Some (newBlob [] "audio/wav")) Hp eq_refl) as (_ & H & _).
  exact H.
Defined.

(** ** A session whose recorder has died *)

Lemma sampled_dead_session (r : positive) (c : Closure) (n : nat) (w : World) :
  dead_session r w → dead_session r (sampled c n w).
Proof.
  intros (H1 & H2 & H3 & H4 & H5). unfold sampled, dead_session.
  by destruct (loops c).
Qed.

Lemma updateAudioLevel_dead_session (r : positive) (c : Closure) (w : World) :
  dead_session r w → dead_session r (snd (updateAudioLevel c w)).
Proof.
  intros H. rewrite updateAudioLevel_eq.
  destruct (analyserRef (refs w)) as [a|]; [|done].
  destruct (frequencyBinCount a w); [done|]. by apply sampled_dead_session.
Qed.

(** Nothing but a new start changes a dead session: stop, pause and resume
    throw at the recorder before they touch the status. *)
Lemma step_dead_session (r : positive) (e : Event) (w : World) :
  e ≠ EStart → dead_session r w → dead_session r (step e w).
Proof.
  intros He Hd. pose proof Hd as (Ht & Hrec & Er & Hs & Hq).
  destruct e as [ |k o| | | |i|f|r0 d|r0|s|d]; [done|..].
  - rewrite step_device, Hq. exact Hd.
  - rewrite step_stop. unfold stopped. rewrite Er, Hs, Ht.
    unfold dead_session. rewrite stop_thrown_recorder_state. done.
  - rewrite step_pause, Er, Hrec, Hs. exact Hd.
  - rewrite step_resume, Er, Hs. by destruct (isPaused (state w)).
  - rewrite step_tick. by destruct (decide _).
  - unfold step, exec. destruct (frames (plat w) !! f) as [c|]; [|done].
    by apply updateAudioLevel_dead_session.
  - unfold step. by destruct (recorders (plat w) !! r0).
  - unfold step. destruct (recorders (plat w) !! r0) as [m|] eqn:Em; [|done].
    destruct (mr_stopQueued m); [|done].
    assert (Hst : dead_session r
              (exec (update_recorder r0 (set_mr_state inactive false)) w)).
    { unfold dead_session, exec, update_recorder, modify, recorder_state
        in Hs |- *. cbn.
      repeat (split; [done|]). split; [|done].
      destruct (decide (r = r0)) as [->|Hne].
      - by rewrite lookup_alter_eq, Em.
      - by rewrite lookup_alter_ne. }
    destruct (mr_onstop m) as [q|]; exact Hst.
  - unfold step, dead_session, recorder_state in Hs |- *. cbn.
    repeat (split; [done|]). split; [|done].
    rewrite lookup_fmap.
    destruct (recorders (plat w) !! r) as [m|]; [|done]. cbn.
    unfold end_of_stream. by rewrite Hs.
  - exact Hd.
Qed.

Lemma act_dead_session (r : positive) (a : Action) (d : Detector) :
  dead_session r (hook d) → dead_session r (hook (act a d)).
Proof.
  intros Hd. pose proof Hd as (Ht & Hrec & Er & Hs & Hq).
  destruct a as [ | | |p|t random|e]; unfold act.
  - by rewrite Hrec.
  - rewrite Hrec. unfold with_hook. cbn [hook].
    apply step_dead_session; [by destruct (isPaused _)|done].
  - rewrite Hrec, stopRecording_eq. cbn [hook]. rewrite <- step_stop.
    by apply step_dead_session.
  - destruct (decide (p ∈ awaiting d)); [|done].
    destruct (promises (plat (hook d)) !! p) as [[ |[b|]| ]|]; done.
  - by destruct (decide (t ∈ timeouts d)).
  - destruct (platform_event e) eqn:Ee; [|done].
    unfold with_hook. cbn [hook]. apply step_dead_session; [|done].
    by intros ->.
Qed.

(** X23. When the recorder has gone inactive by itself during a session, as
    it does when the microphone is unplugged, on a platform where
    [stop()] throws on an inactive recorder, the component is stuck:
    whatever is clicked and whatever the platform does, [isRecording] stays
    true, so the Start button never comes back, and each Stop only gets a
    rejected promise. *)
Theorem X23_dead_session_stuck
    (d : Detector) (r : positive) (acts : list Action) :
  dead_session r (hook d) →
  isRecording (state (hook (play acts d))) = true ∧
  act ClickStart (play acts d) = play acts d ∧
  promises (plat (hook (act ClickStop (play acts d))))
    !! nextHandle (plat (hook (play acts d))) = Some rejected.
Proof.
  intros Hd.
  assert (H : dead_session r (hook (play acts d))).
  { induction acts as [|a acts IH] using rev_ind; [done|].
    rewrite play_snoc. by apply act_dead_session. }
  destruct H as (Ht & Hrec & Er & Hs & Hq).
  split; [done|]. split; [unfold act; by rewrite Hrec|].
  unfold act. rewrite Hrec, stopRecording_eq. cbn [hook].
  unfold stopped. rewrite Er, Hs, Ht. unfold stop_thrown.
  cbn [with_plat plat promises set_promises]. apply lookup_insert_eq.
Qed.

Lemma X23_dead_session_stuck_witness :
  isRecording
    (state (hook (play [ClickStop; ClickPauseResume; PlatformEvent (ETick 5);
                        ClickStop; ClickStart]
                    (play [ClickStart; PlatformEvent (EDevice 0 Granted);
                           PlatformEvent (ETrackEnded 1)]
                       (initialDetector true)))))
  = true.
Proof.
  assert (Hd : dead_session 4
    (hook (play [ClickStart; PlatformEvent (EDevice 0 Granted);
                 PlatformEvent (ETrackEnded 1)] (initialDetector true)))).
  { repeat split; vm_compute; reflexivity. }
  pose proof (X23_dead_session_stuck _ 4%positive
    [ClickStop; ClickPauseResume; PlatformEvent (ETick 5); ClickStop;
     ClickStart] Hd) as (H & _).
  exact H.
Defined.

(** ** One session at a time, through the component *)

Lemma prompt_snoc (acts : list Action) (a : Action) (d : Detector) :
  prompt (acts ++ [a]) d =
  prompt acts d &&
  match a with
  | ClickStart => no_request (hook (play acts d))
  | _ => true
  end.
Proof.
  revert d. induction acts as [|a' acts IH]; intros d; cbn [app prompt].
  - by rewrite andb_true_r.
  - rewrite IH. by rewrite andb_assoc.
Qed.

Lemma fresh_single_session (w : World) (n : positive) :
  single_session w → single_session (with_plat (set_nextHandle n) w).
Proof. intros [H1 H2 H3 H4 H5 H6 H7 H8 H9 H10 H11]. by split. Qed.

Lemma act_single_session (a : Action) (d : Detector) :
  single_session (hook d) →
  match a with
  | ClickStart => no_request (hook d) = true
  | _ => True
  end →
  single_session (hook (act a d)).
Proof.
  intros Hss Ha. destruct a as [ | | |p|t random|e]; unfold act.
  - destruct (isRecording (state (hook d))) eqn:Hrec; [done|]. cbn [hook].
    apply step_single_session; [done|]. cbn. by rewrite Hrec, Ha.
  - destruct (isRecording (state (hook d))); [|done].
    unfold with_hook. cbn [hook].
    apply step_single_session; [done|]. by destruct (isPaused _).
  - destruct (isRecording (state (hook d))); [|done].
    rewrite stopRecording_eq. cbn [hook]. rewrite <- step_stop.
    by apply step_single_session.
  - destruct (decide (p ∈ awaiting d)); [|done].
    destruct (promises (plat (hook d)) !! p) as [[ |[b|]| ]|]; try done.
    cbn [analyze fresh hook]. by apply fresh_single_session.
  - by destruct (decide (t ∈ timeouts d)).
  - destruct (platform_event e) eqn:Ee; [|done].
    unfold with_hook. cbn [hook].
    apply step_single_session; [done|]. by destruct e.
Qed.

(** X24. The component keeps sessions apart as long as the device answers
    each start before Start is clicked again: then, at every moment, every
    live interval is the one in [intervalRef], no frame request is pending,
    and while [isRecording] is false no interval is live and the level is
    0.  The button guard alone ([isRecording] false) covers everything but
    a second click during a pending device request. *)
Theorem X24_component_single_session (throws : bool) (acts : list Action) :
  prompt acts (initialDetector throws) = true →
  (∀ i, i ∈ intervals (plat (hook (play acts (initialDetector throws)))) →
        intervalRef (refs (hook (play acts (initialDetector throws))))
        = Some i) ∧
  frames (plat (hook (play acts (initialDetector throws)))) = ∅ ∧
  (isRecording (state (hook (play acts (initialDetector throws)))) = false →
   intervals (plat (hook (play acts (initialDetector throws)))) = ∅ ∧
   (audioLevel (state (hook (play acts (initialDetector throws)))) == 0)%Q).
Proof.
  intros Hp.
  assert (H : single_session (hook (play acts (initialDetector throws)))).
  { induction acts as [|a acts IH] using rev_ind;
      [apply initial_single_session|].
    rewrite prompt_snoc in Hp. apply andb_true_iff in Hp as [Hp Ha].
    rewrite play_snoc. apply act_single_session; [by apply IH|].
    by destruct a. }
  split; [apply (ss_interval _ H)|]. split; [apply (ss_frames _ H)|].
  intros Hrec.
  split; [by apply (ss_idle_intervals _ H)|by apply (ss_idle_level _ H)].
Qed.

Lemma X24_component_single_session_witness :
  frames (plat (hook (play [ClickStart; PlatformEvent (EDevice 0 Granted);
                            ClickPauseResume; ClickPauseResume; ClickStop;
                            ClickStart; PlatformEvent (EDevice 0 Granted)]
                        (initialDetector false)))) = ∅.
Proof.
  pose proof (X24_component_single_session false
    [ClickStart; PlatformEvent (EDevice 0 Granted); ClickPauseResume;
     ClickPauseResume; ClickStop; ClickStart;
     PlatformEvent (EDevice 0 Granted)] eq_refl) as (_ & H & _).
  exact H.
Defined.
